(** * OsmService

    A shallow embedding of [modules/services/OsmService.js], the client of the
    OpenStreetMap API: tiled fetches with their caches, the changeset
    lifecycle, authentication and rate-limit bookkeeping, and the JSON and XML
    parsers that feed the caches.

    The service is written in continuation-passing style: a method issues a
    request and returns, and a closure runs when the response arrives.  The
    embedding keeps that shape.  A method is a computation over the service
    state that appends to a log of effects (requests issued, user callbacks
    invoked, events emitted, timers armed); a closure is named by a
    constructor holding its captured variables, and [resume] runs it on a
    response. *)

From stdpp Require Import gmap strings list pretty.
From Stdlib Require Import ZArith Floats.

Local Open Scope string_scope.
Local Open Scope list_scope.
Local Open Scope nat_scope.
Set Warnings "-register-all,-clear-no-such-hyp".

(** ** Objects used as insertion-ordered dictionaries

    [Object.keys] lists non-numeric keys in insertion order; the inflight
    tables are iterated, so they are association lists with unique keys. *)

Section alist.
Context {V : Type}.

Fixpoint al_lookup (k : string) (l : list (string * V)) : option V :=
  match l with
  | [] => None
  | (k', v) :: l' => if decide (k = k') then Some v else al_lookup k l'
  end.

(** [obj[k] = v]: an existing key keeps its place, a new one goes last. *)
Fixpoint al_set (k : string) (v : V) (l : list (string * V)) : list (string * V) :=
  match l with
  | [] => [(k, v)]
  | (k', v') :: l' =>
      if decide (k = k') then (k, v) :: l' else (k', v') :: al_set k v l'
  end.

(** [delete obj[k]] *)
Fixpoint al_delete (k : string) (l : list (string * V)) : list (string * V) :=
  match l with
  | [] => []
  | (k', v') :: l' =>
      if decide (k = k') then al_delete k l' else (k', v') :: al_delete k l'
  end.

Definition al_has (k : string) (l : list (string * V)) : bool :=
  match al_lookup k l with Some _ => true | None => false end.
End alist.

(** ** Array helpers of @rapid-sdk/util *)

Section arrays.
Context {A : Type} `{EqDecision A}.

Fixpoint uniq_from (seen l : list A) : list A :=
  match l with
  | [] => []
  | x :: l' =>
      if decide (x ∈ seen) then uniq_from seen l'
      else x :: uniq_from (x :: seen) l'
  end.

(** [Array.from(new Set(a))]: the first occurrence of each value, in order. *)
Definition utilArrayUniq (a : list A) : list A := uniq_from [] a.

(** [utilArrayChunk(a, chunkSize)]: [ceil(a.length / chunkSize)] slices
    [a.slice(i * chunkSize, i * chunkSize + chunkSize)]. *)
Definition utilArrayChunk (a : list A) (chunkSize : nat) : list (list A) :=
  match chunkSize with
  | O => [a]
  | S _ =>
      (λ i, take chunkSize (drop (i * chunkSize) a))
        <$> seq 0 ((length a + chunkSize - 1) `div` chunkSize)
  end.
End arrays.

Global Arguments utilArrayChunk : simpl never.

(** [arr.join()] *)
Fixpoint join (l : list string) : string :=
  match l with
  | [] => ""
  | [x] => x
  | x :: l' => x +:+ "," +:+ join l'
  end.

(** ** Numbers

    Coordinates are JavaScript numbers.  The service compares them and adds
    the constant [0.00001] to them; the embedding is generic in the carrier
    so that it runs both on IEEE doubles and on exact arithmetic. *)

Class JsNumber := {
  num : Type;
  num_leb : num → num → bool;       (* a <= b *)
  num_add : num → num → num;        (* a + b *)
  epsilon : num                     (* the literal 0.00001 *)
}.

(** Text conversions: [parseFloat] on an attribute or on the text of a number
    ([parseFloat(x)] converts a non-string argument with [String(x)]). *)
Class JsNumberText (N : JsNumber) := {
  parseFloat : string → num;
  num_to_string : num → string
}.

(** What the displacement of coincident notes relies on.  The order of the
    numbers is transitive: so is that of the doubles, where NaN compares
    with nothing. *)
Class OrderedNumber (N : JsNumber) : Prop := {
  num_leb_trans : ∀ x y z : num, num_leb x y = true → num_leb y z = true → num_leb x z = true
}.

(** Adding [0.00001] to [x] gives a larger number.  It does in exact
    arithmetic; on doubles it does unless the sum is rounded back to [x]. *)
Definition advances {N : JsNumber} (x : num) : Prop :=
  (num_leb x x = true → num_leb x (num_add x epsilon) = true) ∧
  num_leb (num_add x epsilon) x = false.

(** IEEE 754 binary64, the numbers of the JavaScript engine. *)
Definition DoubleNumber : JsNumber := {|
  num := float;
  num_leb := PrimFloat.leb;
  num_add := PrimFloat.add;
  epsilon := 0x1.4f8b588e368f1p-17%float
|}.

(** ** Geometry of @rapid-sdk/math and the RBush index *)

(** A location, [[lon, lat]]. *)
Abbreviation Vec2 := (num * num)%type.

Section geometry.
Context {N : JsNumber}.

Definition vecAdd (a b : Vec2) : Vec2 := (num_add a.1 b.1, num_add a.2 b.2).

Record Extent := { ext_min : Vec2; ext_max : Vec2 }.

(** [new Extent(loc)]: the maximum defaults to the minimum. *)
Definition Extent_at (loc : Vec2) : Extent := {| ext_min := loc; ext_max := loc |}.

Record BBox := { minX : num; minY : num; maxX : num; maxY : num }.

(** [extent.bbox()] *)
Definition Extent_bbox (e : Extent) : BBox :=
  {| minX := (ext_min e).1; minY := (ext_min e).2;
     maxX := (ext_max e).1; maxY := (ext_max e).2 |}.

(** [extent.polygon().slice(0, 4)]: the four corners. *)
Definition Extent_corners (e : Extent) : list Vec2 :=
  [ ((ext_min e).1, (ext_min e).2); ((ext_min e).1, (ext_max e).2);
    ((ext_max e).1, (ext_max e).2); ((ext_max e).1, (ext_min e).2) ].

(** A location lies inside an extent, bounds included. *)
Definition Extent_contains (e : Extent) (loc : Vec2) : bool :=
  num_leb (ext_min e).1 loc.1 && num_leb loc.1 (ext_max e).1 &&
  num_leb (ext_min e).2 loc.2 && num_leb loc.2 (ext_max e).2.

(** RBush's [intersects(a, b)]; [x >= y] is [y <= x]. *)
Definition intersects (a b : BBox) : bool :=
  num_leb (minX b) (maxX a) && num_leb (minY b) (maxY a) &&
  num_leb (minX a) (maxX b) && num_leb (minY a) (maxY b).

(** An RBush tree is represented by the list of the items it holds, each
    with its bounding box; [search] returns the items whose box intersects
    the query, [collides] tells whether there is one. *)
Definition rbush_search {I : Type} (box : I → BBox) (tree : list I) (query : BBox) : list I :=
  filter (λ i, intersects query (box i) = true) tree.

Definition rbush_collides {I : Type} (box : I → BBox) (tree : list I) (query : BBox) : bool :=
  existsb (λ i, intersects query (box i)) tree.

Definition rbush_insert {I : Type} (item : I) (tree : list I) : list I := item :: tree.

(** [remove(item, equals)] takes out one item that equals the given one,
    the first the tree comes to; in a tree of a single leaf that is the
    oldest, the last of the list.  (A tree of several leaves is searched
    only below the nodes whose box contains the box of the given item.)
    What is proved of it below is that the items that do not equal the
    given one stay, and that nothing is added. *)
Fixpoint rbush_remove {I : Type} (equals : I → I → bool) (item : I) (tree : list I) : list I :=
  match tree with
  | [] => []
  | x :: rest =>
      if existsb (equals item) rest then x :: rbush_remove equals item rest
      else if equals item x then rest
      else x :: rest
  end.

(** A map tile of the tiler: its id ("x,y,z") and its extent. *)
Record Tile := { tile_id : string; wgs84Extent : Extent }.

(** The item [loadTile] stores for a loaded tile: [bbox.id = tile.id]. *)
Record TileBox := { tb_box : BBox; tb_id : string }.
End geometry.

(** ** Errors and identifiers *)

(** An error object as the callbacks see it: the service's own errors carry
    a negative [status], a [FetchError] the HTTP status, any other exception
    none. *)
Record Err := { err_message : string; err_status : option Z }.

Definition err_inflight : Err := {| err_message := "Changeset already inflight"; err_status := Some (-2)%Z |}.
Definition err_not_authenticated : Err := {| err_message := "Not Authenticated"; err_status := Some (-3)%Z |}.
Definition err_id_mismatch : Err := {| err_message := "Changeset ID mismatch"; err_status := Some (-4)%Z |}.
Definition err_connection_switched : Err := {| err_message := "Connection Switched"; err_status := Some (-1)%Z |}.
Definition err_no_json : Err := {| err_message := "No JSON"; err_status := Some (-1)%Z |}.
Definition err_partial_json : Err := {| err_message := "Partial JSON"; err_status := Some (-1)%Z |}.
Definition err_no_xml : Err := {| err_message := "No XML"; err_status := Some (-1)%Z |}.
Definition err_partial_xml : Err := {| err_message := "Partial XML"; err_status := Some (-1)%Z |}.
(** The exception of a failed property access, as a [catch] receives it. *)
Definition type_error : Err := {| err_message := "TypeError"; err_status := None |}.

(** [err?.status === n] *)
Definition has_status (err : option Err) (n : Z) : bool :=
  match err with
  | Some e => bool_decide (err_status e = Some n)
  | None => false
  end.

(** 400 Bad Request, 401 Unauthorized, 403 Forbidden *)
Definition is_auth_failure (err : option Err) : bool :=
  has_status err 400 || has_status err 401 || has_status err 403.

(** 509 Bandwidth Limit Exceeded, 429 Too Many Requests *)
Definition is_rate_limit (err : option Err) : bool :=
  has_status err 509 || has_status err 429.

(** The values of [changeset.id] and [_changeset.openChangesetID]. *)
Inductive jsid := Undefined | Null | Id (s : string).

#[global] Instance jsid_eq_dec : EqDecision jsid.
Proof. solve_decision. Defined.

(** Truthiness: [undefined], [null] and the empty string are falsy. *)
Definition truthy (i : jsid) : bool :=
  match i with
  | Id s => negb (bool_decide (s = ""))
  | _ => false
  end.

(** [a + b] where [a] is a string or undefined and [b] a string. *)
Definition text_of (i : jsid) : string :=
  match i with Undefined => "undefined" | Null => "null" | Id s => s end.

(** [s[0]] in a concatenation: the first character, or "undefined". *)
Definition char0 (s : string) : string :=
  match s with
  | EmptyString => "undefined"
  | String c _ => String c EmptyString
  end.

(** [osmEntity.id.fromOSM(type, id)], of modules/osm/entity.js:
    [type[0] + id]. *)
Definition fromOSM (type : string) (id : string) : string := char0 type +:+ id.

(** A changeset of the editor: its id and its content (tags), which the
    service only serialises. *)
Record Changeset := { cs_id : jsid; cs_content : string }.

(** [changeset.update({ id: changesetID })] *)
Definition Changeset_update_id (c : Changeset) (i : jsid) : Changeset :=
  {| cs_id := i; cs_content := cs_content c |}.

(** ** XML documents *)

Inductive XmlNode :=
| XElement (name : string) (attributes : list (string * string)) (childNodes : list XmlNode)
| XText (data : string).

Definition nodeName (n : XmlNode) : string :=
  match n with XElement name _ _ => name | XText _ => "#text" end.

Definition xml_attributes (n : XmlNode) : list (string * string) :=
  match n with XElement _ attrs _ => attrs | XText _ => [] end.

Definition xml_childNodes (n : XmlNode) : list XmlNode :=
  match n with XElement _ _ cs => cs | XText _ => [] end.

(** The descendants of a node in document order. *)
Fixpoint xml_descendants (n : XmlNode) : list XmlNode :=
  match n with
  | XText _ => []
  | XElement _ _ cs =>
      (fix go (l : list XmlNode) : list XmlNode :=
         match l with
         | [] => []
         | c :: l' => c :: xml_descendants c ++ go l'
         end) cs
  end.

Definition getElementsByTagName (n : XmlNode) (name : string) : list XmlNode :=
  filter (λ d, nodeName d = name) (xml_descendants n).

Fixpoint textContent (n : XmlNode) : string :=
  match n with
  | XText s => s
  | XElement _ _ cs =>
      (fix go (l : list XmlNode) : string :=
         match l with
         | [] => ""
         | c :: l' => textContent c +:+ go l'
         end) cs
  end.

(** [element.getAttribute(name)], [null] when absent. *)
Definition getAttribute (n : XmlNode) (name : string) : option string :=
  al_lookup name (xml_attributes n).

(** [String.prototype.trim] removes white space and line terminators at
    both ends: U+0009 to U+000D, U+0020, U+00A0, U+1680, U+2000 to U+200A,
    U+2028, U+2029, U+202F, U+205F, U+3000 and U+FEFF.  A string holds the
    UTF-8 encoding of the text, in which these characters take one, two or
    three bytes. *)
Definition byte (c : Ascii.ascii) : nat := Ascii.nat_of_ascii c.

(** U+0009 to U+000D and U+0020 *)
Definition white1 (c1 : Ascii.ascii) : bool :=
  bool_decide (9 ≤ byte c1 ≤ 13 ∨ byte c1 = 32).

(** U+00A0, the bytes C2 A0 *)
Definition white2 (c1 c2 : Ascii.ascii) : bool :=
  bool_decide (byte c1 = 194 ∧ byte c2 = 160).

(** The white space of three bytes. *)
Definition white3 (c1 c2 c3 : Ascii.ascii) : bool :=
  bool_decide
    ((byte c1 = 225 ∧ byte c2 = 154 ∧ byte c3 = 128)                (* U+1680: E1 9A 80 *)
     ∨ (byte c1 = 226 ∧ byte c2 = 128
        ∧ (128 ≤ byte c3 ≤ 138                                      (* U+2000 to U+200A: E2 80 80 to 8A *)
           ∨ byte c3 = 168 ∨ byte c3 = 169                          (* U+2028, U+2029: E2 80 A8, A9 *)
           ∨ byte c3 = 175))                                        (* U+202F: E2 80 AF *)
     ∨ (byte c1 = 226 ∧ byte c2 = 129 ∧ byte c3 = 159)              (* U+205F: E2 81 9F *)
     ∨ (byte c1 = 227 ∧ byte c2 = 128 ∧ byte c3 = 128)              (* U+3000: E3 80 80 *)
     ∨ (byte c1 = 239 ∧ byte c2 = 187 ∧ byte c3 = 191)).            (* U+FEFF: EF BB BF *)

(** [trimStart]: the white space characters at the start are dropped, one
    after the other. *)
Fixpoint trim_start (s : string) : string :=
  match s with
  | EmptyString => EmptyString
  | String c1 s1 =>
      if white1 c1 then trim_start s1
      else
        match s1 with
        | String c2 s2 =>
            if white2 c1 c2 then trim_start s2
            else
              match s2 with
              | String c3 s3 => if white3 c1 c2 c3 then trim_start s3 else s
              | EmptyString => s
              end
        | EmptyString => s
        end
  end.

(** [trimEnd]: the text is cut where what follows is white space only. *)
Fixpoint trim_end (s : string) : string :=
  match s with
  | EmptyString => EmptyString
  | String c s' =>
      if bool_decide (trim_start s = EmptyString) then EmptyString
      else String c (trim_end s')
  end.

Definition trim (s : string) : string := trim_end (trim_start s).

(** ** Payloads and parsed data *)

Section data.
Context {N : JsNumber}.

(** An element of a JSON payload, as the API sends it (numbers for ids,
    versions and coordinates; an absent property is [None]). *)
Record JsonMember := { jm_type : string; jm_ref : Z; jm_role : string }.

Record JsonElement := {
  el_type : string;
  el_id : Z;
  el_visible : option bool;
  el_version : option Z;
  el_changeset : option Z;
  el_timestamp : option string;
  el_user : option string;
  el_uid : option Z;
  el_lon : option num;
  el_lat : option num;
  el_tags : option (gmap string string);
  el_nodes : option (list Z);
  el_members : option (list JsonMember)
}.

Record JsonUser := {
  ju_id : option Z;
  ju_display_name : option string;
  ju_account_created : option string;
  ju_img_href : option string;
  ju_changesets_count : option Z;
  ju_blocks_received_active : option Z
}.

(** A changeset of a JSON payload; [jc_comment] is [changeset.tags.comment]. *)
Record JsonChangeset := { jc_id : Z; jc_comment : option string }.

Record JsonPayload := {
  json_elements : list JsonElement;
  json_user : option JsonUser;
  json_users : option (list JsonUser);
  json_changesets : list JsonChangeset
}.

(** The body of a response after [utilFetchResponse] decoded it. *)
Inductive Body :=
| BEmpty                       (* no content *)
| BJson (j : JsonPayload)
| BXml (doc : list XmlNode)    (* a document, by its child nodes *)
| BText (s : string).

(** What a request comes back with: a decoded body, a [FetchError] for a
    response that is not ok, the [AbortError] of an aborted request, or any
    other rejection (a network failure). *)
Inductive Response :=
| Fulfilled (b : Body)
| FetchError (e : Err)
| AbortError
| OtherError.

(** The properties the parsers hand to the entity constructors. *)
Record EntityProps := {
  p_id : string;
  p_visible : bool;
  p_version : option string;
  p_changeset : option string;
  p_timestamp : option string;
  p_user : option string;
  p_uid : option string;
  p_tags : option (gmap string string)
}.

Record Member := { member_id : string; member_type : string; member_role : string }.

Record EntityCore := {
  e_id : string;
  e_visible : bool;
  e_version : option string;
  e_changeset : option string;
  e_timestamp : option string;
  e_user : option string;
  e_uid : option string;
  e_tags : gmap string string
}.

Inductive Entity :=
| Node (c : EntityCore) (loc : Vec2)
| Way (c : EntityCore) (nodes : list string)
| Relation (c : EntityCore) (members : list Member).

(** Modelled from the spec: the constructors [osmNode], [osmWay] and
    [osmRelation] of modules/osm, which are not among the sources.  The
    spec calls the entities "straightforward records mirroring the remote
    API's schema": the constructor stores the properties it is given, and a
    property given as [undefined] keeps its default, the empty object for
    [tags]. *)
Definition osmEntity_initialize (p : EntityProps) : EntityCore :=
  {| e_id := p_id p; e_visible := p_visible p; e_version := p_version p;
     e_changeset := p_changeset p; e_timestamp := p_timestamp p;
     e_user := p_user p; e_uid := p_uid p; e_tags := default ∅ (p_tags p) |}.

Definition osmNode (p : EntityProps) (loc : Vec2) : Entity := Node (osmEntity_initialize p) loc.
Definition osmWay (p : EntityProps) (nodes : list string) : Entity := Way (osmEntity_initialize p) nodes.
Definition osmRelation (p : EntityProps) (members : list Member) : Entity :=
  Relation (osmEntity_initialize p) members.

(** A property of a note: the text of a child element, or the parsed
    comments. *)
Inductive NoteField :=
| FText (s : string)
| FComments (comments : list (gmap string string)).

(** A note as [osmNote(props)] holds it: the location and the other
    properties by name, [id] among them.  The child elements of a note are
    those of the API's schema; none is named [loc]. *)
Record Note := { note_loc : Vec2; note_props : gmap string NoteField }.

Definition note_id (n : Note) : string :=
  match note_props n !! "id" with Some (FText s) => s | _ => "undefined" end.

(** The item [_encodeNoteRtree] builds for a note. *)
Record NoteItem := { ni_box : BBox; ni_data : Note }.

Definition _encodeNoteRtree (note : Note) : NoteItem :=
  {| ni_box := {| minX := (note_loc note).1; minY := (note_loc note).2;
                  maxX := (note_loc note).1; maxY := (note_loc note).2 |};
     ni_data := note |}.

Record User := {
  u_id : string;
  u_display_name : option string;
  u_account_created : option string;
  u_image_url : option string;
  u_changesets_count : string;
  u_active_blocks : string
}.

(** What a parse pushes on [results.data]. *)
Inductive Datum :=
| DEntity (e : Entity)
| DNote (n : Note)
| DUser (u : User)
| DChangeset (c : JsonChangeset).

Record Results := { data : list Datum; seenIDs : gset string }.

Definition is_entity (d : Datum) : bool :=
  match d with DEntity _ => true | _ => false end.
End data.

(** ** The element parsers

    A parser that reads a property of an absent attribute ([attrs.version.value]
    with no [version] attribute) throws; it then returns [None]. *)

Section parsers.
Context {N : JsNumber} {T : JsNumberText N}.

(** [attrs.name.value], which throws when the attribute is absent. *)
Definition attr_value (attrs : list (string * string)) (name : string) : option string :=
  al_lookup name attrs.

(** [parseFloat(attrs.name?.value)] *)
Definition parseFloat_attr (attrs : list (string * string)) (name : string) : num :=
  parseFloat (default "undefined" (al_lookup name attrs)).

(** [parseFloat(x)] for a number or [undefined]. *)
Definition parseFloat_num (x : option num) : num :=
  parseFloat (match x with Some v => num_to_string v | None => "undefined" end).

Definition _getLoc (attrs : list (string * string)) : Vec2 :=
  (parseFloat_attr attrs "lon", parseFloat_attr attrs "lat").

Definition _getNodes (xml : XmlNode) : option (list string) :=
  mapM (λ elem, ref ← attr_value (xml_attributes elem) "ref"; Some ("n" +:+ ref))
       (getElementsByTagName xml "nd").

Definition _getNodesJSON (obj : JsonElement) : list string :=
  (λ nodeID : Z, "n" +:+ pretty nodeID) <$> default [] (el_nodes obj).

Fixpoint _getTags_loop (elems : list XmlNode) (tags : gmap string string)
  : option (gmap string string) :=
  match elems with
  | [] => Some tags
  | elem :: elems' =>
      k ← attr_value (xml_attributes elem) "k";
      v ← attr_value (xml_attributes elem) "v";
      _getTags_loop elems'
        (if bool_decide (trim k = "") then tags else <[trim k := trim v]> tags)
  end.

Definition _getTags (xml : XmlNode) : option (gmap string string) :=
  _getTags_loop (getElementsByTagName xml "tag") ∅.

Definition _getMembers (xml : XmlNode) : option (list Member) :=
  mapM (λ elem,
          let attrs := xml_attributes elem in
          type ← attr_value attrs "type";
          ref ← attr_value attrs "ref";
          role ← attr_value attrs "role";
          Some {| member_id := char0 type +:+ ref; member_type := type; member_role := role |})
       (getElementsByTagName xml "member").

(** [member.type[0] + member.ref], [ref] being a number: the first
    character and the text of the number, and for an empty [type] the sum
    [undefined + ref], which is [NaN]. *)
Definition member_id_json (type : string) (ref : Z) : string :=
  match type with
  | EmptyString => "NaN"
  | String c _ => String c EmptyString +:+ pretty ref
  end.

Definition _getMembersJSON (obj : JsonElement) : list Member :=
  (λ member, {| member_id := member_id_json (jm_type member) (jm_ref member);
                member_type := jm_type member;
                member_role := jm_role member |})
    <$> default [] (el_members obj).

(** The properties common to the three JSON parsers. *)
Definition props_of_json (obj : JsonElement) (uid : string) : EntityProps :=
  {| p_id := uid;
     p_visible := default true (el_visible obj);
     p_version := pretty <$> el_version obj;
     p_changeset := pretty <$> el_changeset obj;
     p_timestamp := el_timestamp obj;
     p_user := el_user obj;
     p_uid := pretty <$> el_uid obj;
     p_tags := el_tags obj |}.

Definition _parseNodeJSON (obj : JsonElement) (uid : string) : Entity :=
  osmNode (props_of_json obj uid) (parseFloat_num (el_lon obj), parseFloat_num (el_lat obj)).

Definition _parseWayJSON (obj : JsonElement) (uid : string) : Entity :=
  osmWay (props_of_json obj uid) (_getNodesJSON obj).

Definition _parseRelationJSON (obj : JsonElement) (uid : string) : Entity :=
  osmRelation (props_of_json obj uid) (_getMembersJSON obj).

(** [!attrs.visible || attrs.visible.value !== 'false'] *)
Definition xml_visible (attrs : list (string * string)) : bool :=
  match al_lookup "visible" attrs with
  | Some v => negb (bool_decide (v = "false"))
  | None => true
  end.

(** The properties common to the three XML parsers. *)
Definition props_of_xml (xml : XmlNode) (uid : string) : option EntityProps :=
  let attrs := xml_attributes xml in
  version ← attr_value attrs "version";
  tags ← _getTags xml;
  Some {| p_id := uid;
          p_visible := xml_visible attrs;
          p_version := Some version;
          p_changeset := al_lookup "changeset" attrs;
          p_timestamp := al_lookup "timestamp" attrs;
          p_user := al_lookup "user" attrs;
          p_uid := al_lookup "uid" attrs;
          p_tags := Some tags |}.

Definition _parseNodeXML (xml : XmlNode) (uid : string) : option Entity :=
  p ← props_of_xml xml uid;
  Some (osmNode p (_getLoc (xml_attributes xml))).

Definition _parseWayXML (xml : XmlNode) (uid : string) : option Entity :=
  p ← props_of_xml xml uid;
  nodes ← _getNodes xml;
  Some (osmWay p nodes).

Definition _parseRelationXML (xml : XmlNode) (uid : string) : option Entity :=
  p ← props_of_xml xml uid;
  members ← _getMembers xml;
  Some (osmRelation p members).
End parsers.

(** ** The state of the service *)

Section state.
Context {N : JsNumber}.

(** [this._changeset]: the controller of the changeset request in flight
    ([undefined] and [null] are both [None]) and the id of the changeset
    the service believes open. *)
Record ChangesetState := { cs_inflight : option nat; openChangesetID : jsid }.

(** [this._tileCache] *)
Record TileCache := {
  tc_toLoad : gset string;
  tc_loaded : gset string;
  tc_inflight : list (string * nat);
  tc_seen : gset string;
  tc_rtree : list TileBox
}.

(** [this._noteCache] *)
Record NoteCache := {
  nc_toLoad : gset string;
  nc_loaded : gset string;
  nc_inflight : list (string * nat);
  nc_inflightPost : list (string * nat);
  nc_note : gmap string Note;
  nc_closed : gset string;
  nc_rtree : list NoteItem
}.

(** [this._userCache] *)
Record UserCache := { uc_toLoad : gset string; uc_user : gmap string User }.

(** The fields of the service.  [oauth_token] is the state of the osm-auth
    client, what [this._oauth.authenticated()] returns; [next_controller]
    and [next_handle] number the [AbortController]s and idle callbacks
    created so far and give each new one its identity. *)
Record Osm := {
  _maxWayNodes : Z;
  _imageryBlocklists : list string;
  _tileCache : TileCache;
  _noteCache : NoteCache;
  _userCache : UserCache;
  _changeset : ChangesetState;
  _deferred : gset nat;
  _connectionID : nat;
  _rateLimitError : option Err;
  _userChangesets : option (list Datum);
  _userDetails : option Datum;
  _cachedApiStatus : jsid;
  _off : bool;
  oauth_token : bool;
  next_controller : nat;
  next_handle : nat
}.

(** Field updates: [set_f v s] is [s] with [f] set to [v]. *)
Definition set_cs_inflight (v : _) (s : ChangesetState) : ChangesetState :=
  {| cs_inflight := v; openChangesetID := openChangesetID s |}.
Definition set_openChangesetID (v : _) (s : ChangesetState) : ChangesetState :=
  {| cs_inflight := cs_inflight s; openChangesetID := v |}.

Definition set_tc_toLoad (v : _) (s : TileCache) : TileCache :=
  {| tc_toLoad := v; tc_loaded := tc_loaded s; tc_inflight := tc_inflight s;
     tc_seen := tc_seen s; tc_rtree := tc_rtree s |}.
Definition set_tc_loaded (v : _) (s : TileCache) : TileCache :=
  {| tc_toLoad := tc_toLoad s; tc_loaded := v; tc_inflight := tc_inflight s;
     tc_seen := tc_seen s; tc_rtree := tc_rtree s |}.
Definition set_tc_inflight (v : _) (s : TileCache) : TileCache :=
  {| tc_toLoad := tc_toLoad s; tc_loaded := tc_loaded s; tc_inflight := v;
     tc_seen := tc_seen s; tc_rtree := tc_rtree s |}.
Definition set_tc_seen (v : _) (s : TileCache) : TileCache :=
  {| tc_toLoad := tc_toLoad s; tc_loaded := tc_loaded s; tc_inflight := tc_inflight s;
     tc_seen := v; tc_rtree := tc_rtree s |}.
Definition set_tc_rtree (v : _) (s : TileCache) : TileCache :=
  {| tc_toLoad := tc_toLoad s; tc_loaded := tc_loaded s; tc_inflight := tc_inflight s;
     tc_seen := tc_seen s; tc_rtree := v |}.

Definition set_nc_toLoad (v : _) (s : NoteCache) : NoteCache :=
  {| nc_toLoad := v; nc_loaded := nc_loaded s; nc_inflight := nc_inflight s;
     nc_inflightPost := nc_inflightPost s; nc_note := nc_note s; nc_closed := nc_closed s;
     nc_rtree := nc_rtree s |}.
Definition set_nc_loaded (v : _) (s : NoteCache) : NoteCache :=
  {| nc_toLoad := nc_toLoad s; nc_loaded := v; nc_inflight := nc_inflight s;
     nc_inflightPost := nc_inflightPost s; nc_note := nc_note s; nc_closed := nc_closed s;
     nc_rtree := nc_rtree s |}.
Definition set_nc_inflight (v : _) (s : NoteCache) : NoteCache :=
  {| nc_toLoad := nc_toLoad s; nc_loaded := nc_loaded s; nc_inflight := v;
     nc_inflightPost := nc_inflightPost s; nc_note := nc_note s; nc_closed := nc_closed s;
     nc_rtree := nc_rtree s |}.
Definition set_nc_inflightPost (v : _) (s : NoteCache) : NoteCache :=
  {| nc_toLoad := nc_toLoad s; nc_loaded := nc_loaded s; nc_inflight := nc_inflight s;
     nc_inflightPost := v; nc_note := nc_note s; nc_closed := nc_closed s;
     nc_rtree := nc_rtree s |}.
Definition set_nc_note (v : _) (s : NoteCache) : NoteCache :=
  {| nc_toLoad := nc_toLoad s; nc_loaded := nc_loaded s; nc_inflight := nc_inflight s;
     nc_inflightPost := nc_inflightPost s; nc_note := v; nc_closed := nc_closed s;
     nc_rtree := nc_rtree s |}.
Definition set_nc_closed (v : _) (s : NoteCache) : NoteCache :=
  {| nc_toLoad := nc_toLoad s; nc_loaded := nc_loaded s; nc_inflight := nc_inflight s;
     nc_inflightPost := nc_inflightPost s; nc_note := nc_note s; nc_closed := v;
     nc_rtree := nc_rtree s |}.
Definition set_nc_rtree (v : _) (s : NoteCache) : NoteCache :=
  {| nc_toLoad := nc_toLoad s; nc_loaded := nc_loaded s; nc_inflight := nc_inflight s;
     nc_inflightPost := nc_inflightPost s; nc_note := nc_note s; nc_closed := nc_closed s;
     nc_rtree := v |}.

Definition set_uc_toLoad (v : _) (s : UserCache) : UserCache :=
  {| uc_toLoad := v; uc_user := uc_user s |}.
Definition set_uc_user (v : _) (s : UserCache) : UserCache :=
  {| uc_toLoad := uc_toLoad s; uc_user := v |}.

Definition set_maxWayNodes (v : _) (s : Osm) : Osm :=
  {| _maxWayNodes := v; _imageryBlocklists := _imageryBlocklists s;
     _tileCache := _tileCache s; _noteCache := _noteCache s; _userCache := _userCache s;
     _changeset := _changeset s; _deferred := _deferred s; _connectionID := _connectionID s;
     _rateLimitError := _rateLimitError s; _userChangesets := _userChangesets s;
     _userDetails := _userDetails s; _cachedApiStatus := _cachedApiStatus s; _off := _off s;
     oauth_token := oauth_token s; next_controller := next_controller s;
     next_handle := next_handle s |}.
Definition set_imageryBlocklists (v : _) (s : Osm) : Osm :=
  {| _maxWayNodes := _maxWayNodes s; _imageryBlocklists := v; _tileCache := _tileCache s;
     _noteCache := _noteCache s; _userCache := _userCache s; _changeset := _changeset s;
     _deferred := _deferred s; _connectionID := _connectionID s;
     _rateLimitError := _rateLimitError s; _userChangesets := _userChangesets s;
     _userDetails := _userDetails s; _cachedApiStatus := _cachedApiStatus s; _off := _off s;
     oauth_token := oauth_token s; next_controller := next_controller s;
     next_handle := next_handle s |}.
Definition set_tileCache (v : _) (s : Osm) : Osm :=
  {| _maxWayNodes := _maxWayNodes s; _imageryBlocklists := _imageryBlocklists s;
     _tileCache := v; _noteCache := _noteCache s; _userCache := _userCache s;
     _changeset := _changeset s; _deferred := _deferred s; _connectionID := _connectionID s;
     _rateLimitError := _rateLimitError s; _userChangesets := _userChangesets s;
     _userDetails := _userDetails s; _cachedApiStatus := _cachedApiStatus s; _off := _off s;
     oauth_token := oauth_token s; next_controller := next_controller s;
     next_handle := next_handle s |}.
Definition set_noteCache (v : _) (s : Osm) : Osm :=
  {| _maxWayNodes := _maxWayNodes s; _imageryBlocklists := _imageryBlocklists s;
     _tileCache := _tileCache s; _noteCache := v; _userCache := _userCache s;
     _changeset := _changeset s; _deferred := _deferred s; _connectionID := _connectionID s;
     _rateLimitError := _rateLimitError s; _userChangesets := _userChangesets s;
     _userDetails := _userDetails s; _cachedApiStatus := _cachedApiStatus s; _off := _off s;
     oauth_token := oauth_token s; next_controller := next_controller s;
     next_handle := next_handle s |}.
Definition set_userCache (v : _) (s : Osm) : Osm :=
  {| _maxWayNodes := _maxWayNodes s; _imageryBlocklists := _imageryBlocklists s;
     _tileCache := _tileCache s; _noteCache := _noteCache s; _userCache := v;
     _changeset := _changeset s; _deferred := _deferred s; _connectionID := _connectionID s;
     _rateLimitError := _rateLimitError s; _userChangesets := _userChangesets s;
     _userDetails := _userDetails s; _cachedApiStatus := _cachedApiStatus s; _off := _off s;
     oauth_token := oauth_token s; next_controller := next_controller s;
     next_handle := next_handle s |}.
Definition set_changeset (v : _) (s : Osm) : Osm :=
  {| _maxWayNodes := _maxWayNodes s; _imageryBlocklists := _imageryBlocklists s;
     _tileCache := _tileCache s; _noteCache := _noteCache s; _userCache := _userCache s;
     _changeset := v; _deferred := _deferred s; _connectionID := _connectionID s;
     _rateLimitError := _rateLimitError s; _userChangesets := _userChangesets s;
     _userDetails := _userDetails s; _cachedApiStatus := _cachedApiStatus s; _off := _off s;
     oauth_token := oauth_token s; next_controller := next_controller s;
     next_handle := next_handle s |}.
Definition set_deferred (v : _) (s : Osm) : Osm :=
  {| _maxWayNodes := _maxWayNodes s; _imageryBlocklists := _imageryBlocklists s;
     _tileCache := _tileCache s; _noteCache := _noteCache s; _userCache := _userCache s;
     _changeset := _changeset s; _deferred := v; _connectionID := _connectionID s;
     _rateLimitError := _rateLimitError s; _userChangesets := _userChangesets s;
     _userDetails := _userDetails s; _cachedApiStatus := _cachedApiStatus s; _off := _off s;
     oauth_token := oauth_token s; next_controller := next_controller s;
     next_handle := next_handle s |}.
Definition set_connectionID (v : _) (s : Osm) : Osm :=
  {| _maxWayNodes := _maxWayNodes s; _imageryBlocklists := _imageryBlocklists s;
     _tileCache := _tileCache s; _noteCache := _noteCache s; _userCache := _userCache s;
     _changeset := _changeset s; _deferred := _deferred s; _connectionID := v;
     _rateLimitError := _rateLimitError s; _userChangesets := _userChangesets s;
     _userDetails := _userDetails s; _cachedApiStatus := _cachedApiStatus s; _off := _off s;
     oauth_token := oauth_token s; next_controller := next_controller s;
     next_handle := next_handle s |}.
Definition set_rateLimitError (v : _) (s : Osm) : Osm :=
  {| _maxWayNodes := _maxWayNodes s; _imageryBlocklists := _imageryBlocklists s;
     _tileCache := _tileCache s; _noteCache := _noteCache s; _userCache := _userCache s;
     _changeset := _changeset s; _deferred := _deferred s; _connectionID := _connectionID s;
     _rateLimitError := v; _userChangesets := _userChangesets s;
     _userDetails := _userDetails s; _cachedApiStatus := _cachedApiStatus s; _off := _off s;
     oauth_token := oauth_token s; next_controller := next_controller s;
     next_handle := next_handle s |}.
Definition set_userChangesets (v : _) (s : Osm) : Osm :=
  {| _maxWayNodes := _maxWayNodes s; _imageryBlocklists := _imageryBlocklists s;
     _tileCache := _tileCache s; _noteCache := _noteCache s; _userCache := _userCache s;
     _changeset := _changeset s; _deferred := _deferred s; _connectionID := _connectionID s;
     _rateLimitError := _rateLimitError s; _userChangesets := v;
     _userDetails := _userDetails s; _cachedApiStatus := _cachedApiStatus s; _off := _off s;
     oauth_token := oauth_token s; next_controller := next_controller s;
     next_handle := next_handle s |}.
Definition set_userDetails (v : _) (s : Osm) : Osm :=
  {| _maxWayNodes := _maxWayNodes s; _imageryBlocklists := _imageryBlocklists s;
     _tileCache := _tileCache s; _noteCache := _noteCache s; _userCache := _userCache s;
     _changeset := _changeset s; _deferred := _deferred s; _connectionID := _connectionID s;
     _rateLimitError := _rateLimitError s; _userChangesets := _userChangesets s;
     _userDetails := v; _cachedApiStatus := _cachedApiStatus s; _off := _off s;
     oauth_token := oauth_token s; next_controller := next_controller s;
     next_handle := next_handle s |}.
Definition set_cachedApiStatus (v : _) (s : Osm) : Osm :=
  {| _maxWayNodes := _maxWayNodes s; _imageryBlocklists := _imageryBlocklists s;
     _tileCache := _tileCache s; _noteCache := _noteCache s; _userCache := _userCache s;
     _changeset := _changeset s; _deferred := _deferred s; _connectionID := _connectionID s;
     _rateLimitError := _rateLimitError s; _userChangesets := _userChangesets s;
     _userDetails := _userDetails s; _cachedApiStatus := v; _off := _off s;
     oauth_token := oauth_token s; next_controller := next_controller s;
     next_handle := next_handle s |}.
Definition set_off (v : _) (s : Osm) : Osm :=
  {| _maxWayNodes := _maxWayNodes s; _imageryBlocklists := _imageryBlocklists s;
     _tileCache := _tileCache s; _noteCache := _noteCache s; _userCache := _userCache s;
     _changeset := _changeset s; _deferred := _deferred s; _connectionID := _connectionID s;
     _rateLimitError := _rateLimitError s; _userChangesets := _userChangesets s;
     _userDetails := _userDetails s; _cachedApiStatus := _cachedApiStatus s; _off := v;
     oauth_token := oauth_token s; next_controller := next_controller s;
     next_handle := next_handle s |}.
Definition set_oauth_token (v : _) (s : Osm) : Osm :=
  {| _maxWayNodes := _maxWayNodes s; _imageryBlocklists := _imageryBlocklists s;
     _tileCache := _tileCache s; _noteCache := _noteCache s; _userCache := _userCache s;
     _changeset := _changeset s; _deferred := _deferred s; _connectionID := _connectionID s;
     _rateLimitError := _rateLimitError s; _userChangesets := _userChangesets s;
     _userDetails := _userDetails s; _cachedApiStatus := _cachedApiStatus s; _off := _off s;
     oauth_token := v; next_controller := next_controller s; next_handle := next_handle s |}.
Definition set_next_controller (v : _) (s : Osm) : Osm :=
  {| _maxWayNodes := _maxWayNodes s; _imageryBlocklists := _imageryBlocklists s;
     _tileCache := _tileCache s; _noteCache := _noteCache s; _userCache := _userCache s;
     _changeset := _changeset s; _deferred := _deferred s; _connectionID := _connectionID s;
     _rateLimitError := _rateLimitError s; _userChangesets := _userChangesets s;
     _userDetails := _userDetails s; _cachedApiStatus := _cachedApiStatus s; _off := _off s;
     oauth_token := oauth_token s; next_controller := v; next_handle := next_handle s |}.
Definition set_next_handle (v : _) (s : Osm) : Osm :=
  {| _maxWayNodes := _maxWayNodes s; _imageryBlocklists := _imageryBlocklists s;
     _tileCache := _tileCache s; _noteCache := _noteCache s; _userCache := _userCache s;
     _changeset := _changeset s; _deferred := _deferred s; _connectionID := _connectionID s;
     _rateLimitError := _rateLimitError s; _userChangesets := _userChangesets s;
     _userDetails := _userDetails s; _cachedApiStatus := _cachedApiStatus s; _off := _off s;
     oauth_token := oauth_token s; next_controller := next_controller s; next_handle := v |}.

(** The state the constructor leaves. *)
Definition empty_tileCache : TileCache :=
  {| tc_toLoad := ∅; tc_loaded := ∅; tc_inflight := []; tc_seen := ∅; tc_rtree := [] |}.

Definition empty_noteCache : NoteCache :=
  {| nc_toLoad := ∅; nc_loaded := ∅; nc_inflight := []; nc_inflightPost := [];
     nc_note := ∅; nc_closed := ∅; nc_rtree := [] |}.

Definition initial : Osm :=
  {| _maxWayNodes := 2000;
     _imageryBlocklists := [".*\.google(apis)?\..*/(vt|kh)[\?/].*([xyz]=.*){3}.*"];
     _tileCache := empty_tileCache;
     _noteCache := empty_noteCache;
     _userCache := {| uc_toLoad := ∅; uc_user := ∅ |};
     _changeset := {| cs_inflight := None; openChangesetID := Undefined |};
     _deferred := ∅;
     _connectionID := 0;
     _rateLimitError := None;
     _userChangesets := None;
     _userDetails := None;
     _cachedApiStatus := Undefined;
     _off := false;
     oauth_token := false;
     next_controller := 0;
     next_handle := 0 |}.
End state.

(** ** Requests, closures and effects *)

Section effects.
Context {N : JsNumber}.

(** The path of a [loadFromAPI] request, by the template that builds it. *)
Inductive Path :=
| PathMap (e : Extent)                        (* '/api/0.6/map.json?bbox=' + e.toParam() *)
| PathNotes (limit closed : string) (e : Extent)
    (* '/api/0.6/notes?limit=' + limit + '&closed=' + closed + '&bbox=' + e.toParam() *)
| PathUsers (uids : string)                   (* '/api/0.6/users.json?users=' + uids *)
| PathUser (uid : string)                     (* `/api/0.6/user/${uid}.json` *)
| PathUserDetails                             (* '/api/0.6/user/details.json' *)
| PathChangesets (uid : string).              (* `/api/0.6/changesets.json?user=${uid}` *)

Definition includes (needle s : string) : bool :=
  match String.index 0 needle s with Some _ => true | None => false end.

(** [path.indexOf('.json') !== -1]; the text of an extent holds digits,
    signs, points and commas only. *)
Definition path_is_json (p : Path) : bool :=
  match p with
  | PathMap _ => true
  | PathNotes limit closed _ => includes ".json" limit || includes ".json" closed
  | PathUsers _ => true
  | PathUser _ => true
  | PathUserDetails => true
  | PathChangesets _ => true
  end.

(** The requests the service sends, relative to [urlroot]. *)
Inductive Request :=
| GET (path : Path)
| PUT_changeset_create (changeset : Changeset)
| POST_changeset_upload (id : jsid) (changeset : Changeset) (changes : string)
| PUT_changeset_close (id : jsid)
| GET_capabilities.

(** [options] after [Object.assign({ skipSeen: true }, options)]. *)
Record Options := { skipSeen : bool }.

(** The second argument of a callback. *)
Inductive Value :=
| VUndefined
| VNull
| VString (s : string)
| VChangeset (c : Changeset)
| VBody (b : Body)
| VResults (r : Results)
| VTileResults (r : option Results) (tile : Tile)   (* Object.assign({}, results, { tile }) *)
| VData (d : list Datum)
| VDatum (d : Datum).

(** The closures the service passes as callbacks, each with the variables
    it captured.  [UserCb n] is a callback of the caller, which the model
    does not look into: invoking it is an effect. *)
Inductive Callback :=
| UserCb (n : nat)
| Noop                                                    (* () => {} *)
| SendCreated (cid : nat) (changes : string) (callback : Callback)
| SendUploaded (cid : nat) (callback : Callback)
| CreatedChangeset (changeset : Changeset) (callback : Callback)
| UploadedChangeset (changeset : Changeset) (callback : Callback)
| ClosedChangeset (changeset : Changeset) (callback : Callback)
| GotTile (tile : Tile) (callback : option Callback)
| NotesTileLoaded (tile : Tile)
| LoadUsersGot (callback : Callback)
| LoadUserGot (callback : Callback)
| UserDetailsGot (callback : Callback)
| GotChangesets (callback : Callback)
| GotUser (callback : Callback)
| StatusGotResult (callback : Callback)
| ReloadedApiStatus.

(** What runs when a promise settles, a timer fires or the browser is
    idle. *)
Inductive Kont :=
| KLoadFromAPI (path : Path) (callback : option Callback) (options : Options) (cid : nat)
| KChangeset (cid : nat) (inner : Callback)
| KStatus (cid : nat) (inner : Callback)
| KSendDone (changeset : Value) (callback : Callback)
| KParseJSON (handle : nat) (payload : JsonPayload) (callback : Callback) (options : Options)
| KParseXML (handle : nat) (children : list XmlNode) (callback : Callback) (options : Options)
| KAuthenticated (cid : nat) (callback : option Callback).

(** What a method does to the outside, in the order it does it. *)
Inductive Effect :=
| Fetch (authenticated : bool) (request : Request) (controller : option nat) (k : Kont)
| Invoke (callback : nat) (err : option Err) (v : Value)
| Emit (event : string)
| EmitApiStatusChange (err : option Err) (status : Value)
| SetTimeout (k : Kont) (ms : nat)
| RequestIdleCallback (handle : nat) (k : Kont)
| Abort (controller : nat)
| ThrottledReloadApiStatus
| OauthLogout
| OauthAuthenticate (k : Kont).

(** ** Computations

    A method runs on the state of the service, logs its effects, and either
    returns, or throws, or (the loop of [_parseNoteXML]) does not return
    within the iterations it is given. *)
Inductive outcome (A : Type) :=
| Returned (a : A)
| Threw
| Diverged.
Global Arguments Returned {A} a.
Global Arguments Threw {A}.
Global Arguments Diverged {A}.

Definition M (A : Type) : Type := Osm → outcome A * Osm * list Effect.

Definition ret {A} (a : A) : M A := λ s, (Returned a, s, []).

Definition bind {A B} (m : M A) (f : A → M B) : M B :=
  λ s, match m s with
       | (Returned a, s', es) =>
           match f a s' with (r, s'', es') => (r, s'', es ++ es') end
       | (Threw, s', es) => (Threw, s', es)
       | (Diverged, s', es) => (Diverged, s', es)
       end.

Definition throw {A} : M A := λ s, (Threw, s, []).
Definition diverge {A} : M A := λ s, (Diverged, s, []).
Definition get : M Osm := λ s, (Returned s, s, []).
Definition gets {A} (f : Osm → A) : M A := λ s, (Returned (f s), s, []).
Definition modify (f : Osm → Osm) : M unit := λ s, (Returned tt, f s, []).
Definition effect (e : Effect) : M unit := λ s, (Returned tt, s, [e]).

(** A value that must be present: reading a property of [undefined]
    throws. *)
Definition required {A} (o : option A) : M A :=
  match o with Some a => ret a | None => throw end.

(** [try { m } catch (e) { h }] *)
Definition catch (m : M unit) (h : M unit) : M unit :=
  λ s, match m s with
       | (Threw, s', es) => match h s' with (r, s'', es') => (r, s'', es ++ es') end
       | r => r
       end.
End effects.

Notation "'let*' x ':=' m 'in' k" := (bind m (λ x, k))
  (at level 10, x name, m at level 100, k at level 200, only parsing).
Notation "m >>> k" := (bind m (λ _, k))
  (at level 100, k at level 200, right associativity, only parsing).
Notation "'when' b 'then' m" := (if b then m else ret tt)
  (at level 10, b at level 100, m at level 200, only parsing).

(** What the service takes from its surroundings: the location system's
    [blocksAt(loc).length], whether [new RegExp(s)] accepts a source, and
    [JSON.parse] ([None] when it throws). *)
Class Host (N : JsNumber) := {
  blocksAt : Vec2 → nat;
  RegExp_valid : string → bool;
  JSON_parse : string → option JsonPayload
}.

(** A closure passed as a callback: the constructor that names it, stored
    with the request it waits for, and what invoking it does. *)
Record Fn {N : JsNumber} := {
  fn_name : Callback;
  fn_call : option Err → Value → M unit
}.

(** ** Authentication state and the changeset lifecycle *)

Section changesets.
Context {N : JsNumber}.

Definition authenticated : M bool := gets oauth_token.

Definition emit (event : string) : M unit := effect (Emit event).

Definition logout : M unit :=
  modify (set_userChangesets None) >>>
  modify (set_userDetails None) >>>
  modify (set_oauth_token false) >>>
  effect OauthLogout >>>
  emit "authchange".

(** [new AbortController()] *)
Definition new_AbortController : M nat :=
  let* s := get in
  modify (set_next_controller (S (next_controller s))) >>>
  ret (next_controller s).

(** [!!this._changeset.inflight] *)
Definition isChangesetInflight (s : Osm) : bool :=
  match cs_inflight (_changeset s) with Some _ => true | None => false end.

Definition set_inflight (c : option nat) : M unit :=
  modify (λ s, set_changeset (set_cs_inflight c (_changeset s)) s).

Definition set_open (i : jsid) : M unit :=
  modify (λ s, set_changeset (set_openChangesetID i (_changeset s)) s).

(** The closure [_wrapcb(callback)] returns, [cid] being the connection ID
    when [_wrapcb] was called. *)
Definition _wrapcb (cid : nat) (callback : option Err → Value → M unit)
    (err : option Err) (results : Value) : M unit :=
  match err with
  | Some _ =>
      (when is_auth_failure err then logout) >>>
      callback err VUndefined
  | None =>
      let* s := get in
      if decide (_connectionID s ≠ cid)
      then callback (Some err_connection_switched) VUndefined
      else callback err results
  end.

(** A value used as a changeset id; an object reads as its text. *)
Definition jsid_of_value (v : Value) : jsid :=
  match v with
  | VUndefined => Undefined
  | VNull => Null
  | VString s => Id s
  | VBody BEmpty => Undefined
  | VBody (BText s) => Id s
  | _ => Id "[object Object]"
  end.

(** [createdChangeset] of [createChangeset] *)
Definition createdChangeset (changeset : Changeset) (callback : option Err → Value → M unit)
    (err : option Err) (changesetID : Value) : M unit :=
  set_inflight None >>>
  match err with
  | Some _ => callback err (VChangeset changeset)
  | None =>
      set_open (jsid_of_value changesetID) >>>
      callback None (VChangeset (Changeset_update_id changeset (jsid_of_value changesetID)))
  end.

Definition createChangeset (changeset : Changeset) (callback : Fn) : M unit :=
  let* s := get in
  if isChangesetInflight s then
    fn_call callback (Some err_inflight) VUndefined
  else if negb (oauth_token s) then
    fn_call callback (Some err_not_authenticated) VUndefined
  else if truthy (openChangesetID (_changeset s)) then
    (* try to reuse an existing open changeset *)
    createdChangeset changeset (fn_call callback) None
      (VString (text_of (openChangesetID (_changeset s))))
  else
    let* controller := new_AbortController in
    effect (Fetch true (PUT_changeset_create changeset) (Some controller)
              (KChangeset (_connectionID s) (CreatedChangeset changeset (fn_name callback)))) >>>
    set_inflight (Some controller).

(** [uploadedChangeset] of [uploadChangeset] *)
Definition uploadedChangeset (changeset : Changeset) (callback : option Err → Value → M unit)
    (err : option Err) (result : Value) : M unit :=
  set_inflight None >>>
  callback err (VChangeset changeset).

Definition uploadChangeset (changeset : Changeset) (changes : string) (callback : Fn) : M unit :=
  let* s := get in
  if isChangesetInflight s then
    fn_call callback (Some err_inflight) VUndefined
  else if negb (oauth_token s) then
    fn_call callback (Some err_not_authenticated) VUndefined
  else if bool_decide (cs_id changeset ≠ openChangesetID (_changeset s)) then
    fn_call callback (Some err_id_mismatch) VUndefined
  else
    let* controller := new_AbortController in
    effect (Fetch true (POST_changeset_upload (cs_id changeset) changeset changes) (Some controller)
              (KChangeset (_connectionID s) (UploadedChangeset changeset (fn_name callback)))) >>>
    set_inflight (Some controller).

(** [closedChangeset] of [closeChangeset] *)
Definition closedChangeset (changeset : Changeset) (callback : option Err → Value → M unit)
    (err : option Err) (result : Value) : M unit :=
  set_inflight None >>>
  set_open Null >>>
  callback err (VChangeset changeset).

Definition closeChangeset (changeset : Changeset) (callback : Fn) : M unit :=
  let* s := get in
  if isChangesetInflight s then
    fn_call callback (Some err_inflight) VUndefined
  else if negb (oauth_token s) then
    fn_call callback (Some err_not_authenticated) VUndefined
  else if bool_decide (cs_id changeset ≠ openChangesetID (_changeset s)) then
    fn_call callback (Some err_id_mismatch) VUndefined
  else
    let* controller := new_AbortController in
    effect (Fetch true (PUT_changeset_close (cs_id changeset)) (Some controller)
              (KChangeset (_connectionID s) (ClosedChangeset changeset (fn_name callback)))) >>>
    set_inflight (Some controller).

Definition noop : Fn := {| fn_name := Noop; fn_call := λ _ _, ret tt |}.

(** The closure [sendChangeset] gives [uploadChangeset]. *)
Definition sendChangeset_uploaded (cid : nat) (callback : Fn)
    (err : option Err) (updated : Value) : M unit :=
  match err with
  | Some _ => fn_call callback err updated
  | None =>
      (* Upload was successful, it is safe to call the callback. *)
      effect (SetTimeout (KSendDone updated (fn_name callback)) 2500) >>>
      (* Only try to close the changeset if we're still talking to the same server. *)
      let* s := get in
      when bool_decide (_connectionID s = cid) then
        match updated with
        | VChangeset changeset => closeChangeset changeset noop
        | _ => throw
        end
  end.

(** The closure [sendChangeset] gives [createChangeset]. *)
Definition sendChangeset_created (cid : nat) (changes : string) (callback : Fn)
    (err : option Err) (updated : Value) : M unit :=
  match err with
  | Some _ => fn_call callback err updated
  | None =>
      match updated with
      | VChangeset changeset =>
          uploadChangeset changeset changes
            {| fn_name := SendUploaded cid (fn_name callback);
               fn_call := sendChangeset_uploaded cid callback |}
      | _ => throw
      end
  end.

Definition sendChangeset (changeset : Changeset) (changes : string) (callback : Fn) : M unit :=
  let* s := get in
  createChangeset changeset
    {| fn_name := SendCreated (_connectionID s) changes (fn_name callback);
       fn_call := sendChangeset_created (_connectionID s) changes callback |}.

(** The timer [sendChangeset] arms after a successful upload. *)
Definition sendChangeset_done (changeset : Value) (callback : option Err → Value → M unit) : M unit :=
  set_open Null >>>
  callback None changeset.
End changesets.

(** ** Parsing payloads into the caches *)

Section parsing.
Context {N : JsNumber} {T : JsNumberText N} {H : Host N}.

Definition seen_has (uid : string) : M bool :=
  gets (λ s, bool_decide (uid ∈ tc_seen (_tileCache s))).

Definition seen_add (uid : string) : M unit :=
  modify (λ s, set_tileCache (set_tc_seen ({[uid]} ∪ tc_seen (_tileCache s)) (_tileCache s)) s).

Definition user_cached (uid : string) : M bool :=
  gets (λ s, bool_decide (is_Some (uc_user (_userCache s) !! uid))).

Definition toLoad_delete (uid : string) : M unit :=
  modify (λ s, set_userCache (set_uc_toLoad (uc_toLoad (_userCache s) ∖ {[uid]}) (_userCache s)) s).

Definition toLoad_add (uid : string) : M unit :=
  modify (λ s, set_userCache (set_uc_toLoad ({[uid]} ∪ uc_toLoad (_userCache s)) (_userCache s)) s).

Definition user_store (uid : string) (u : User) : M unit :=
  modify (λ s, set_userCache (set_uc_user (<[uid := u]> (uc_user (_userCache s))) (_userCache s)) s).

Definition no_results : Results := {| data := []; seenIDs := ∅ |}.

Definition seenIDs_add (uid : string) (r : Results) : Results :=
  {| data := data r; seenIDs := {[uid]} ∪ seenIDs r |}.

Definition data_push (d : Datum) (r : Results) : Results :=
  {| data := data r ++ [d]; seenIDs := seenIDs r |}.

(** The parser [_parseJSON] picks for [element.type]. *)
Definition json_parser (type : string) : option (JsonElement → string → Entity) :=
  if decide (type = "node") then Some _parseNodeJSON
  else if decide (type = "way") then Some _parseWayJSON
  else if decide (type = "relation") then Some _parseRelationJSON
  else None.

(** The loop over [elements] in the deferred part of [_parseJSON]. *)
Fixpoint parseJSON_elements (options : Options) (elements : list JsonElement)
    (results : Results) : M Results :=
  match elements with
  | [] => ret results
  | element :: rest =>
      match json_parser (el_type element) with
      | None => parseJSON_elements options rest results
      | Some parser =>
          let uid := fromOSM (el_type element) (pretty (el_id element)) in
          let results := seenIDs_add uid results in
          if skipSeen options then
            let* seen := seen_has uid in
            if seen then parseJSON_elements options rest results   (* avoid reparsing a "seen" entity *)
            else
              seen_add uid >>>
              parseJSON_elements options rest (data_push (DEntity (parser element uid)) results)
          else
            parseJSON_elements options rest (data_push (DEntity (parser element uid)) results)
      end
  end.

Definition user_of_json (uid : string) (user : JsonUser) : User :=
  {| u_id := uid;
     u_display_name := ju_display_name user;
     u_account_created := ju_account_created user;
     u_image_url := ju_img_href user;
     u_changesets_count := default "0" (pretty <$> ju_changesets_count user);
     u_active_blocks := default "0" (pretty <$> ju_blocks_received_active user) |}.

(** The loop over [users]. *)
Fixpoint parseJSON_users (options : Options) (users : list JsonUser)
    (results : Results) : M Results :=
  match users with
  | [] => ret results
  | user :: rest =>
      match pretty <$> ju_id user with
      | None => parseJSON_users options rest results
      | Some uid =>
          toLoad_delete uid >>>
          let results := seenIDs_add uid results in
          let* cached := user_cached uid in
          if skipSeen options && cached then parseJSON_users options rest results
          else
            user_store uid (user_of_json uid user) >>>
            parseJSON_users options rest (data_push (DUser (user_of_json uid user)) results)
      end
  end.

(** [changeset?.tags?.comment], truthy. *)
Definition has_comment (c : JsonChangeset) : bool :=
  match jc_comment c with Some s => negb (bool_decide (s = "")) | None => false end.

(** The loop over [changesets]: only changesets with a comment. *)
Definition parseJSON_changesets (changesets : list JsonChangeset) (results : Results) : Results :=
  {| data := data results ++ (DChangeset <$> filter (λ c, has_comment c = true) changesets);
     seenIDs := seenIDs results |}.

Definition deferred_delete (handle : nat) : M unit :=
  modify (λ s, set_deferred (_deferred s ∖ {[handle]}) s).

(** The idle callback of [_parseJSON]. *)
Definition parseJSON_deferred (handle : nat) (json : JsonPayload)
    (callback : option Err → Value → M unit) (options : Options) : M unit :=
  deferred_delete handle >>>
  let* results := parseJSON_elements options (json_elements json) no_results in
  let users := match json_user json with
               | Some u => [u]
               | None => default [] (json_users json)
               end in
  let* results := parseJSON_users options users results in
  callback None (VResults (parseJSON_changesets (json_changesets json) results)).

(** [window.requestIdleCallback(k)] followed by [this._deferred.add(handle)] *)
Definition requestIdleCallback (k : nat → Kont) : M unit :=
  let* s := get in
  let handle := next_handle s in
  modify (set_next_handle (S handle)) >>>
  effect (RequestIdleCallback handle (k handle)) >>>
  modify (λ s, set_deferred ({[handle]} ∪ _deferred s) s).

Definition empty_payload : JsonPayload :=
  {| json_elements := []; json_user := None; json_users := None; json_changesets := [] |}.

Definition _parseJSON (payload : Body) (callback : Fn) (options : Options) : M unit :=
  let parse (json : JsonPayload) : M unit :=
    if existsb (λ el, bool_decide (el_type el = "error")) (json_elements json) then
      fn_call callback (Some err_partial_json) VUndefined
    else
      (* Defer parsing until later *)
      requestIdleCallback (λ handle, KParseJSON handle json (fn_name callback) options) in
  match payload with
  | BEmpty => fn_call callback (Some err_no_json) VUndefined
  | BText s =>
      if bool_decide (s = "") then fn_call callback (Some err_no_json) VUndefined
      else let* json := required (JSON_parse s) in parse json
  | BJson json => parse json
  | BXml _ => parse empty_payload      (* an object without elements, users or changesets *)
  end.

(** The loop of [_parseNoteXML] that moves a note off the notes already in
    the index: [fuel] bounds the number of searches, [None] is a loop that
    has not ended within them. *)
Fixpoint displace (fuel : nat) (rtree : list NoteItem) (loc : Vec2) : option Vec2 :=
  match fuel with
  | O => None
  | S fuel' =>
      match rbush_search ni_box rtree (Extent_bbox (Extent_at loc)) with
      | [] => Some loc
      | _ :: _ => displace fuel' rtree (vecAdd loc (epsilon, epsilon))
      end
  end.

(** The properties of one [comment] element. *)
Fixpoint parseComment (nodes : list XmlNode) (parsedComment : gmap string string)
  : M (gmap string string) :=
  match nodes with
  | [] => ret parsedComment
  | node :: rest =>
      if decide (nodeName node = "#text") then parseComment rest parsedComment
      else
        (when bool_decide (nodeName node = "uid") then
           let uid := textContent node in
           let* cached := user_cached uid in
           when negb (bool_decide (uid = "")) && negb cached then toLoad_add uid) >>>
        parseComment rest (<[nodeName node := textContent node]> parsedComment)
  end.

Fixpoint _parseComments (comments : list XmlNode) : M (list (gmap string string)) :=
  match comments with
  | [] => ret []
  | comment :: rest =>
      if decide (nodeName comment = "comment") then
        let* parsedComment := parseComment (xml_childNodes comment) ∅ in
        let* parsedComments := _parseComments rest in
        ret (if bool_decide (parsedComment = ∅) then parsedComments
             else parsedComment :: parsedComments)
      else _parseComments rest
  end.

(** The loop over the child nodes of a note. *)
Fixpoint parseNote_props (childNodes : list XmlNode) (props : gmap string NoteField)
  : M (gmap string NoteField) :=
  match childNodes with
  | [] => ret props
  | node :: rest =>
      if decide (nodeName node = "#text") then parseNote_props rest props
      else if decide (nodeName node = "comments") then
        let* comments := _parseComments (xml_childNodes node) in
        parseNote_props rest (<[nodeName node := FComments comments]> props)
      else
        parseNote_props rest (<[nodeName node := FText (textContent node)]> props)
  end.

Definition _parseNoteXML (fuel : nat) (xml : XmlNode) (uid : string) : M Note :=
  let* s := get in
  (* if notes are coincident, move them apart slightly *)
  match displace fuel (nc_rtree (_noteCache s)) (_getLoc (xml_attributes xml)) with
  | None => diverge
  | Some loc =>
      (* parse note contents *)
      let* props := parseNote_props (xml_childNodes xml) {[ "id" := FText uid ]} in
      let note := {| note_loc := loc; note_props := props |} in
      modify (λ s, set_noteCache
                     (set_nc_rtree (rbush_insert (_encodeNoteRtree note) (nc_rtree (_noteCache s)))
                        (set_nc_note (<[note_id note := note]> (nc_note (_noteCache s)))
                           (_noteCache s))) s) >>>
      ret note
  end.

(** [note.id], truthy: the note has an id, and it is not the empty text. *)
Definition has_id (note : Note) : bool :=
  match note_props note !! "id" with
  | Some (FText id) => negb (bool_decide (id = ""))
  | _ => false
  end.

(** [_updateRtree(item, replace)]: replace or remove a note of the index.
    The item of the same id is removed; [replace] inserts the given one. *)
Definition _updateRtree (item : NoteItem) (replace : bool) : M unit :=
  modify (λ s,
    let removed :=
      rbush_remove (λ a b, bool_decide (note_id (ni_data a) = note_id (ni_data b)))
        item (nc_rtree (_noteCache s)) in
    set_noteCache
      (set_nc_rtree (if replace then rbush_insert item removed else removed) (_noteCache s)) s).

(** [removeNote(note)]: remove a single note from the cache. *)
Definition removeNote (note : Note) : M unit :=
  if negb (has_id note) then ret tt
  else
    modify (λ s, set_noteCache
                   (set_nc_note (delete (note_id note) (nc_note (_noteCache s))) (_noteCache s))
                   s) >>>
    _updateRtree (_encodeNoteRtree note) false.    (* false = remove *)


(** [elems[0] && elems[0].getAttribute(name)], truthy. *)
Definition first_attribute (elems : list XmlNode) (name : string) : option string :=
  match elems with
  | e :: _ =>
      match getAttribute e name with
      | Some v => if bool_decide (v = "") then None else Some v
      | None => None
      end
  | [] => None
  end.

Definition _parseUserXML (xml : XmlNode) (uid : string) : M User :=
  let attrs := xml_attributes xml in
  let received := match getElementsByTagName xml "blocks" with
                  | b :: _ => getElementsByTagName b "received"
                  | [] => []
                  end in
  let user := {| u_id := uid;
                 u_display_name := al_lookup "display_name" attrs;
                 u_account_created := al_lookup "account_created" attrs;
                 u_image_url := first_attribute (getElementsByTagName xml "img") "href";
                 u_changesets_count :=
                   default "0" (first_attribute (getElementsByTagName xml "changesets") "count");
                 u_active_blocks := default "0" (first_attribute received "active") |} in
  user_store uid user >>>
  toLoad_delete uid >>>
  ret user.

(** The parser [_parseXML] picks for [child.nodeName]. *)
Definition xml_parser (name : string) : option (XmlNode → string → option Entity) :=
  if decide (name = "node") then Some _parseNodeXML
  else if decide (name = "way") then Some _parseWayXML
  else if decide (name = "relation") then Some _parseRelationXML
  else None.

(** The loop over [children] in the deferred part of [_parseXML]. *)
Fixpoint parseXML_children (fuel : nat) (options : Options) (children : list XmlNode)
    (results : Results) : M Results :=
  match children with
  | [] => ret results
  | child :: rest =>
      if decide (nodeName child = "user") then
        let* uid := required (attr_value (xml_attributes child) "id") in
        let results := seenIDs_add uid results in
        let* cached := user_cached uid in
        if skipSeen options && cached then   (* avoid reparsing a "seen" entity *)
          toLoad_delete uid >>>
          parseXML_children fuel options rest results
        else
          let* parsed := _parseUserXML child uid in
          parseXML_children fuel options rest (data_push (DUser parsed) results)
      else if decide (nodeName child = "note") then
        let* id := required (head (getElementsByTagName child "id")) in
        let uid := textContent id in
        let results := seenIDs_add uid results in
        let* parsed := _parseNoteXML fuel child uid in
        parseXML_children fuel options rest (data_push (DNote parsed) results)
      else
        match xml_parser (nodeName child) with
        | None => parseXML_children fuel options rest results
        | Some parser =>
            let* id := required (attr_value (xml_attributes child) "id") in
            let uid := fromOSM (nodeName child) id in
            let results := seenIDs_add uid results in
            let* seen := seen_has uid in
            if skipSeen options && seen then   (* avoid reparsing a "seen" entity *)
              parseXML_children fuel options rest results
            else
              (when skipSeen options then seen_add uid) >>>
              let* parsed := required (parser child uid) in
              parseXML_children fuel options rest (data_push (DEntity parsed) results)
        end
  end.

(** The idle callback of [_parseXML]. *)
Definition parseXML_deferred (fuel : nat) (handle : nat) (children : list XmlNode)
    (callback : option Err → Value → M unit) (options : Options) : M unit :=
  deferred_delete handle >>>
  let* results := parseXML_children fuel options children no_results in
  callback None (VResults results).

(** [child.nodename]: a DOM node has no property of that name. *)
Definition xml_nodename (n : XmlNode) : option string := None.

Definition _parseXML (xml : Body) (callback : Fn) (options : Options) : M unit :=
  match xml with
  | BXml doc =>
      let* root := required (head doc) in
      let children := xml_childNodes root in
      if existsb (λ child, bool_decide (xml_nodename child = Some "error")) children then
        fn_call callback (Some err_partial_xml) VUndefined
      else
        (* Defer parsing until later *)
        requestIdleCallback (λ handle, KParseXML handle children (fn_name callback) options)
  | _ => fn_call callback (Some err_no_xml) VUndefined
  end.
End parsing.

(** ** Loading from the API *)

Section loading.
Context {N : JsNumber} {T : JsNumberText N} {H : Host N}.

(** [loadFromAPI(path, callback, options)] up to the request; the closure
    [done] that receives the response is [loadFromAPI_done] below.  It
    returns the controller of the request. *)
Definition loadFromAPI (path : Path) (callback : option Callback) (options : Options) : M nat :=
  let* s := get in
  let* controller := new_AbortController in
  effect (Fetch (oauth_token s) (GET path) (Some controller)
            (KLoadFromAPI path callback options (_connectionID s))) >>>
  ret controller.

Definition _hasInflightRequests (inflight : list (string * nat)) : bool :=
  negb (bool_decide (inflight = [])).

Definition _abortRequest (controller : nat) : M unit := effect (Abort controller).

(** The loop of [_abortUnwantedRequests] over [Object.keys(cache.inflight)];
    it returns what is left of the table. *)
Fixpoint abortUnwanted (toLoad : gset string) (visibleTiles : list Tile)
    (keys : list (string * nat)) (inflight : list (string * nat)) : M (list (string * nat)) :=
  match keys with
  | [] => ret inflight
  | (k, controller) :: rest =>
      if bool_decide (k ∈ toLoad) then abortUnwanted toLoad visibleTiles rest inflight
      else if existsb (λ tile, bool_decide (tile_id tile = k)) visibleTiles
      then abortUnwanted toLoad visibleTiles rest inflight
      else
        _abortRequest controller >>>
        abortUnwanted toLoad visibleTiles rest (al_delete k inflight)
  end.

Definition _abortUnwantedRequests (toLoad : gset string) (inflight : list (string * nat))
    (visibleTiles : list Tile) : M (list (string * nat)) :=
  abortUnwanted toLoad visibleTiles inflight inflight.

Definition set_tile_inflight (f : list (string * nat) → list (string * nat)) : M unit :=
  modify (λ s, set_tileCache (set_tc_inflight (f (tc_inflight (_tileCache s))) (_tileCache s)) s).

Definition set_tile_loaded (id : string) : M unit :=
  modify (λ s, set_tileCache (set_tc_loaded ({[id]} ∪ tc_loaded (_tileCache s)) (_tileCache s)) s).

(** The tile covers a blocked region: all corners are blocked. *)
Definition tileBlocked (tile : Tile) : bool :=
  forallb (λ loc, negb (bool_decide (blocksAt loc = 0))) (Extent_corners (wgs84Extent tile)).

(** The closure [gotTile] of [loadTile].  Its [cache] is the tile cache
    [loadTile] ran on, which is the tile cache of the service as long as
    [resetAsync] or [caches] has not replaced it. *)
Definition gotTile (tile : Tile) (callback : option (option Err → Value → M unit))
    (err : option Err) (results : Value) : M unit :=
  set_tile_inflight (al_delete (tile_id tile)) >>>
  (when negb (bool_decide (is_Some err)) then
     modify (λ s, set_tileCache
                    (set_tc_rtree
                       (rbush_insert {| tb_box := Extent_bbox (wgs84Extent tile); tb_id := tile_id tile |}
                          (tc_rtree (_tileCache s)))
                       (set_tc_loaded ({[tile_id tile]} ∪ tc_loaded (_tileCache s))
                          (set_tc_toLoad (tc_toLoad (_tileCache s) ∖ {[tile_id tile]})
                             (_tileCache s)))) s)) >>>
  match callback with
  | Some call =>
      call err (VTileResults (match results with VResults r => Some r | _ => None end) tile)
  | None => ret tt
  end >>>
  let* s := get in
  when negb (_hasInflightRequests (tc_inflight (_tileCache s))) then
    emit "loaded".    (* stop the spinner *)

Definition loadTile (tile : Tile) (callback : option Callback) : M unit :=
  let* s := get in
  if _off s then ret tt
  else if bool_decide (tile_id tile ∈ tc_loaded (_tileCache s))
          || al_has (tile_id tile) (tc_inflight (_tileCache s)) then ret tt
  else if tileBlocked tile then
    set_tile_loaded (tile_id tile)    (* don't try again *)
  else
    (when negb (_hasInflightRequests (tc_inflight (_tileCache s))) then
       emit "loading") >>>    (* start the spinner *)
    let* controller :=
      loadFromAPI (PathMap (wgs84Extent tile)) (Some (GotTile tile callback))
        {| skipSeen := true |} in
    set_tile_inflight (al_set (tile_id tile) controller).

Fixpoint loadTiles_each (tiles : list Tile) (callback : option Callback) : M unit :=
  match tiles with
  | [] => ret tt
  | tile :: rest => loadTile tile callback >>> loadTiles_each rest callback
  end.

(** [loadTiles(projection, callback)], [tiles] being the tiles the tiler
    finds to cover the view. *)
Definition loadTiles (tiles : list Tile) (callback : option Callback) : M unit :=
  let* s := get in
  if _off s then ret tt
  else
    (* Abort inflight requests that are no longer needed *)
    let hadRequests := _hasInflightRequests (tc_inflight (_tileCache s)) in
    let* inflight := _abortUnwantedRequests (tc_toLoad (_tileCache s))
                       (tc_inflight (_tileCache s)) tiles in
    set_tile_inflight (λ _, inflight) >>>
    (when hadRequests && negb (_hasInflightRequests inflight) then
       emit "loaded") >>>    (* stop the spinner *)
    (* issue new requests.. *)
    loadTiles_each tiles callback.

Definition isDataLoaded (s : Osm) (loc : Vec2) : bool :=
  rbush_collides tb_box (tc_rtree (_tileCache s)) (Extent_bbox (Extent_at loc)).

(** The loop of [loadTileAtLoc] over the tiles the tiler finds at the
    location. *)
Fixpoint loadTileAtLoc_each (tiles : list Tile) (callback : option Callback) : M unit :=
  match tiles with
  | [] => ret tt
  | tile :: rest =>
      let* s := get in
      (if bool_decide (tile_id tile ∈ tc_toLoad (_tileCache s))
          || bool_decide (tile_id tile ∈ tc_loaded (_tileCache s))
          || al_has (tile_id tile) (tc_inflight (_tileCache s)) then ret tt
       else
         modify (λ s, set_tileCache
                        (set_tc_toLoad ({[tile_id tile]} ∪ tc_toLoad (_tileCache s)) (_tileCache s)) s) >>>
         loadTile tile callback) >>>
      loadTileAtLoc_each rest callback
  end.

(** [loadTileAtLoc(loc, callback)], [tiles] being the tiles the tiler finds
    to cover [loc]. *)
Definition loadTileAtLoc (tiles : list Tile) (callback : option Callback) : M unit :=
  let* s := get in
  (* Back off if the toLoad queue is filling up *)
  if bool_decide (50 < size (tc_toLoad (_tileCache s))) then ret tt
  else loadTileAtLoc_each tiles callback.

(** [toggle(val)] *)
Definition toggle (val : bool) : M unit := modify (set_off (negb val)).

(** [noteOptions] after [Object.assign({ limit: 10000, closed: 7 }, noteOptions)],
    as they read in the path. *)
Record NoteOptions := { limit : string; closed : string }.

Definition set_note_inflight (f : list (string * nat) → list (string * nat)) : M unit :=
  modify (λ s, set_noteCache (set_nc_inflight (f (nc_inflight (_noteCache s))) (_noteCache s)) s).

Definition set_note_loaded (id : string) : M unit :=
  modify (λ s, set_noteCache (set_nc_loaded ({[id]} ∪ nc_loaded (_noteCache s)) (_noteCache s)) s).

(** The callback [loadNotes] gives [loadFromAPI] for a tile. *)
Definition notesTileLoaded (tile : Tile) (err : option Err) : M unit :=
  set_note_inflight (al_delete (tile_id tile)) >>>
  (when negb (bool_decide (is_Some err)) then set_note_loaded (tile_id tile)) >>>
  emit "loadedNotes".

(** The body of the loop of [loadNotes] for one tile. *)
Definition loadNotes_tile (noteOptions : NoteOptions) (tile : Tile) : M unit :=
  let* s := get in
  if bool_decide (tile_id tile ∈ nc_loaded (_noteCache s))
     || al_has (tile_id tile) (nc_inflight (_noteCache s)) then ret tt
  else if tileBlocked tile then
    set_note_loaded (tile_id tile)    (* don't try again *)
  else
    let* controller :=
      loadFromAPI (PathNotes (limit noteOptions) (closed noteOptions) (wgs84Extent tile))
        (Some (NotesTileLoaded tile)) {| skipSeen := false |} in
    set_note_inflight (al_set (tile_id tile) controller).

Fixpoint loadNotes_each (noteOptions : NoteOptions) (tiles : list Tile) : M unit :=
  match tiles with
  | [] => ret tt
  | tile :: rest => loadNotes_tile noteOptions tile >>> loadNotes_each noteOptions rest
  end.

(** [loadNotes(projection, noteOptions)], [tiles] being the note tiles that
    cover the view. *)
Definition loadNotes (tiles : list Tile) (noteOptions : NoteOptions) : M unit :=
  let* s := get in
  if _off s then ret tt
  else
    (* abort inflight requests that are no longer needed *)
    let* inflight := _abortUnwantedRequests (nc_toLoad (_noteCache s))
                       (nc_inflight (_noteCache s)) tiles in
    set_note_inflight (λ _, inflight) >>>
    (* issue new requests.. *)
    loadNotes_each noteOptions tiles.

(** The loop of [loadUsers] over the distinct ids: the ids to load and the
    cached users, each in the order met. *)
Fixpoint loadUsers_split (uids : list string) : M (list string * list User) :=
  match uids with
  | [] => ret ([], [])
  | uid :: rest =>
      let* s := get in
      match uc_user (_userCache s) !! uid with
      | Some user =>    (* loaded already *)
          toLoad_delete uid >>>
          let* r := loadUsers_split rest in
          ret (r.1, user :: r.2)
      | None =>
          let* r := loadUsers_split rest in
          ret (uid :: r.1, r.2)
      end
  end.

Fixpoint loadUsers_request (chunks : list (list string)) (callback : Callback) : M unit :=
  match chunks with
  | [] => ret tt
  | arr :: rest =>
      loadFromAPI (PathUsers (join arr)) (Some (LoadUsersGot callback)) {| skipSeen := true |} >>>
      loadUsers_request rest callback
  end.

Definition loadUsers (uids : list string) (callback : Fn) : M unit :=
  let* split := loadUsers_split (utilArrayUniq uids) in
  let toLoad := split.1 in
  let cached := split.2 in
  let* authed := authenticated in
  if negb (bool_decide (cached = [])) || negb authed then
    fn_call callback None (VData (DUser <$> cached)) >>>
    let* authed := authenticated in
    if negb authed then ret tt    (* require auth *)
    else loadUsers_request (utilArrayChunk toLoad 150) (fn_name callback)
  else loadUsers_request (utilArrayChunk toLoad 150) (fn_name callback).

(** [results.data], which throws when there are no results. *)
Definition results_data (results : Value) : M (list Datum) :=
  match results with VResults r => ret (data r) | _ => throw end.

Definition datum_value (d : option Datum) : Value :=
  match d with Some d => VDatum d | None => VUndefined end.

(** [gotUsers] of [loadUsers] *)
Definition loadUsers_gotUsers (callback : option Err → Value → M unit)
    (err : option Err) (results : Value) : M unit :=
  match err with
  | Some _ => callback err VUndefined
  | None => let* d := results_data results in callback None (VData d)
  end.

Definition loadUser (uid : string) (callback : Fn) : M unit :=
  let* s := get in
  if bool_decide (is_Some (uc_user (_userCache s) !! uid)) || negb (oauth_token s) then   (* require auth *)
    toLoad_delete uid >>>
    fn_call callback None (datum_value (DUser <$> uc_user (_userCache s) !! uid))
  else
    loadFromAPI (PathUser uid) (Some (LoadUserGot (fn_name callback))) {| skipSeen := true |} >>>
    ret tt.

(** [gotUsers] of [loadUser] *)
Definition loadUser_gotUsers (callback : option Err → Value → M unit)
    (err : option Err) (results : Value) : M unit :=
  match err with
  | Some _ => callback err VUndefined
  | None => let* d := results_data results in callback None (datum_value (head d))
  end.

Definition userDetails (callback : Fn) : M unit :=
  let* s := get in
  match _userDetails s with
  | Some d => fn_call callback None (VDatum d)    (* retrieve cached *)
  | None =>
      loadFromAPI PathUserDetails (Some (UserDetailsGot (fn_name callback)))
        {| skipSeen := false |} >>>
      ret tt
  end.

(** [gotUsers] of [userDetails] *)
Definition userDetails_gotUsers (callback : option Err → Value → M unit)
    (err : option Err) (results : Value) : M unit :=
  match err with
  | Some _ => callback err VUndefined
  | None =>
      let* d := results_data results in
      modify (set_userDetails (head d)) >>>
      callback None (datum_value (head d))
  end.

(** [gotChangesets] of [userChangesets] *)
Definition gotChangesets (callback : option Err → Value → M unit)
    (err : option Err) (results : Value) : M unit :=
  match err with
  | Some _ => callback err VUndefined
  | None =>
      let* d := results_data results in
      modify (set_userChangesets (Some d)) >>>
      callback None (VData d)
  end.

Definition datum_id (d : Datum) : string :=
  match d with
  | DUser u => u_id u
  | DEntity (Node c _) | DEntity (Way c _) | DEntity (Relation c _) => e_id c
  | DNote n => note_id n
  | DChangeset c => pretty (jc_id c)
  end.

(** [gotUser] of [userChangesets] *)
Definition gotUser (callback : Fn) (err : option Err) (user : Value) : M unit :=
  match err with
  | Some _ => fn_call callback err VUndefined
  | None =>
      match user with
      | VDatum d =>
          loadFromAPI (PathChangesets (datum_id d)) (Some (GotChangesets (fn_name callback)))
            {| skipSeen := false |} >>>
          ret tt
      | _ => throw
      end
  end.

Definition userChangesets (callback : Fn) : M unit :=
  let* s := get in
  match _userChangesets s with
  | Some d => fn_call callback None (VData d)    (* retrieve cached *)
  | None =>
      userDetails {| fn_name := GotUser (fn_name callback); fn_call := gotUser callback |}
  end.

(** [parseInt(s, 10)]: white space, a sign, then the digits up to the first
    other character; [None] is NaN. *)
Definition digit_of (c : Ascii.ascii) : option Z :=
  let n := Ascii.nat_of_ascii c in
  if bool_decide (48 ≤ n ≤ 57)%nat then Some (Z.of_nat (n - 48)) else None.

Fixpoint parse_digits (s : string) (acc : option Z) : option Z :=
  match s with
  | EmptyString => acc
  | String c s' =>
      match digit_of c with
      | Some d => parse_digits s' (Some (10 * default 0 acc + d)%Z)
      | None => acc
      end
  end.

Definition parseInt10 (s : string) : option Z :=
  match trim_start s with
  | EmptyString => None
  | String c s' =>
      if bool_decide (Ascii.nat_of_ascii c = 45) then Z.opp <$> parse_digits s' None    (* - *)
      else if bool_decide (Ascii.nat_of_ascii c = 43) then parse_digits s' None         (* + *)
      else parse_digits (String c s') None
  end.

(** The [else] branch of [gotResult]: blocklists, the maximum number of
    nodes of a way, and the [api] attribute of the [status] element. *)
Definition read_capabilities (xml : Body) (callback : option Err → Value → M unit) : M unit :=
  match xml with
  | BXml doc =>
      let elements := doc ++ mjoin (xml_descendants <$> doc) in
      let by_name name := filter (λ d, nodeName d = name) elements in
      (* Update blocklists *)
      let regexes :=
        omap (λ element,
                match getAttribute element "regex" with
                | Some regexString =>
                    if negb (bool_decide (regexString = "")) && RegExp_valid regexString
                    then Some regexString else None
                | None => None
                end) (by_name "blacklist") in
      (when negb (bool_decide (regexes = [])) then modify (set_imageryBlocklists regexes)) >>>
      (* Update max nodes per way *)
      let maxWayNodes :=
        match by_name "waynodes" with
        | w :: _ => parseInt10 (default "null" (getAttribute w "maximum"))
        | [] => Some 0%Z
        end in
      match maxWayNodes with
      | Some n =>    (* maxWayNodes && isFinite(maxWayNodes) *)
          when negb (bool_decide (n = 0%Z)) && bool_decide (Z.abs n < 2 ^ 1024)%Z then
            modify (set_maxWayNodes n)
      | None => ret tt
      end >>>
      (* Update status *)
      let* status := required (head (by_name "status")) in
      callback None (match getAttribute status "api" with
                     | Some val => VString val
                     | None => VNull
                     end)
  | _ => throw    (* no [getElementsByTagName] on what is not a document *)
  end.

(** [gotResult] of [status] *)
Definition status_gotResult (callback : option Err → Value → M unit)
    (err : option Err) (xml : Value) : M unit :=
  match err with
  | Some _ => callback err VNull    (* the status is null if no response could be retrieved *)
  | None =>
      let* s := get in
      match _rateLimitError s with
      | Some e => callback (Some e) (VString "rateLimited")
      | None =>
          match xml with
          | VBody b => read_capabilities b callback
          | _ => throw
          end
      end
  end.

(** [status(callback)]: [GET /api/capabilities], with the plain [fetch]. *)
Definition status (callback : Callback) : M unit :=
  let* s := get in
  effect (Fetch false GET_capabilities None
            (KStatus (_connectionID s) (StatusGotResult callback))).

(** The callback [reloadApiStatus] gives [status]. *)
Definition reloadedApiStatus (err : option Err) (status : Value) : M unit :=
  let* s := get in
  when bool_decide (jsid_of_value status ≠ _cachedApiStatus s) then
    modify (set_cachedApiStatus (jsid_of_value status)) >>>
    effect (EmitApiStatusChange err status).

Definition reloadApiStatus : M unit := status ReloadedApiStatus.

(** [this.throttledReloadApiStatus()]: the call is an effect; lodash's
    throttle decides when [reloadApiStatus] runs for it. *)
Definition throttledReloadApiStatus : M unit := effect ThrottledReloadApiStatus.

Definition authenticate (callback : option Callback) : M unit :=
  let* s := get in
  modify (set_userChangesets None) >>>
  modify (set_userDetails None) >>>
  effect (OauthAuthenticate (KAuthenticated (_connectionID s) callback)).

(** [done] of [authenticate] *)
Definition authenticate_done (cid : nat) (callback : option (option Err → Value → M unit))
    (err : option Err) (res : Value) : M unit :=
  let call err v := match callback with Some c => c err v | None => ret tt end in
  match err with
  | Some _ => call err VUndefined
  | None =>
      let* s := get in
      if decide (_connectionID s ≠ cid) then call (Some err_connection_switched) VUndefined
      else
        modify (set_rateLimitError None) >>>
        emit "authchange" >>>
        call err res >>>
        userChangesets noop    (* eagerly load user details/changesets *)
  end.

(** ** Invoking a closure *)

Fixpoint invoke (cb : Callback) (err : option Err) (v : Value) : M unit :=
  match cb with
  | UserCb n => effect (Invoke n err v)
  | Noop => ret tt
  | SendCreated cid changes callback =>
      sendChangeset_created cid changes {| fn_name := callback; fn_call := invoke callback |} err v
  | SendUploaded cid callback =>
      sendChangeset_uploaded cid {| fn_name := callback; fn_call := invoke callback |} err v
  | CreatedChangeset changeset callback => createdChangeset changeset (invoke callback) err v
  | UploadedChangeset changeset callback => uploadedChangeset changeset (invoke callback) err v
  | ClosedChangeset changeset callback => closedChangeset changeset (invoke callback) err v
  | GotTile tile callback =>
      gotTile tile (match callback with Some c => Some (invoke c) | None => None end) err v
  | NotesTileLoaded tile => notesTileLoaded tile err
  | LoadUsersGot callback => loadUsers_gotUsers (invoke callback) err v
  | LoadUserGot callback => loadUser_gotUsers (invoke callback) err v
  | UserDetailsGot callback => userDetails_gotUsers (invoke callback) err v
  | GotChangesets callback => gotChangesets (invoke callback) err v
  | GotUser callback => gotUser {| fn_name := callback; fn_call := invoke callback |} err v
  | StatusGotResult callback => status_gotResult (invoke callback) err v
  | ReloadedApiStatus => reloadedApiStatus err v
  end.

(** A callback as the methods take it. *)
Definition closure (cb : Callback) : Fn := {| fn_name := cb; fn_call := invoke cb |}.

(** [done] of [loadFromAPI] *)
Definition loadFromAPI_done (path : Path) (callback : option Callback) (options : Options)
    (cid : nat) (err : option Err) (results : Body) : M unit :=
  let* s := get in
  if decide (_connectionID s ≠ cid) then
    match callback with
    | Some cb => invoke cb (Some err_connection_switched) VUndefined
    | None => ret tt
    end
  else
    (* 400 Bad Request, 401 Unauthorized, 403 Forbidden: logout and retry the request.. *)
    let isAuthenticated := oauth_token s in
    if isAuthenticated && is_auth_failure err then
      logout >>>
      loadFromAPI path callback options >>>
      ret tt
    else    (* else, no retry.. *)
      (* 509 Bandwidth Limit Exceeded, 429 Too Many Requests:
         set the rateLimitError flag and trigger a warning.. *)
      (if negb isAuthenticated && negb (bool_decide (is_Some (_rateLimitError s)))
          && is_rate_limit err then
         modify (set_rateLimitError err) >>>
         emit "authchange" >>>
         throttledReloadApiStatus
       else if (bool_decide (is_Some err) && bool_decide (_cachedApiStatus s = Id "online"))
               || (negb (bool_decide (is_Some err))
                   && negb (bool_decide (_cachedApiStatus s = Id "online"))) then
         (* the response's error state doesn't match the status: reload the status *)
         throttledReloadApiStatus
       else ret tt) >>>
      match callback with
      | Some cb =>
          match err with
          | Some _ => invoke cb err VUndefined
          | None =>
              if path_is_json path then _parseJSON results (closure cb) options
              else _parseXML results (closure cb) options
          end
      | None => ret tt
      end.

(** The error a [catch] receives for a rejection that is not a
    [FetchError]. *)
Definition error_of (r : Response) : Err :=
  match r with
  | FetchError e => e
  | AbortError => {| err_message := "AbortError"; err_status := None |}
  | _ => type_error
  end.

(** What runs when the promise of a request settles with [r], when a timer
    fires, or when an idle callback is run (the last two take no response).
    [fuel] bounds the displacement loop of each note parsed. *)
Definition resume (fuel : nat) (k : Kont) (r : Response) : M unit :=
  match k with
  | KLoadFromAPI path callback options cid =>
      match r with
      | Fulfilled b =>
          (* an exception of [done] is neither an AbortError nor a FetchError *)
          catch (loadFromAPI_done path callback options cid None b) (ret tt)
      | FetchError e => loadFromAPI_done path callback options cid (Some e) BEmpty
      | AbortError | OtherError => ret tt
      end
  | KChangeset cid inner =>
      match r with
      | Fulfilled b =>
          catch (_wrapcb cid (invoke inner) None (VBody b)) (set_inflight None)
      | FetchError e =>
          set_inflight None >>>
          _wrapcb cid (invoke inner) (Some e) VUndefined
      | AbortError | OtherError => set_inflight None
      end
  | KStatus cid inner =>
      match r with
      | Fulfilled b =>
          catch (_wrapcb cid (invoke inner) None (VBody b))
                (_wrapcb cid (invoke inner) (Some type_error) VUndefined)
      | _ => _wrapcb cid (invoke inner) (Some (error_of r)) VUndefined
      end
  | KSendDone changeset callback => sendChangeset_done changeset (invoke callback)
  | KParseJSON handle payload callback options =>
      parseJSON_deferred handle payload (invoke callback) options
  | KParseXML handle children callback options =>
      parseXML_deferred fuel handle children (invoke callback) options
  | KAuthenticated cid callback =>
      let call := match callback with Some c => Some (invoke c) | None => None end in
      match r with
      | Fulfilled b =>
          modify (set_oauth_token true) >>>    (* osm-auth holds the token now *)
          authenticate_done cid call None (VBody b)
      | _ => authenticate_done cid call (Some (error_of r)) VUndefined
      end
  end.
End loading.

(** ** The event loop

    The world around the service: the requests on the network, the timers
    and idle callbacks armed, the authorisations under way, and the trace of
    all effects so far.  An event lets the service run: a method call, the
    settlement of a request, a timer, an idle callback, or the throttled
    reload of the API status. *)

Section world.
Context {N : JsNumber} {T : JsNumberText N} {H : Host N}.

Record Inflight := {
  rq_request : Request;
  rq_controller : option nat;
  rq_kont : Kont;
  rq_aborted : bool
}.

Record World := {
  service : Osm;
  network : list Inflight;
  timers : list Kont;
  idle : list Kont;
  authorising : list Kont;
  trace : list Effect
}.

Definition boot (s : Osm) : World :=
  {| service := s; network := []; timers := []; idle := []; authorising := []; trace := [] |}.

(** [controller.abort()]: the request it controls, if still on the network,
    will reject with an [AbortError]. *)
Definition abort_request (controller : nat) (rq : Inflight) : Inflight :=
  if bool_decide (rq_controller rq = Some controller)
  then {| rq_request := rq_request rq; rq_controller := rq_controller rq;
          rq_kont := rq_kont rq; rq_aborted := true |}
  else rq.

Definition absorb (w : World) (e : Effect) : World :=
  let w' (network : list Inflight) (timers idle authorising : list Kont) :=
    {| service := service w; network := network; timers := timers; idle := idle;
       authorising := authorising; trace := trace w ++ [e] |} in
  match e with
  | Fetch _ request controller k =>
      w' (network w ++ [{| rq_request := request; rq_controller := controller;
                           rq_kont := k; rq_aborted := false |}])
         (timers w) (idle w) (authorising w)
  | Abort controller =>
      w' (abort_request controller <$> network w) (timers w) (idle w) (authorising w)
  | SetTimeout k _ => w' (network w) (timers w ++ [k]) (idle w) (authorising w)
  | RequestIdleCallback _ k => w' (network w) (timers w) (idle w ++ [k]) (authorising w)
  | OauthAuthenticate k => w' (network w) (timers w) (idle w) (authorising w ++ [k])
  | _ => w' (network w) (timers w) (idle w) (authorising w)
  end.

(** Run a computation of the service in the world; [None] when it does not
    return within its fuel.  An exception ends the computation and is
    otherwise lost: none of the callers catches it. *)
Definition exec (m : M unit) (w : World) : option World :=
  match m (service w) with
  | (Diverged, _, _) => None
  | (_, s, es) =>
      Some (foldl absorb
              {| service := s; network := network w; timers := timers w; idle := idle w;
                 authorising := authorising w; trace := trace w |} es)
  end.

Inductive Event :=
| Call (m : M unit)                     (* a method is called *)
| Settle (i : nat) (r : Response)       (* the i-th request on the network settles *)
| Timer (i : nat)                       (* the i-th timer fires *)
| Idle (i : nat)                        (* the i-th idle callback runs *)
| Authorised (i : nat) (r : Response)   (* osm-auth is done with the i-th authorisation *)
| Throttled.                            (* the throttle runs reloadApiStatus *)

Definition step (fuel : nat) (w : World) (ev : Event) : option World :=
  match ev with
  | Call m => exec m w
  | Settle i r =>
      rq ← network w !! i;
      exec (resume fuel (rq_kont rq) (if rq_aborted rq then AbortError else r))
        {| service := service w; network := delete i (network w); timers := timers w;
           idle := idle w; authorising := authorising w; trace := trace w |}
  | Timer i =>
      k ← timers w !! i;
      exec (resume fuel k AbortError)
        {| service := service w; network := network w; timers := delete i (timers w);
           idle := idle w; authorising := authorising w; trace := trace w |}
  | Idle i =>
      k ← idle w !! i;
      exec (resume fuel k AbortError)
        {| service := service w; network := network w; timers := timers w;
           idle := delete i (idle w); authorising := authorising w; trace := trace w |}
  | Authorised i r =>
      k ← authorising w !! i;
      exec (resume fuel k r)
        {| service := service w; network := network w; timers := timers w;
           idle := idle w; authorising := delete i (authorising w); trace := trace w |}
  | Throttled => exec reloadApiStatus w
  end.

Fixpoint run (fuel : nat) (w : World) (evs : list Event) : option World :=
  match evs with
  | [] => Some w
  | ev :: rest => w' ← step fuel w ev; run fuel w' rest
  end.

(** The requests for the data of a tile that are on the network and not
    aborted. *)
Definition is_tile_request (id : string) (rq : Inflight) : bool :=
  negb (rq_aborted rq) &&
  match rq_kont rq with
  | KLoadFromAPI _ (Some (GotTile tile _)) _ _ => bool_decide (tile_id tile = id)
  | _ => false
  end.

Definition tile_requests (w : World) (id : string) : list Inflight :=
  filter (λ rq, is_tile_request id rq = true) (network w).
End world.

(** ** Fixed-point coordinates

    Coordinates as whole multiples of 1e-7 degree, the precision of the
    OpenStreetMap database, with [None] for NaN: arithmetic on them is
    exact.  [0.00001] is 100 units. *)

Definition fixed_leb (a b : option Z) : bool :=
  match a, b with
  | Some x, Some y => (x <=? y)%Z
  | _, _ => false
  end.

Definition fixed_add (a b : option Z) : option Z :=
  match a, b with
  | Some x, Some y => Some (x + y)%Z
  | _, _ => None
  end.

Definition FixedNumber : JsNumber :=
  {| num := option Z; num_leb := fixed_leb; num_add := fixed_add; epsilon := Some 100%Z |}.

(** The digits of a fraction, scaled to [places] places; digits beyond are
    dropped.  The count tells whether a digit was read. *)
Fixpoint read_fraction (places : nat) (s : string) (acc : Z) (count : nat) : Z * nat :=
  match places with
  | O => (acc, count)
  | S places' =>
      match s with
      | EmptyString => read_fraction places' s (10 * acc)%Z count
      | String c s' =>
          match digit_of c with
          | Some d => read_fraction places' s' (10 * acc + d)%Z (S count)
          | None => read_fraction places' EmptyString (10 * acc)%Z count
          end
      end
  end.

(** The digits of the integer part, and what follows them. *)
Fixpoint read_integer (s : string) (acc : Z) (count : nat) : Z * nat * string :=
  match s with
  | EmptyString => (acc, count, s)
  | String c s' =>
      match digit_of c with
      | Some d => read_integer s' (10 * acc + d)%Z (S count)
      | None => (acc, count, s)
      end
  end.

Definition fixed_unsigned (s : string) : option Z :=
  match read_integer s 0%Z 0 with
  | (whole, n, String c rest) =>
      if bool_decide (Ascii.nat_of_ascii c = 46) then    (* . *)
        match read_fraction 7 rest 0%Z 0 with
        | (fraction, m) =>
            if bool_decide (n + m = 0) then None else Some (whole * 10000000 + fraction)%Z
        end
      else if bool_decide (n = 0) then None else Some (whole * 10000000)%Z
  | (whole, n, EmptyString) =>
      if bool_decide (n = 0) then None else Some (whole * 10000000)%Z
  end.

(** [parseFloat] on decimal text without an exponent. *)
Definition fixed_parseFloat (s : string) : option Z :=
  match trim_start s with
  | EmptyString => None
  | String c s' =>
      if bool_decide (Ascii.nat_of_ascii c = 45) then Z.opp <$> fixed_unsigned s'        (* - *)
      else if bool_decide (Ascii.nat_of_ascii c = 43) then fixed_unsigned s'             (* + *)
      else fixed_unsigned (String c s')
  end.

Fixpoint zeros (n : nat) : string :=
  match n with O => "" | S n' => "0" +:+ zeros n' end.

Definition fixed_to_string (x : option Z) : string :=
  match x with
  | None => "NaN"
  | Some z =>
      let a := Z.abs z in
      let fraction := pretty (a `mod` 10000000)%Z in
      (if bool_decide (z < 0)%Z then "-" else "") +:+ pretty (a `div` 10000000)%Z +:+ "."
        +:+ zeros (7 - String.length fraction) +:+ fraction
  end.

Definition FixedNumberText : JsNumberText FixedNumber :=
  {| parseFloat := fixed_parseFloat : string → @num FixedNumber;
     num_to_string := fixed_to_string : @num FixedNumber → string |}.

(** A location and a tile in units of 1e-7 degree. *)
Definition fixed_loc (x y : Z) : @num FixedNumber * @num FixedNumber := (Some x, Some y).

Definition fixed_tile (id : string) (x0 y0 x1 y1 : Z) : Tile (N := FixedNumber) :=
  {| tile_id := id;
     wgs84Extent := {| ext_min := fixed_loc x0 y0; ext_max := fixed_loc x1 y1 |} |}.

(** A location in doubles. *)
Definition double_loc (x y : float) : @num DoubleNumber * @num DoubleNumber := (x, y).

(** A note with no other property than its id, as the index holds it. *)
Definition bare_note {N : JsNumber} (id : string) (loc : Vec2) : NoteItem :=
  _encodeNoteRtree {| note_loc := loc; note_props := {[ "id" := FText id ]} |}.

(** A node of a JSON payload with fixed-point coordinates. *)
Definition fixed_node (id : Z) (version : option Z) (lon lat : Z)
    (tags : option (gmap string string)) : JsonElement (N := FixedNumber) :=
  @Build_JsonElement FixedNumber "node" id None version None None None None
    (Some (Some lon)) (Some (Some lat)) tags None None.

(** A host where no location is blocked, every regular expression is
    accepted, and no text is JSON. *)
Definition plain_host (N : JsNumber) : Host N :=
  {| blocksAt := λ _, 0; RegExp_valid := λ _, true; JSON_parse := λ _, None |}.

(** * Properties *)

(** ** The guards of the changeset methods *)

Section changeset_guards.
Context {N : JsNumber} {T : JsNumberText N} {H : Host N}.

Lemma createChangeset_inflight (s : Osm) changeset callback :
  isChangesetInflight s = true →
  createChangeset changeset callback s = fn_call callback (Some err_inflight) VUndefined s.
Proof.
  intros Hin. unfold createChangeset, bind, get. rewrite Hin.
  destruct (fn_call callback _ _ s) as [[r s'] es]. reflexivity.
Qed.

Lemma createChangeset_unauthenticated (s : Osm) changeset callback :
  isChangesetInflight s = false → oauth_token s = false →
  createChangeset changeset callback s = fn_call callback (Some err_not_authenticated) VUndefined s.
Proof.
  intros Hin Hau. unfold createChangeset, bind, get. rewrite Hin, Hau. simpl.
  destruct (fn_call callback _ _ s) as [[r s'] es]. reflexivity.
Qed.

Lemma uploadChangeset_guard (s : Osm) changeset changes callback :
  uploadChangeset changeset changes callback s =
    if isChangesetInflight s then fn_call callback (Some err_inflight) VUndefined s
    else if negb (oauth_token s) then fn_call callback (Some err_not_authenticated) VUndefined s
    else if bool_decide (cs_id changeset ≠ openChangesetID (_changeset s))
    then fn_call callback (Some err_id_mismatch) VUndefined s
    else (Returned tt,
          set_changeset (set_cs_inflight (Some (next_controller s)) (_changeset s))
            (set_next_controller (S (next_controller s)) s),
          [Fetch true (POST_changeset_upload (cs_id changeset) changeset changes)
             (Some (next_controller s))
             (KChangeset (_connectionID s) (UploadedChangeset changeset (fn_name callback)))]).
Proof.
  unfold uploadChangeset, bind, get.
  destruct (isChangesetInflight s); [destruct (fn_call _ _ _ s) as [[??]?]; done|].
  destruct (negb (oauth_token s)); [destruct (fn_call _ _ _ s) as [[??]?]; done|].
  destruct (bool_decide _); [destruct (fn_call _ _ _ s) as [[??]?]; done|].
  reflexivity.
Qed.

Lemma closeChangeset_guard (s : Osm) changeset callback :
  closeChangeset changeset callback s =
    if isChangesetInflight s then fn_call callback (Some err_inflight) VUndefined s
    else if negb (oauth_token s) then fn_call callback (Some err_not_authenticated) VUndefined s
    else if bool_decide (cs_id changeset ≠ openChangesetID (_changeset s))
    then fn_call callback (Some err_id_mismatch) VUndefined s
    else (Returned tt,
          set_changeset (set_cs_inflight (Some (next_controller s)) (_changeset s))
            (set_next_controller (S (next_controller s)) s),
          [Fetch true (PUT_changeset_close (cs_id changeset)) (Some (next_controller s))
             (KChangeset (_connectionID s) (ClosedChangeset changeset (fn_name callback)))]).
Proof.
  unfold closeChangeset, bind, get.
  destruct (isChangesetInflight s); [destruct (fn_call _ _ _ s) as [[??]?]; done|].
  destruct (negb (oauth_token s)); [destruct (fn_call _ _ _ s) as [[??]?]; done|].
  destruct (bool_decide _); [destruct (fn_call _ _ _ s) as [[??]?]; done|].
  reflexivity.
Qed.

(** C2.  [createChangeset], [uploadChangeset] and [closeChangeset] check in
    this order: a changeset request in flight gives the callback an error of
    status -2; otherwise a client that is not authenticated gives it status
    -3; otherwise, for [uploadChangeset] and [closeChangeset], a changeset
    whose id differs from the open changeset ID gives it status -4.  In each
    case the callback is invoked once with the error alone, no request is
    issued, and the state of the service, the changeset state with it, is
    what it was. *)
Theorem changeset_guards_reject (s : Osm) (changeset : Changeset) (changes : string) (n : nat) :
  let rejected (e : Err) := (Returned tt, s, [Invoke n (Some e) VUndefined]) in
  (err_status err_inflight = Some (-2)%Z ∧
   err_status err_not_authenticated = Some (-3)%Z ∧
   err_status err_id_mismatch = Some (-4)%Z) ∧
  (isChangesetInflight s = true →
     createChangeset changeset (closure (UserCb n)) s = rejected err_inflight ∧
     uploadChangeset changeset changes (closure (UserCb n)) s = rejected err_inflight ∧
     closeChangeset changeset (closure (UserCb n)) s = rejected err_inflight) ∧
  (isChangesetInflight s = false → oauth_token s = false →
     createChangeset changeset (closure (UserCb n)) s = rejected err_not_authenticated ∧
     uploadChangeset changeset changes (closure (UserCb n)) s = rejected err_not_authenticated ∧
     closeChangeset changeset (closure (UserCb n)) s = rejected err_not_authenticated) ∧
  (isChangesetInflight s = false → oauth_token s = true →
     cs_id changeset ≠ openChangesetID (_changeset s) →
     uploadChangeset changeset changes (closure (UserCb n)) s = rejected err_id_mismatch ∧
     closeChangeset changeset (closure (UserCb n)) s = rejected err_id_mismatch).
Proof.
  intros rejected. split; [done|]. split; [|split].
  - intros Hin. rewrite createChangeset_inflight, uploadChangeset_guard, closeChangeset_guard by done.
    rewrite Hin. done.
  - intros Hin Hau.
    rewrite createChangeset_unauthenticated, uploadChangeset_guard, closeChangeset_guard by done.
    rewrite Hin, Hau. done.
  - intros Hin Hau Hne. rewrite uploadChangeset_guard, closeChangeset_guard.
    rewrite Hin, Hau. simpl. rewrite bool_decide_eq_true_2 by done. done.
Qed.
End changeset_guards.

(** The guards at work: a request in flight and no token (status -2), no
    token alone (status -3), a token and another changeset open (status -4). *)
Lemma changeset_guards_reject_witness :
  let s0 : Osm := initial (N := FixedNumber) in
  let s := set_changeset {| cs_inflight := Some 3; openChangesetID := Id "7" |} s0 in
  let c := {| cs_id := Id "8"; cs_content := "comment=survey" |} in
  let cb := closure (H := plain_host _) (UserCb 0) in
  closeChangeset c cb s = (Returned tt, s, [Invoke 0 (Some err_inflight) VUndefined]) ∧
  createChangeset c cb s0 = (Returned tt, s0, [Invoke 0 (Some err_not_authenticated) VUndefined]) ∧
  uploadChangeset c "changes" cb (set_oauth_token true s0)
    = (Returned tt, set_oauth_token true s0, [Invoke 0 (Some err_id_mismatch) VUndefined]).
Proof.
  intros s0 s c cb. split; [|split].
  - apply (changeset_guards_reject (H := plain_host _) s c "changes" 0). reflexivity.
  - apply (changeset_guards_reject (H := plain_host _) s0 c "changes" 0); reflexivity.
  - apply (changeset_guards_reject (H := plain_host _) (set_oauth_token true s0) c "changes" 0);
      [reflexivity..|discriminate].
Defined.

(** ** Tiles: what a completed request leaves in the cache *)

Section tiles_loaded.
Context {N : JsNumber} {T : JsNumberText N} {H : Host N}.

Lemma bind_get {A} (f : Osm → M A) (s : Osm) : bind get f s = f s s.
Proof. unfold bind, get. by destruct (f s s) as [[? ?] ?]. Qed.

(** A key reads what was set for it. *)
Lemma al_lookup_al_set_eq {V} (k : string) (v : V) (l : list (string * V)) :
  al_lookup k (al_set k v l) = Some v.
Proof.
  induction l as [|[k0 v0] l IH]; simpl; [by rewrite decide_True|].
  destruct (decide (k = k0)) as [->|Hne]; simpl; [by rewrite decide_True|].
  by rewrite decide_False.
Qed.

(** The loops of the deferred JSON parse return, log nothing, and touch the
    seen set and the user cache only. *)
Definition tiles_untouched (s s' : Osm) : Prop :=
  tc_loaded (_tileCache s') = tc_loaded (_tileCache s) ∧
  tc_rtree (_tileCache s') = tc_rtree (_tileCache s) ∧
  tc_inflight (_tileCache s') = tc_inflight (_tileCache s) ∧
  tc_toLoad (_tileCache s') = tc_toLoad (_tileCache s).

Lemma tiles_untouched_refl s : tiles_untouched s s.
Proof. done. Qed.

Lemma tiles_untouched_trans s1 s2 s3 :
  tiles_untouched s1 s2 → tiles_untouched s2 s3 → tiles_untouched s1 s3.
Proof. unfold tiles_untouched. intros (?&?&?&?) (?&?&?&?). repeat split; congruence. Qed.

Lemma parseJSON_elements_returns options elements results s :
  ∃ results' s', parseJSON_elements options elements results s = (Returned results', s', [])
                 ∧ tiles_untouched s s'.
Proof.
  revert results s. induction elements as [|element rest IH]; intros results s; simpl.
  - eexists _, _. split; [reflexivity|done].
  - destruct (json_parser (el_type element)) as [parser|]; [|apply IH].
    destruct (skipSeen options); [|apply IH].
    unfold bind, seen_has, gets at 1.
    destruct (bool_decide _).
    + destruct (IH (seenIDs_add (fromOSM (el_type element) (pretty (el_id element))) results) s)
        as (r' & s' & -> & Hs). eexists _, _. split; [reflexivity|done].
    + unfold seen_add, modify at 1.
      match goal with |- context [parseJSON_elements options rest ?r ?s0] =>
        destruct (IH r s0) as (r' & s' & -> & Hs) end.
      eexists _, _. split; [reflexivity|]. destruct Hs as (?&?&?&?). done.
Qed.

Lemma parseJSON_users_returns options users results s :
  ∃ results' s', parseJSON_users options users results s = (Returned results', s', [])
                 ∧ tiles_untouched s s'.
Proof.
  revert results s. induction users as [|user rest IH]; intros results s; simpl.
  - eexists _, _. split; [reflexivity|done].
  - destruct (pretty <$> ju_id user) as [uid|]; [|apply IH].
    unfold bind, toLoad_delete, modify at 1. unfold user_cached, gets at 1.
    match goal with |- context [if ?b then _ else _] => destruct b end.
    + match goal with |- context [parseJSON_users options rest ?r ?s0] =>
        destruct (IH r s0) as (r' & s' & -> & Hs) end.
      eexists _, _. split; [reflexivity|]. destruct Hs as (?&?&?&?). done.
    + unfold user_store, modify at 1.
      match goal with |- context [parseJSON_users options rest ?r ?s0] =>
        destruct (IH r s0) as (r' & s' & -> & Hs) end.
      eexists _, _. split; [reflexivity|]. destruct Hs as (?&?&?&?). done.
Qed.

(** A box holds the locations of its extent. *)
Lemma intersects_contained (e : Extent) (loc : Vec2) :
  Extent_contains e loc = true →
  intersects (Extent_bbox (Extent_at loc)) (Extent_bbox e) = true.
Proof.
  unfold Extent_contains, intersects. simpl.
  rewrite !andb_true_iff. intros [[[-> ->] ->] ->]. done.
Qed.
End tiles_loaded.

Section tile_completion.
Context {N : JsNumber} {T : JsNumberText N} {H : Host N}.

(** [gotTile] without an error, on any state. *)
Lemma gotTile_success (tile : Tile) (cb : option nat) (results : Value) (s : Osm) :
  ∃ s' es,
    invoke (GotTile tile (UserCb <$> cb)) None results s = (Returned tt, s', es) ∧
    tile_id tile ∈ tc_loaded (_tileCache s') ∧
    tc_rtree (_tileCache s')
      = {| tb_box := Extent_bbox (wgs84Extent tile); tb_id := tile_id tile |}
          :: tc_rtree (_tileCache s).
Proof.
  destruct cb as [n|]; simpl; unfold gotTile, bind, set_tile_inflight, modify, get, effect; simpl;
    match goal with |- context [if ?b then _ else _] => destruct b end;
    eexists _, _; (split; [reflexivity|]); simpl; (split; [set_solver|done]).
Qed.

(** [gotTile] with an error, on any state. *)
Lemma gotTile_error (tile : Tile) (cb : option nat) (e : Err) (v : Value) (s : Osm) :
  ∃ s' es,
    invoke (GotTile tile (UserCb <$> cb)) (Some e) v s = (Returned tt, s', es) ∧
    tc_loaded (_tileCache s') = tc_loaded (_tileCache s) ∧
    tc_rtree (_tileCache s') = tc_rtree (_tileCache s).
Proof.
  destruct cb as [n|]; simpl; unfold gotTile, bind, set_tile_inflight, modify, get, effect; simpl;
    match goal with |- context [if ?b then _ else _] => destruct b end;
    eexists _, _; (split; [reflexivity|]); simpl; done.
Qed.

(** A request for a tile that settles with anything but a payload leaves
    the set of loaded tiles and the spatial index as they are. *)
Lemma tile_request_failed (fuel : nat) (tile : Tile) (cb : option nat) (path : Path)
    (options : Options) (cid : nat) (r : Response) out (s s' : Osm) es :
  (∀ b, r ≠ Fulfilled b) →
  resume fuel (KLoadFromAPI path (Some (GotTile tile (UserCb <$> cb))) options cid) r s
    = (out, s', es) →
  tc_loaded (_tileCache s') = tc_loaded (_tileCache s) ∧
  tc_rtree (_tileCache s') = tc_rtree (_tileCache s).
Proof.
  intros Hr. simpl.
  destruct r as [b| e | |]; [by destruct (Hr b)| | |]; [|intros [= <- <- <-]; done..].
  unfold loadFromAPI_done, bind, get.
  destruct (decide (_connectionID s ≠ cid)).
  { destruct (gotTile_error tile cb err_connection_switched VUndefined s) as (s1 & es1 & Hgot & ?).
    rewrite Hgot. intros [= <- <- <-]. done. }
  destruct (oauth_token s && is_auth_failure (Some e)).
  { unfold logout, loadFromAPI, bind, get, modify, effect, emit, new_AbortController; simpl.
    intros [= <- <- <-]. done. }
  match goal with |- context [if ?b then _ else _] => destruct b end.
  + unfold modify, emit, effect, throttledReloadApiStatus; simpl.
    match goal with |- context [gotTile tile ?c (Some e) ?v ?s0] =>
      destruct (gotTile_error tile cb e v s0) as (s1 & es1 & Hgot & ?) end.
    simpl in Hgot. destruct cb; simpl in *; rewrite Hgot; intros [= <- <- <-]; done.
  + match goal with |- context [if ?b then _ else _] => destruct b end;
      unfold throttledReloadApiStatus, effect, ret; simpl;
      destruct (gotTile_error tile cb e VUndefined s) as (s1 & es1 & Hgot & ?);
      simpl in Hgot; destruct cb; simpl in *; rewrite Hgot; intros [= <- <- <-]; done.
Qed.

(** The idle callback of [_parseJSON] for the payload of a tile: the
    results go to [gotTile], which marks the tile loaded and inserts its
    box. *)
Lemma tile_payload_parsed (fuel : nat) (tile : Tile) (cb : option nat) (handle : nat)
    (payload : JsonPayload) (options : Options) (r : Response) (s : Osm) :
  ∃ s' es,
    resume fuel (KParseJSON handle payload (GotTile tile (UserCb <$> cb)) options) r s
      = (Returned tt, s', es) ∧
    tile_id tile ∈ tc_loaded (_tileCache s') ∧
    tc_rtree (_tileCache s')
      = {| tb_box := Extent_bbox (wgs84Extent tile); tb_id := tile_id tile |}
          :: tc_rtree (_tileCache s) ∧
    ∀ loc, Extent_contains (wgs84Extent tile) loc = true → isDataLoaded s' loc = true.
Proof.
  simpl.
  unfold parseJSON_deferred, bind, deferred_delete, modify at 1.
  match goal with |- context [parseJSON_elements ?o ?e ?r0 ?s0] =>
    destruct (parseJSON_elements_returns o e r0 s0) as (r1 & s1 & -> & Hs1) end.
  match goal with |- context [parseJSON_users ?o ?u ?r0 ?s0] =>
    destruct (parseJSON_users_returns o u r0 s0) as (r2 & s2 & -> & Hs2) end.
  match goal with |- context [gotTile tile ?c None ?v s2] =>
    destruct (gotTile_success tile cb v s2) as (s' & es & Hgot & Hloaded & Hrtree) end.
  simpl in Hgot. destruct cb; simpl in *; rewrite Hgot;
    (eexists _, _; split; [reflexivity|]);
    destruct Hs1 as (_ & Hr1 & _), Hs2 as (_ & Hr2 & _); simpl in *;
    (split; [done|]); (split; [by rewrite Hrtree, Hr2, Hr1|]);
    intros loc Hloc; unfold isDataLoaded; rewrite Hrtree; simpl;
    by rewrite intersects_contained.
Qed.

(** C8.  [loadTile], for a tile that is neither loaded, nor in flight, nor
    blocked, sends the request for the tile and records it as in flight,
    the tile not being marked loaded yet.  When the payload of that request
    arrives, the connection being the one it was sent on, [done] hands it
    to [_parseJSON], which defers the parse to an idle callback, the set of
    loaded tiles and the spatial index still as they were.  When that idle
    callback runs, the parse hands the results to [gotTile]: the tile is
    marked loaded and its bounding box, tagged with the tile's id, is
    inserted into the spatial index of the tile cache, so that
    [isDataLoaded(loc)] is true for every location inside the tile's
    extent.  When the request fails, [gotTile] receiving an error or the
    request settling with anything but a payload, the set of loaded tiles
    and the spatial index stay as they are. *)
Theorem tile_loaded_when_request_completes
    (fuel : nat) (tile : Tile) (cb : option nat) (s : Osm) :
  let callback := GotTile tile (UserCb <$> cb) in
  let box := {| tb_box := Extent_bbox (wgs84Extent tile); tb_id := tile_id tile |} in
  (∀ handle payload options r, ∃ s' es,
     resume fuel (KParseJSON handle payload callback options) r s = (Returned tt, s', es) ∧
     tile_id tile ∈ tc_loaded (_tileCache s') ∧
     tc_rtree (_tileCache s') = box :: tc_rtree (_tileCache s) ∧
     ∀ loc, Extent_contains (wgs84Extent tile) loc = true → isDataLoaded s' loc = true) ∧
  (∀ e v, ∃ s' es,
     invoke callback (Some e) v s = (Returned tt, s', es) ∧
     tc_loaded (_tileCache s') = tc_loaded (_tileCache s) ∧
     tc_rtree (_tileCache s') = tc_rtree (_tileCache s)) ∧
  (∀ path options cid r out s' es,
     (∀ b, r ≠ Fulfilled b) →
     resume fuel (KLoadFromAPI path (Some callback) options cid) r s = (out, s', es) →
     tc_loaded (_tileCache s') = tc_loaded (_tileCache s) ∧
     tc_rtree (_tileCache s') = tc_rtree (_tileCache s)) ∧
  (* from the call of [loadTile] to the tile marked loaded *)
  (_off s = false →
   tile_id tile ∉ tc_loaded (_tileCache s) →
   al_has (tile_id tile) (tc_inflight (_tileCache s)) = false →
   tileBlocked tile = false →
   let path := PathMap (wgs84Extent tile) in
   let options := {| skipSeen := true |} in
   let request := KLoadFromAPI path (Some callback) options (_connectionID s) in
   ∃ s1 es1,
     (* the request is sent *)
     loadTile tile (UserCb <$> cb) s
       = (Returned tt, s1,
          es1 ++ [Fetch (oauth_token s) (GET path) (Some (next_controller s)) request]) ∧
     (es1 = [] ∨ es1 = [Emit "loading"]) ∧
     _connectionID s1 = _connectionID s ∧
     al_lookup (tile_id tile) (tc_inflight (_tileCache s1)) = Some (next_controller s) ∧
     tc_loaded (_tileCache s1) = tc_loaded (_tileCache s) ∧
     tc_rtree (_tileCache s1) = tc_rtree (_tileCache s) ∧
     (* its payload arrives: the parse is deferred *)
     (∀ payload s2,
        _connectionID s2 = _connectionID s →
        existsb (λ el, bool_decide (el_type el = "error")) (json_elements payload) = false →
        let parse := KParseJSON (next_handle s2) payload callback options in
        ∃ s3 es3,
          resume fuel request (Fulfilled (BJson payload)) s2
            = (Returned tt, s3, es3 ++ [RequestIdleCallback (next_handle s2) parse]) ∧
          (es3 = [] ∨ es3 = [ThrottledReloadApiStatus]) ∧
          tc_loaded (_tileCache s3) = tc_loaded (_tileCache s2) ∧
          tc_rtree (_tileCache s3) = tc_rtree (_tileCache s2) ∧
          (* the deferred parse runs: the tile is loaded *)
          (∀ r s4, ∃ s5 es5,
             resume fuel parse r s4 = (Returned tt, s5, es5) ∧
             tile_id tile ∈ tc_loaded (_tileCache s5) ∧
             tc_rtree (_tileCache s5) = box :: tc_rtree (_tileCache s4) ∧
             ∀ loc, Extent_contains (wgs84Extent tile) loc = true →
                    isDataLoaded s5 loc = true)) ∧
     (* or the request fails *)
     (∀ r s2 out s3 es3,
        (∀ b, r ≠ Fulfilled b) →
        resume fuel request r s2 = (out, s3, es3) →
        tc_loaded (_tileCache s3) = tc_loaded (_tileCache s2) ∧
        tc_rtree (_tileCache s3) = tc_rtree (_tileCache s2))).
Proof.
  intros callback box. split; [|split; [|split]].
  - intros handle payload options r.
    apply (tile_payload_parsed fuel tile cb handle payload options r s).
  - intros e v. apply gotTile_error.
  - intros path options cid r out s' es. apply tile_request_failed.
  - intros Hon Hloaded Hinflight Hblocked path options request.
    assert (Hsent : ∃ s1 es1,
              loadTile tile (UserCb <$> cb) s
                = (Returned tt, s1,
                   es1 ++ [Fetch (oauth_token s) (GET path) (Some (next_controller s)) request]) ∧
              (es1 = [] ∨ es1 = [Emit "loading"]) ∧
              _connectionID s1 = _connectionID s ∧
              al_lookup (tile_id tile) (tc_inflight (_tileCache s1)) = Some (next_controller s) ∧
              tc_loaded (_tileCache s1) = tc_loaded (_tileCache s) ∧
              tc_rtree (_tileCache s1) = tc_rtree (_tileCache s)).
    { unfold loadTile. rewrite bind_get, Hon, Hinflight, Hblocked.
      rewrite bool_decide_eq_false_2 by done. simpl.
      unfold bind, loadFromAPI, bind, get, new_AbortController, bind, get, modify, effect, ret,
        set_tile_inflight, modify, emit, effect.
      destruct (negb (_hasInflightRequests (tc_inflight (_tileCache s)))); simpl.
      - exists (set_tileCache
                  (set_tc_inflight
                     (al_set (tile_id tile) (next_controller s) (tc_inflight (_tileCache s)))
                     (_tileCache s))
                  (set_next_controller (S (next_controller s)) s)), [Emit "loading"].
        split; [reflexivity|]. split; [by right|]. split; [done|].
        split; [apply al_lookup_al_set_eq|done].
      - exists (set_tileCache
                  (set_tc_inflight
                     (al_set (tile_id tile) (next_controller s) (tc_inflight (_tileCache s)))
                     (_tileCache s))
                  (set_next_controller (S (next_controller s)) s)), [].
        split; [reflexivity|]. split; [by left|]. split; [done|].
        split; [apply al_lookup_al_set_eq|done]. }
    destruct Hsent as (s1 & es1 & Hrun & Hes1 & Hcid & Hin & Hl & Hr).
    exists s1, es1. do 6 (split; [done|]). split.
    + intros payload s2 Hsame Hok parse. simpl.
      unfold catch, loadFromAPI_done. rewrite bind_get.
      destruct (decide (_connectionID s2 ≠ _connectionID s)) as [|_]; [done|].
      rewrite andb_false_r.
      unfold _parseJSON. simpl. rewrite Hok.
      unfold requestIdleCallback, bind, get, modify, effect, throttledReloadApiStatus, effect, ret.
      simpl. rewrite !andb_false_r. simpl.
      destruct (negb (bool_decide (_cachedApiStatus s2 = Id "online"))); simpl;
        eexists _, _; (split; [reflexivity + (by instantiate (1 := [ThrottledReloadApiStatus]))
                                  + (by instantiate (1 := []))|]).
      * split; [by right|]. do 2 (split; [done|]). intros r s4.
        apply (tile_payload_parsed fuel tile cb (next_handle s2) payload options r s4).
      * split; [by left|]. do 2 (split; [done|]). intros r s4.
        apply (tile_payload_parsed fuel tile cb (next_handle s2) payload options r s4).
    + intros r s2 out s3 es3. apply tile_request_failed.
Qed.
End tile_completion.

(** [loadTile] on the initial state for a tile of one square of 0.0001
    degree, the payload of its request, a single node, and the idle
    callback that parses it: afterwards the data at the middle of the tile
    counts as loaded. *)
Lemma tile_loaded_when_request_completes_witness :
  let tile := fixed_tile "35241,21480,16" 0 0 1000 1000 in
  let payload :=
    {| json_elements := [fixed_node 1 (Some 1%Z) 500 500 None];
       json_user := None; json_users := None; json_changesets := [] |} in
  let request :=
    KLoadFromAPI (PathMap (wgs84Extent tile)) (Some (GotTile tile (Some (UserCb 0))))
      {| skipSeen := true |} 0 in
  ∃ s1 es1 s3 es3 s5 es5,
    loadTile (H := plain_host _) tile (Some (UserCb 0)) initial
      = (Returned tt, s1,
         es1 ++ [Fetch false (GET (PathMap (wgs84Extent tile))) (Some 0) request]) ∧
    resume (T := FixedNumberText) (H := plain_host _) 0 request (Fulfilled (BJson payload)) s1
      = (Returned tt, s3,
         es3 ++ [RequestIdleCallback (next_handle s1)
                   (KParseJSON (next_handle s1) payload (GotTile tile (Some (UserCb 0)))
                      {| skipSeen := true |})]) ∧
    resume (T := FixedNumberText) (H := plain_host _) 0
      (KParseJSON (next_handle s1) payload (GotTile tile (Some (UserCb 0))) {| skipSeen := true |})
      AbortError s3 = (Returned tt, s5, es5) ∧
    isDataLoaded s5 (fixed_loc 500 500) = true.
Proof.
  intros tile payload request.
  destruct (tile_loaded_when_request_completes (T := FixedNumberText) (H := plain_host _)
              0 tile (Some 0) initial) as (_ & _ & _ & Hrun).
  destruct Hrun as (s1 & es1 & Hsent & _ & Hcid & _ & _ & _ & Hpayload & _);
    [reflexivity|set_solver|reflexivity|reflexivity|].
  destruct (Hpayload payload s1 Hcid eq_refl) as (s3 & es3 & Hdone & _ & _ & _ & Hparse).
  destruct (Hparse AbortError s3) as (s5 & es5 & Hidle & _ & _ & Hloc).
  exists s1, es1, s3, es3, s5, es5.
  split; [exact Hsent|]. split; [exact Hdone|]. split; [exact Hidle|].
  apply Hloc. reflexivity.
Defined.

(** ** Users: the cache is served first *)

Section chunks.
Context {A : Type} `{EqDecision A}.

Lemma chunks_concat (n : nat) (k : nat) (l : list A) :
  length l ≤ k * n →
  concat ((λ i, take n (drop (i * n) l)) <$> seq 0 k) = l.
Proof.
  revert l. induction k as [|k IH]; intros l Hlen.
  - simpl in *. destruct l; [done|simpl in Hlen; lia].
  - rewrite <- cons_seq, <- fmap_S_seq. simpl.
    rewrite <- list_fmap_compose.
    transitivity (take n l ++ drop n l); [|apply take_drop].
    f_equal.
    rewrite <- (IH (drop n l)) by (rewrite length_drop; lia).
    f_equal. apply list_fmap_ext. intros _ i _. simpl.
    by rewrite drop_drop, (Nat.add_comm n).
Qed.

Lemma utilArrayChunk_concat (l : list A) (n : nat) :
  concat (utilArrayChunk l n) = l.
Proof.
  destruct n as [|n]; [by simpl; rewrite app_nil_r|].
  unfold utilArrayChunk. apply chunks_concat.
  pose proof (Nat.div_mod_eq (length l + S n - 1) (S n)) as Hdiv.
  pose proof (Nat.mod_upper_bound (length l + S n - 1) (S n) ltac:(lia)).
  rewrite Nat.mul_comm. lia.
Qed.

Lemma utilArrayChunk_sizes (l : list A) (n : nat) :
  0 < n → Forall (λ arr, 0 < length arr ≤ n) (utilArrayChunk l n).
Proof.
  intros Hn. destruct n as [|n]; [lia|]. unfold utilArrayChunk.
  apply Forall_fmap, Forall_forall. intros i Hi%elem_of_seq. unfold compose.
  rewrite length_take, length_drop.
  pose proof (Nat.div_mod_eq (length l + S n - 1) (S n)) as Hdiv.
  pose proof (Nat.mod_upper_bound (length l + S n - 1) (S n) ltac:(lia)).
  destruct Hi as [_ Hi]. rewrite Nat.add_0_l in Hi.
  assert (S n * S i ≤ S n * ((length l + S n - 1) `div` S n)) by (apply Nat.mul_le_mono_l; lia).
  assert (i * S n < length l) by lia. lia.
Qed.

Lemma uniq_from_spec (seen l : list A) (x : A) :
  x ∈ uniq_from seen l ↔ x ∈ l ∧ x ∉ seen.
Proof.
  revert seen. induction l as [|y l IH]; intros seen; simpl.
  - set_solver.
  - destruct (decide (y ∈ seen)).
    + rewrite IH. set_solver.
    + rewrite elem_of_cons, IH. split.
      * intros [->|[? ?]]; set_solver.
      * intros [[->|?]%elem_of_cons ?]; [by left|].
        destruct (decide (x = y)) as [->|]; [by left|right; set_solver].
Qed.

Lemma utilArrayUniq_elem (l : list A) (x : A) : x ∈ utilArrayUniq l ↔ x ∈ l.
Proof. unfold utilArrayUniq. rewrite uniq_from_spec. set_solver. Qed.
End chunks.

Section users.
Context {N : JsNumber} {T : JsNumberText N} {H : Host N}.

(** The request [loadUsers] issues for the [i]-th chunk. *)
Definition users_request (s : Osm) (n : nat) (i : nat) (arr : list string) : Effect :=
  Fetch (oauth_token s) (GET (PathUsers (join arr))) (Some (next_controller s + i))
    (KLoadFromAPI (PathUsers (join arr)) (Some (LoadUsersGot (UserCb n)))
       {| skipSeen := true |} (_connectionID s)).

Lemma loadUsers_split_spec (ids : list string) (s : Osm) :
  ∃ toLoad',
    loadUsers_split ids s =
      (Returned (filter (λ uid, uc_user (_userCache s) !! uid = None) ids,
                 omap (λ uid, uc_user (_userCache s) !! uid) ids),
       set_userCache (set_uc_toLoad toLoad' (_userCache s)) s, []).
Proof.
  revert s. induction ids as [|uid rest IH]; intros s; simpl.
  - exists (uc_toLoad (_userCache s)). unfold ret. by destruct s as [? ? ? ? []].
  - unfold bind, get at 1.
    destruct (uc_user (_userCache s) !! uid) as [user|] eqn:Huser.
    + unfold toLoad_delete, modify at 1.
      match goal with |- context [loadUsers_split rest ?s0] =>
        destruct (IH s0) as [toLoad' ->] end.
      exists toLoad'. unfold ret. simpl. rewrite filter_cons, Huser.
      case_decide; [done|]. reflexivity.
    + destruct (IH s) as [toLoad' ->]. exists toLoad'. unfold ret. simpl.
      rewrite filter_cons, Huser. case_decide; [|done]. reflexivity.
Qed.

Lemma loadUsers_request_spec (chunks : list (list string)) (n : nat) (s : Osm) :
  loadUsers_request chunks (UserCb n) s =
    (Returned tt, set_next_controller (next_controller s + length chunks) s,
     imap (users_request s n) chunks).
Proof.
  revert s. induction chunks as [|arr rest IH]; intros s; simpl.
  - unfold ret. rewrite Nat.add_0_r. by destruct s.
  - unfold bind, loadFromAPI, bind, get, new_AbortController, bind, get, modify, effect, ret.
    simpl. rewrite IH. simpl. rewrite Nat.add_succ_r. f_equal.
    unfold users_request at 2. rewrite Nat.add_0_r. f_equal.
    apply imap_ext. intros i arr' _. unfold users_request. simpl.
    by rewrite Nat.add_succ_r.
Qed.

(** C9.  [loadUsers] answers from the user cache first.  With [ids] the
    distinct ids asked for, it invokes the callback with the cached records
    of [ids] whenever one of them is cached or the client is not
    authenticated; it then issues, and only when the client is authenticated,
    one request per chunk of the ids that are not cached, in chunks of at
    most 150 ids that together are exactly those ids; an id that is in the
    user cache is in none of the requests.  The user cache keeps its
    records. *)
Theorem loadUsers_serves_cache (uids : list string) (n : nat) (s : Osm) :
  let users := uc_user (_userCache s) in
  let ids := utilArrayUniq uids in
  let cached := omap (λ uid, users !! uid) ids in
  let toLoad := filter (λ uid, users !! uid = None) ids in
  let chunks := utilArrayChunk toLoad 150 in
  (∃ s',
     loadUsers uids (closure (UserCb n)) s =
       (Returned tt, s',
        (if negb (bool_decide (cached = [])) || negb (oauth_token s)
         then [Invoke n None (VData (DUser <$> cached))] else [])
        ++ (if oauth_token s then imap (users_request s n) chunks else [])) ∧
     uc_user (_userCache s') = users) ∧
  concat chunks = toLoad ∧
  Forall (λ arr, 0 < length arr ≤ 150) chunks ∧
  (∀ uid, uid ∈ toLoad ↔ uid ∈ uids ∧ users !! uid = None).
Proof.
  intros users ids cached toLoad chunks.
  split; [|split; [apply utilArrayChunk_concat|split; [apply utilArrayChunk_sizes; lia|]]].
  - unfold loadUsers, bind.
    destruct (loadUsers_split_spec ids s) as [toLoad' Hsplit].
    unfold ids in Hsplit. rewrite Hsplit. simpl.
    fold users. fold ids. fold cached. fold toLoad. fold chunks.
    unfold authenticated, gets. simpl.
    assert (Himap : imap (users_request
                            (set_userCache (set_uc_toLoad toLoad' (_userCache s)) s) n) chunks
                    = imap (users_request s n) chunks) by (by apply imap_ext).
    destruct (negb (bool_decide (cached = [])) || negb (oauth_token s)) eqn:Hcb.
    + unfold effect. simpl. destruct (oauth_token s) eqn:Hau; simpl.
      * rewrite loadUsers_request_spec, Himap. simpl. eexists. split; [reflexivity|done].
      * eexists. split; [reflexivity|done].
    + apply orb_false_iff in Hcb as [_ Hau%negb_false_iff].
      rewrite loadUsers_request_spec, Himap, Hau. simpl. eexists. split; [reflexivity|done].
  - intros uid. unfold toLoad. rewrite list_elem_of_filter. unfold ids.
    rewrite utilArrayUniq_elem. tauto.
Qed.
End users.

(** ** Parsing a payload again *)

Section reparse.
Context {N : JsNumber} {T : JsNumberText N} {H : Host N}.

(** The ids [_parseJSON] gives the elements it has a parser for. *)
Definition json_uids (elements : list JsonElement) : list string :=
  omap (λ element, match json_parser (el_type element) with
                   | Some _ => Some (fromOSM (el_type element) (pretty (el_id element)))
                   | None => None
                   end) elements.

Definition entities (r : Results) : list Datum := filter (λ d, is_entity d = true) (data r).

Lemma entities_push_other (d : Datum) (r : Results) :
  is_entity d = false → entities (data_push d r) = entities r.
Proof.
  intros Hd. unfold entities, data_push. simpl. rewrite filter_app, filter_cons, Hd.
  case_decide; [done|]. by rewrite filter_nil, app_nil_r.
Qed.

(** After the loop over the elements with [skipSeen], every element parsed or
    skipped is in the seen set, which has only grown. *)
Lemma parseJSON_elements_marks (elements : list JsonElement) (results : Results) (s : Osm) :
  ∃ results' s',
    parseJSON_elements {| skipSeen := true |} elements results s = (Returned results', s', []) ∧
    tc_seen (_tileCache s) ⊆ tc_seen (_tileCache s') ∧
    ∀ uid, uid ∈ json_uids elements → uid ∈ tc_seen (_tileCache s').
Proof.
  revert results s. induction elements as [|element rest IH]; intros results s; simpl.
  - eexists _, _. split; [reflexivity|]. split; [done|]. unfold json_uids. simpl. set_solver.
  - unfold json_uids. simpl. fold (json_uids rest).
    destruct (json_parser (el_type element)) as [parser|]; [|apply IH].
    unfold bind, seen_has, gets at 1.
    destruct (bool_decide _) eqn:Hseen.
    + apply bool_decide_eq_true in Hseen.
      match goal with |- context [parseJSON_elements _ rest ?r ?s0] =>
        destruct (IH r s0) as (r' & s' & -> & Hsub & Hall) end.
      eexists _, _. split; [reflexivity|]. split; [done|]. set_solver.
    + unfold seen_add, modify at 1.
      match goal with |- context [parseJSON_elements _ rest ?r ?s0] =>
        destruct (IH r s0) as (r' & s' & -> & Hsub & Hall) end.
      simpl in Hsub. eexists _, _. split; [reflexivity|]. split; set_solver.
Qed.

(** On a state whose seen set holds the ids of all elements, the loop adds
    nothing to the data and leaves the state as it is. *)
Lemma parseJSON_elements_seen (elements : list JsonElement) (results : Results) (s : Osm) :
  (∀ uid, uid ∈ json_uids elements → uid ∈ tc_seen (_tileCache s)) →
  ∃ results',
    parseJSON_elements {| skipSeen := true |} elements results s = (Returned results', s, []) ∧
    data results' = data results.
Proof.
  revert results. induction elements as [|element rest IH]; intros results Hall; simpl.
  - by eexists.
  - unfold json_uids in Hall. simpl in Hall. fold (json_uids rest) in Hall.
    destruct (json_parser (el_type element)) as [parser|]; [|by apply IH].
    unfold bind, seen_has, gets at 1.
    rewrite bool_decide_eq_true_2 by set_solver.
    match goal with |- context [parseJSON_elements _ rest ?r s] =>
      destruct (IH r) as (r' & -> & Hdata); [set_solver|] end.
    eexists. split; [reflexivity|done].
Qed.

Lemma entities_push_entity (e : Entity) (r : Results) :
  entities (data_push (DEntity e) r) = entities r ++ [DEntity e].
Proof.
  unfold entities, data_push. simpl. rewrite filter_app. f_equal.
Qed.

(** What a loop with [skipSeen] does with the entities of ids [uids], in the
    order of the payload, [parsed uid d] saying that [d] is the parse of an
    element of the payload with the id [uid]: the seen set grows by the ids;
    what the loop adds to the data was parsed from an element whose id was
    not in the seen set; it removes nothing; and every id that was not in
    the seen set has an entity in the data. *)
Definition skips (uids : list string) (parsed : string → Datum → Prop)
    (seen seen' : gset string) (before after : list Datum) : Prop :=
  seen' = seen ∪ list_to_set uids ∧
  (∀ d, d ∈ after → d ∈ before ∨ ∃ uid, (uid ∉ seen) ∧ parsed uid d) ∧
  (∀ d, d ∈ before → d ∈ after) ∧
  (∀ uid, uid ∈ uids → uid ∉ seen → ∃ d, d ∈ after ∧ parsed uid d).

Lemma skips_nil parsed seen before : skips [] parsed seen seen before before.
Proof. split; [set_solver|]. split; [by left|]. split; [done|]. set_solver. Qed.

(** An element that is no entity. *)
Lemma skips_other uids (parsed parsed' : string → Datum → Prop) seen seen' before after :
  (∀ uid d, parsed uid d → parsed' uid d) →
  skips uids parsed seen seen' before after →
  skips uids parsed' seen seen' before after.
Proof.
  intros Hsub (Hseen & Hnew & Hold & Hall). split; [done|]. split; [|split; [done|]].
  - intros d Hd. destruct (Hnew d Hd) as [?|(uid & ? & ?)]; [by left|].
    right. exists uid. split; [done|by apply Hsub].
  - intros uid Hin Hfresh. destruct (Hall uid Hin Hfresh) as (d & ? & ?).
    exists d. split; [done|by apply Hsub].
Qed.

(** An entity whose id is in the seen set. *)
Lemma skips_seen uid0 uids (parsed parsed' : string → Datum → Prop) seen seen' before after :
  (∀ uid d, parsed uid d → parsed' uid d) →
  uid0 ∈ seen →
  skips uids parsed seen seen' before after →
  skips (uid0 :: uids) parsed' seen seen' before after.
Proof.
  intros Hsub Hin (Hseen & Hnew & Hold & Hall). split; [set_solver|]. split; [|split; [done|]].
  - intros d Hd. destruct (Hnew d Hd) as [?|(uid & ? & ?)]; [by left|].
    right. exists uid. split; [done|by apply Hsub].
  - intros uid Huid Hfresh. apply elem_of_cons in Huid as [->|Huid]; [done|].
    destruct (Hall uid Huid Hfresh) as (d & ? & ?). exists d. split; [done|by apply Hsub].
Qed.

(** An entity whose id is not in the seen set. *)
Lemma skips_parsed uid0 d0 uids (parsed parsed' : string → Datum → Prop)
    seen seen' before after :
  (∀ uid d, parsed uid d → parsed' uid d) →
  uid0 ∉ seen →
  parsed' uid0 d0 →
  skips uids parsed ({[uid0]} ∪ seen) seen' (before ++ [d0]) after →
  skips (uid0 :: uids) parsed' seen seen' before after.
Proof.
  intros Hsub Hfresh0 Hd0 (Hseen & Hnew & Hold & Hall).
  split; [set_solver|]. split; [|split].
  - intros d Hd. destruct (Hnew d Hd) as [Hin|(uid & Huid & ?)].
    + apply elem_of_app in Hin as [?|Hin]; [by left|].
      apply list_elem_of_singleton in Hin as ->. right. by exists uid0.
    + right. exists uid. split; [set_solver|by apply Hsub].
  - intros d Hd. apply Hold. apply elem_of_app. by left.
  - intros uid Huid Hfresh. destruct (decide (uid = uid0)) as [->|Hne].
    + exists d0. split; [|done]. apply Hold. apply elem_of_app. right. by left.
    + apply elem_of_cons in Huid as [?|Huid]; [done|].
      destruct (Hall uid Huid) as (d & ? & ?); [set_solver|].
      exists d. split; [done|by apply Hsub].
Qed.

(** [d] is what [_parseJSON] parses from an element of the payload whose id
    is [uid]. *)
Definition json_entity_of (elements : list JsonElement) (uid : string) (d : Datum) : Prop :=
  ∃ element parser,
    element ∈ elements ∧ json_parser (el_type element) = Some parser ∧
    fromOSM (el_type element) (pretty (el_id element)) = uid ∧
    d = DEntity (parser element uid).

Lemma json_entity_of_cons element rest uid d :
  json_entity_of rest uid d → json_entity_of (element :: rest) uid d.
Proof. intros (e & p & Hin & ?). exists e, p. split; [by right|done]. Qed.

(** The loop over the elements with [skipSeen], on any state: the elements
    whose id is in the seen set are skipped, the others are parsed. *)
Lemma parseJSON_elements_skips (elements : list JsonElement) (results : Results) (s : Osm) :
  ∃ results' s',
    parseJSON_elements {| skipSeen := true |} elements results s = (Returned results', s', []) ∧
    skips (json_uids elements) (json_entity_of elements)
      (tc_seen (_tileCache s)) (tc_seen (_tileCache s')) (entities results) (entities results').
Proof.
  revert results s. induction elements as [|element rest IH]; intros results s; simpl.
  - eexists _, _. split; [reflexivity|]. apply skips_nil.
  - unfold json_uids. simpl. fold (json_uids rest).
    destruct (json_parser (el_type element)) as [parser|] eqn:Hparser.
    2: { destruct (IH results s) as (r' & s' & -> & Hskips). eexists _, _.
         split; [reflexivity|]. eapply skips_other; [|exact Hskips].
         intros uid d. apply json_entity_of_cons. }
    unfold bind, seen_has, gets at 1.
    destruct (bool_decide _) eqn:Hseen.
    + apply bool_decide_eq_true in Hseen.
      match goal with |- context [parseJSON_elements _ rest ?r ?s0] =>
        destruct (IH r s0) as (r' & s' & -> & Hskips) end.
      eexists _, _. split; [reflexivity|].
      eapply skips_seen; [|exact Hseen|exact Hskips].
      intros uid d. apply json_entity_of_cons.
    + apply bool_decide_eq_false in Hseen.
      unfold seen_add, modify at 1.
      match goal with |- context [parseJSON_elements _ rest ?r ?s0] =>
        destruct (IH r s0) as (r' & s' & -> & Hskips) end.
      eexists _, _. split; [reflexivity|].
      rewrite entities_push_entity in Hskips. simpl in Hskips.
      eapply skips_parsed; [|exact Hseen| |exact Hskips].
      * intros uid d. apply json_entity_of_cons.
      * exists element, parser. split; [by left|done].
Qed.

(** The loop over the users adds users only, and keeps the seen set. *)
Lemma parseJSON_users_adds_users options (users : list JsonUser) (results : Results) (s : Osm) :
  ∃ results' s',
    parseJSON_users options users results s = (Returned results', s', []) ∧
    tc_seen (_tileCache s') = tc_seen (_tileCache s) ∧
    entities results' = entities results.
Proof.
  revert results s. induction users as [|user rest IH]; intros results s; simpl.
  - by eexists _, _.
  - destruct (pretty <$> ju_id user) as [uid|]; [|apply IH].
    unfold bind, toLoad_delete, modify at 1. unfold user_cached, gets at 1.
    match goal with |- context [if ?b then _ else _] => destruct b end.
    + match goal with |- context [parseJSON_users options rest ?r ?s0] =>
        destruct (IH r s0) as (r' & s' & -> & Hs & Hr) end.
      eexists _, _. split; [reflexivity|]. split; done.
    + unfold user_store, modify at 1.
      match goal with |- context [parseJSON_users options rest ?r ?s0] =>
        destruct (IH r s0) as (r' & s' & -> & Hs & Hr) end.
      eexists _, _. split; [reflexivity|]. split; [done|].
      rewrite Hr, entities_push_other by done. reflexivity.
Qed.

Lemma parseJSON_changesets_adds_changesets (changesets : list JsonChangeset) (results : Results) :
  entities (parseJSON_changesets changesets results) = entities results.
Proof.
  unfold entities, parseJSON_changesets. simpl. rewrite filter_app.
  assert (Hnone : ∀ l : list JsonChangeset,
            filter (λ d, is_entity d = true) (DChangeset <$> l) = []).
  { induction l as [|c l IH]; [done|]. simpl. rewrite filter_cons. simpl.
    try case_decide; done. }
  by rewrite Hnone, app_nil_r.
Qed.

(** The deferred JSON parse, for a callback of the caller. *)
Lemma parseJSON_deferred_run (handle : nat) (payload : JsonPayload) (n : nat) (s : Osm) :
  ∃ results s',
    parseJSON_deferred handle payload (invoke (UserCb n)) {| skipSeen := true |} s
      = (Returned tt, s', [Invoke n None (VResults results)]) ∧
    tc_seen (_tileCache s) ⊆ tc_seen (_tileCache s') ∧
    (∀ uid, uid ∈ json_uids (json_elements payload) → uid ∈ tc_seen (_tileCache s')) ∧
    ((∀ uid, uid ∈ json_uids (json_elements payload) → uid ∈ tc_seen (_tileCache s)) →
     entities results = [] ∧ tc_seen (_tileCache s') = tc_seen (_tileCache s)).
Proof.
  unfold parseJSON_deferred, bind, deferred_delete, modify at 1.
  set (s0 := set_deferred _ s).
  destruct (parseJSON_elements_marks (json_elements payload) no_results s0)
    as (r1 & s1 & Hrun & Hsub & Hall).
  rewrite Hrun.
  match goal with |- context [parseJSON_users ?o ?u r1 s1] =>
    destruct (parseJSON_users_adds_users o u r1 s1) as (r2 & s2 & -> & Hs2 & Hr2) end.
  simpl. unfold effect. eexists _, _. split; [reflexivity|].
  rewrite Hs2. split; [done|]. split; [done|].
  intros Hseen.
  destruct (parseJSON_elements_seen (json_elements payload) no_results s0 Hseen)
    as (r1' & Hrun' & Hdata).
  rewrite Hrun' in Hrun. injection Hrun as <- <-.
  split; [|done].
  rewrite parseJSON_changesets_adds_changesets, Hr2. unfold entities. by rewrite Hdata.
Qed.
(** The deferred JSON parse, by what it skips. *)
Lemma parseJSON_deferred_skips (handle : nat) (payload : JsonPayload) (n : nat) (s : Osm) :
  ∃ results s',
    parseJSON_deferred handle payload (invoke (UserCb n)) {| skipSeen := true |} s
      = (Returned tt, s', [Invoke n None (VResults results)]) ∧
    skips (json_uids (json_elements payload)) (json_entity_of (json_elements payload))
      (tc_seen (_tileCache s)) (tc_seen (_tileCache s')) [] (entities results).
Proof.
  unfold parseJSON_deferred, bind, deferred_delete, modify at 1.
  set (s0 := set_deferred _ s).
  destruct (parseJSON_elements_skips (json_elements payload) no_results s0)
    as (r1 & s1 & -> & Hskips).
  match goal with |- context [parseJSON_users ?o ?u r1 s1] =>
    destruct (parseJSON_users_adds_users o u r1 s1) as (r2 & s2 & -> & Hs2 & Hr2) end.
  simpl. unfold effect. eexists _, _. split; [reflexivity|].
  by rewrite parseJSON_changesets_adds_changesets, Hr2, Hs2.
Qed.
End reparse.

Section reparse_xml.
Context {N : JsNumber} {T : JsNumberText N} {H : Host N}.

(** The state a computation leaves, whatever its outcome. *)
Definition post {A} (m : M A) (s : Osm) : Osm := (m s).1.2.

(** A computation that leaves the seen set of the tile cache alone. *)
Definition seen_kept {A} (m : M A) : Prop :=
  ∀ s, tc_seen (_tileCache (post m s)) = tc_seen (_tileCache s).

Lemma seen_kept_bind {A B} (m : M A) (f : A → M B) :
  seen_kept m → (∀ a, seen_kept (f a)) → seen_kept (bind m f).
Proof.
  intros Hm Hf s. unfold post, bind. specialize (Hm s). unfold post in Hm.
  destruct (m s) as [[[a| |] s1] es1]; simpl in *; [|done..].
  specialize (Hf a s1). unfold post in Hf.
  destruct (f a s1) as [[r s2] es2]. simpl in *. congruence.
Qed.

Lemma seen_kept_ret {A} (a : A) : seen_kept (ret a).
Proof. done. Qed.

Lemma seen_kept_gets {A} (f : Osm → A) : seen_kept (gets f).
Proof. done. Qed.

Lemma seen_kept_get : seen_kept get.
Proof. done. Qed.

Lemma seen_kept_required {A} (o : option A) : seen_kept (required o).
Proof. by destruct o. Qed.

Lemma seen_kept_modify (f : Osm → Osm) :
  (∀ s, tc_seen (_tileCache (f s)) = tc_seen (_tileCache s)) → seen_kept (modify f).
Proof. intros Hf s. apply Hf. Qed.

Ltac seen_kept :=
  repeat first
    [ apply seen_kept_ret | apply seen_kept_get | apply seen_kept_gets
    | apply seen_kept_required | (apply seen_kept_modify; intros; reflexivity)
    | (apply seen_kept_bind; [|intros])
    | match goal with |- seen_kept (if ?b then _ else _) => destruct b end
    | match goal with |- seen_kept (match ?o with _ => _ end) => destruct o end
    | assumption ].

Lemma seen_kept_toLoad_delete uid : seen_kept (toLoad_delete uid).
Proof. unfold toLoad_delete. seen_kept. Qed.

Lemma seen_kept_parseComment nodes parsed : seen_kept (parseComment nodes parsed).
Proof.
  revert parsed. induction nodes as [|node rest IH]; intros parsed; simpl; [seen_kept|].
  destruct (decide _); [apply IH|].
  apply seen_kept_bind; [|intros; apply IH].
  unfold user_cached, toLoad_add. seen_kept.
Qed.

Lemma seen_kept_parseComments comments : seen_kept (_parseComments comments).
Proof.
  induction comments as [|comment rest IH]; simpl; [seen_kept|].
  destruct (decide _); [|apply IH].
  apply seen_kept_bind; [apply seen_kept_parseComment|intros].
  apply seen_kept_bind; [apply IH|intros]. seen_kept.
Qed.

Lemma seen_kept_parseNote_props childNodes props : seen_kept (parseNote_props childNodes props).
Proof.
  revert props. induction childNodes as [|node rest IH]; intros props; simpl; [seen_kept|].
  destruct (decide _); [apply IH|]. destruct (decide _); [|apply IH].
  apply seen_kept_bind; [apply seen_kept_parseComments|intros; apply IH].
Qed.

Lemma seen_kept_parseNoteXML fuel xml uid : seen_kept (_parseNoteXML fuel xml uid).
Proof.
  unfold _parseNoteXML. apply seen_kept_bind; [seen_kept|intros s0].
  destruct (displace _ _ _); [|done].
  apply seen_kept_bind; [apply seen_kept_parseNote_props|intros]. seen_kept.
Qed.

Lemma seen_kept_parseUserXML xml uid : seen_kept (_parseUserXML xml uid).
Proof. unfold _parseUserXML, user_store, toLoad_delete. seen_kept. Qed.
End reparse_xml.

Section reparse_xml_loop.
Context {N : JsNumber} {T : JsNumberText N} {H : Host N}.

Lemma bind_inv {A B} (m : M A) (f : A → M B) s out s' es :
  bind m f s = (out, s', es) →
  (∃ a s1 es1 es2, m s = (Returned a, s1, es1) ∧ f a s1 = (out, s', es2) ∧ es = es1 ++ es2)
  ∨ (m s = (Threw, s', es) ∧ out = Threw)
  ∨ (m s = (Diverged, s', es) ∧ out = Diverged).
Proof.
  unfold bind. destruct (m s) as [[[a| |] s1] es1].
  - destruct (f a s1) as [[r s2] es2] eqn:Hf. intros [= <- <- <-]. left. by eexists _, _, _, _.
  - intros [= <- <- <-]. by right; left.
  - intros [= <- <- <-]. by right; right.
Qed.

Lemma seen_kept_run {A} (m : M A) s out s' es :
  seen_kept m → m s = (out, s', es) → tc_seen (_tileCache s') = tc_seen (_tileCache s).
Proof. intros Hm Hrun. specialize (Hm s). unfold post in Hm. by rewrite Hrun in Hm. Qed.

(** The ids [_parseXML] gives the children it parses as entities. *)
Definition xml_uids (children : list XmlNode) : list string :=
  omap (λ child,
          if decide (nodeName child = "user") then None
          else if decide (nodeName child = "note") then None
          else match xml_parser (nodeName child) with
               | Some _ => fromOSM (nodeName child) <$> attr_value (xml_attributes child) "id"
               | None => None
               end) children.

Lemma xml_uids_cons (child : XmlNode) (rest : list XmlNode) :
  xml_uids (child :: rest) =
    (if decide (nodeName child = "user") then []
     else if decide (nodeName child = "note") then []
     else match xml_parser (nodeName child) with
          | Some _ => match attr_value (xml_attributes child) "id" with
                      | Some id => [fromOSM (nodeName child) id]
                      | None => []
                      end
          | None => []
          end) ++ xml_uids rest.
Proof.
  unfold xml_uids. simpl. repeat case_decide; try done.
  destruct (xml_parser _); [|done]. by destruct (attr_value _ _).
Qed.

(** A loop over the children that returns leaves the ids of all the entities
    among them in the seen set, which has only grown. *)
Lemma parseXML_children_marks fuel (children : list XmlNode) (results : Results) (s : Osm)
    results' s' es :
  parseXML_children fuel {| skipSeen := true |} children results s = (Returned results', s', es) →
  tc_seen (_tileCache s) ⊆ tc_seen (_tileCache s') ∧
  ∀ uid, uid ∈ xml_uids children → uid ∈ tc_seen (_tileCache s').
Proof.
  revert results s es. induction children as [|child rest IH]; intros results s es.
  - intros [= <- <- <-]. split; [done|]. unfold xml_uids. simpl. set_solver.
  - rewrite xml_uids_cons. cbn [parseXML_children].
    destruct (decide (nodeName child = "user")).
    { intros [(uid & s1 & es1 & es2 & Hid & Hrun & _)|[[_ [=]]|[_ [=]]]]%bind_inv.
      apply (seen_kept_run _ _ _ _ _ (seen_kept_required _)) in Hid.
      apply bind_inv in Hrun as [(cached & s2 & ? & ? & [= <- <- <-] & Hrun & _)|[[_ [=]]|[_ [=]]]].
      match type of Hrun with context [if ?b then _ else _] => destruct b end.
      - apply bind_inv in Hrun as [([] & s3 & ? & ? & Hdel & Hrun & _)|[[_ [=]]|[_ [=]]]].
        apply (seen_kept_run _ _ _ _ _ (seen_kept_toLoad_delete _)) in Hdel.
        apply IH in Hrun as [Hsub Hall]. rewrite Hdel, Hid in Hsub. by split.
      - apply bind_inv in Hrun as [(parsed & s3 & ? & ? & Hparse & Hrun & _)|[[_ [=]]|[_ [=]]]].
        apply (seen_kept_run _ _ _ _ _ (seen_kept_parseUserXML _ _)) in Hparse.
        apply IH in Hrun as [Hsub Hall]. rewrite Hparse, Hid in Hsub. by split. }
    destruct (decide (nodeName child = "note")).
    { intros [(id & s1 & es1 & es2 & Hid & Hrun & _)|[[_ [=]]|[_ [=]]]]%bind_inv.
      apply (seen_kept_run _ _ _ _ _ (seen_kept_required _)) in Hid.
      apply bind_inv in Hrun as [(parsed & s2 & ? & ? & Hparse & Hrun & _)|[[_ [=]]|[_ [=]]]].
      apply (seen_kept_run _ _ _ _ _ (seen_kept_parseNoteXML _ _ _)) in Hparse.
      apply IH in Hrun as [Hsub Hall]. rewrite Hparse, Hid in Hsub. by split. }
    destruct (xml_parser (nodeName child)) as [parser|]; [|apply IH].
    intros [(id & s1 & es1 & es2 & Hid & Hrun & _)|[[_ [=]]|[_ [=]]]]%bind_inv.
    destruct (attr_value (xml_attributes child) "id") as [id'|]; [|done].
    injection Hid as <- <- <-.
    apply bind_inv in Hrun as [(seen & s2 & ? & ? & [= <- <- <-] & Hrun & _)|[[_ [=]]|[_ [=]]]].
    simpl in Hrun. destruct (bool_decide _) eqn:Hseen in Hrun.
    + apply bool_decide_eq_true in Hseen. apply IH in Hrun as [Hsub Hall]. split; set_solver.
    + apply bind_inv in Hrun as [([] & s3 & ? & ? & Hadd & Hrun & _)|[[_ [=]]|[_ [=]]]].
      unfold seen_add, modify in Hadd. simplify_eq.
      apply bind_inv in Hrun as [(parsed & s4 & ? & ? & Hparsed & Hrun & _)|[[_ [=]]|[_ [=]]]].
      destruct (parser child _); [|done]. unfold required, ret in Hparsed. simplify_eq.
      apply IH in Hrun as [Hsub Hall]. simpl in Hsub. split; set_solver.
Qed.

(** On a state whose seen set holds the ids of all the entities among the
    children, the loop leaves the seen set as it is and, if it returns, has
    added no entity to the data. *)
Lemma parseXML_children_seen fuel (children : list XmlNode) (results : Results) (s : Osm)
    out s' es :
  (∀ uid, uid ∈ xml_uids children → uid ∈ tc_seen (_tileCache s)) →
  parseXML_children fuel {| skipSeen := true |} children results s = (out, s', es) →
  tc_seen (_tileCache s') = tc_seen (_tileCache s) ∧
  ∀ results', out = Returned results' → entities results' = entities results.
Proof.
  revert results s es. induction children as [|child rest IH]; intros results s es Hall.
  - intros [= <- <- <-]. split; [done|]. by intros ? [= <-].
  - rewrite xml_uids_cons in Hall. cbn [parseXML_children].
    destruct (decide (nodeName child = "user")).
    { intros [(uid & s1 & es1 & es2 & Hid & Hrun & _)|[[Hid ->]|[Hid ->]]]%bind_inv;
        [|by rewrite (seen_kept_run _ _ _ _ _ (seen_kept_required _) Hid)..].
      apply (seen_kept_run _ _ _ _ _ (seen_kept_required _)) in Hid.
      apply bind_inv in Hrun as [(cached & s2 & ? & ? & [= <- <- <-] & Hrun & _)|[[[=] _]|[[=] _]]].
      match type of Hrun with context [if ?b then _ else _] => destruct b end.
      - apply bind_inv in Hrun as [([] & s3 & ? & ? & Hdel & Hrun & _)|[[[=] _]|[[=] _]]].
        apply (seen_kept_run _ _ _ _ _ (seen_kept_toLoad_delete _)) in Hdel.
        apply IH in Hrun as [Hsame Hdata]; [|rewrite Hdel, Hid; set_solver].
        split; [congruence|done].
      - apply bind_inv in Hrun as [(parsed & s3 & ? & ? & Hparse & Hrun & _)|[[Hparse ->]|[Hparse ->]]];
          [|apply (seen_kept_run _ _ _ _ _ (seen_kept_parseUserXML _ _)) in Hparse;
            split; [congruence|done]..].
        apply (seen_kept_run _ _ _ _ _ (seen_kept_parseUserXML _ _)) in Hparse.
        apply IH in Hrun as [Hsame Hdata]; [|rewrite Hparse, Hid; set_solver].
        split; [congruence|]. intros r' Hr'. rewrite (Hdata r' Hr').
        by rewrite entities_push_other. }
    destruct (decide (nodeName child = "note")).
    { intros [(id & s1 & es1 & es2 & Hid & Hrun & _)|[[Hid ->]|[Hid ->]]]%bind_inv;
        [|by rewrite (seen_kept_run _ _ _ _ _ (seen_kept_required _) Hid)..].
      apply (seen_kept_run _ _ _ _ _ (seen_kept_required _)) in Hid.
      apply bind_inv in Hrun as [(parsed & s2 & ? & ? & Hparse & Hrun & _)|[[Hparse ->]|[Hparse ->]]];
        [|apply (seen_kept_run _ _ _ _ _ (seen_kept_parseNoteXML _ _ _)) in Hparse;
          split; [congruence|done]..].
      apply (seen_kept_run _ _ _ _ _ (seen_kept_parseNoteXML _ _ _)) in Hparse.
      apply IH in Hrun as [Hsame Hdata]; [|rewrite Hparse, Hid; set_solver].
      split; [congruence|]. intros r' Hr'. rewrite (Hdata r' Hr').
      by rewrite entities_push_other. }
    destruct (xml_parser (nodeName child)) as [parser|]; [|apply IH; set_solver].
    intros [(id & s1 & es1 & es2 & Hid & Hrun & _)|[[Hid ->]|[Hid ->]]]%bind_inv;
      [|by rewrite (seen_kept_run _ _ _ _ _ (seen_kept_required _) Hid)..].
    destruct (attr_value (xml_attributes child) "id") as [id'|]; [|done].
    injection Hid as <- <- <-.
    apply bind_inv in Hrun as [(seen & s2 & ? & ? & [= <- <- <-] & Hrun & _)|[[[=] _]|[[=] _]]].
    simpl in Hrun. rewrite bool_decide_eq_true_2 in Hrun by set_solver.
    apply IH in Hrun as [Hsame Hdata]; [|set_solver]. split; done.
Qed.
(** [d] is what [_parseXML] parses from a child of the payload whose id is
    [uid]. *)
Definition xml_entity_of (children : list XmlNode) (uid : string) (d : Datum) : Prop :=
  ∃ child parser id e,
    child ∈ children ∧ xml_parser (nodeName child) = Some parser ∧
    attr_value (xml_attributes child) "id" = Some id ∧
    fromOSM (nodeName child) id = uid ∧
    parser child uid = Some e ∧ d = DEntity e.

Lemma xml_entity_of_cons child rest uid d :
  xml_entity_of rest uid d → xml_entity_of (child :: rest) uid d.
Proof. intros (c & p & id & e & Hin & ?). exists c, p, id, e. split; [by right|done]. Qed.

(** A loop over the children with [skipSeen] that returns, on any state:
    the children whose id is in the seen set are skipped, the others are
    parsed. *)
Lemma parseXML_children_skips fuel (children : list XmlNode) (results : Results) (s : Osm)
    results' s' es :
  parseXML_children fuel {| skipSeen := true |} children results s = (Returned results', s', es) →
  skips (xml_uids children) (xml_entity_of children)
    (tc_seen (_tileCache s)) (tc_seen (_tileCache s')) (entities results) (entities results').
Proof.
  revert results s es. induction children as [|child rest IH]; intros results s es.
  - intros [= <- <- <-]. apply skips_nil.
  - rewrite xml_uids_cons. cbn [parseXML_children].
    destruct (decide (nodeName child = "user")).
    { intros [(uid & s1 & es1 & es2 & Hid & Hrun & _)|[[_ [=]]|[_ [=]]]]%bind_inv.
      apply (seen_kept_run _ _ _ _ _ (seen_kept_required _)) in Hid.
      apply bind_inv in Hrun as [(cached & s2 & ? & ? & [= <- <- <-] & Hrun & _)|[[_ [=]]|[_ [=]]]].
      match type of Hrun with context [if ?b then _ else _] => destruct b end.
      - apply bind_inv in Hrun as [([] & s3 & ? & ? & Hdel & Hrun & _)|[[_ [=]]|[_ [=]]]].
        apply (seen_kept_run _ _ _ _ _ (seen_kept_toLoad_delete _)) in Hdel.
        apply IH in Hrun. rewrite Hdel, Hid in Hrun.
        eapply skips_other; [|exact Hrun]. intros ? ?. apply xml_entity_of_cons.
      - apply bind_inv in Hrun as [(parsed & s3 & ? & ? & Hparse & Hrun & _)|[[_ [=]]|[_ [=]]]].
        apply (seen_kept_run _ _ _ _ _ (seen_kept_parseUserXML _ _)) in Hparse.
        apply IH in Hrun. rewrite Hparse, Hid, entities_push_other in Hrun by done.
        eapply skips_other; [|exact Hrun]. intros ? ?. apply xml_entity_of_cons. }
    destruct (decide (nodeName child = "note")).
    { intros [(id & s1 & es1 & es2 & Hid & Hrun & _)|[[_ [=]]|[_ [=]]]]%bind_inv.
      apply (seen_kept_run _ _ _ _ _ (seen_kept_required _)) in Hid.
      apply bind_inv in Hrun as [(parsed & s2 & ? & ? & Hparse & Hrun & _)|[[_ [=]]|[_ [=]]]].
      apply (seen_kept_run _ _ _ _ _ (seen_kept_parseNoteXML _ _ _)) in Hparse.
      apply IH in Hrun. rewrite Hparse, Hid, entities_push_other in Hrun by done.
      eapply skips_other; [|exact Hrun]. intros ? ?. apply xml_entity_of_cons. }
    destruct (xml_parser (nodeName child)) as [parser|] eqn:Hparser.
    2: { intros Hrun. apply IH in Hrun.
         eapply skips_other; [|exact Hrun]. intros ? ?. apply xml_entity_of_cons. }
    intros [(id & s1 & es1 & es2 & Hid & Hrun & _)|[[_ [=]]|[_ [=]]]]%bind_inv.
    destruct (attr_value (xml_attributes child) "id") as [id'|] eqn:Hattr; [|done].
    injection Hid as <- <- <-.
    apply bind_inv in Hrun as [(seen & s2 & ? & ? & [= <- <- <-] & Hrun & _)|[[_ [=]]|[_ [=]]]].
    simpl in Hrun. destruct (bool_decide _) eqn:Hseen in Hrun.
    + apply bool_decide_eq_true in Hseen. apply IH in Hrun.
      eapply skips_seen; [|exact Hseen|exact Hrun]. intros ? ?. apply xml_entity_of_cons.
    + apply bool_decide_eq_false in Hseen.
      apply bind_inv in Hrun as [([] & s3 & ? & ? & Hadd & Hrun & _)|[[_ [=]]|[_ [=]]]].
      unfold seen_add, modify in Hadd. simplify_eq.
      apply bind_inv in Hrun as [(parsed & s4 & ? & ? & Hparsed & Hrun & _)|[[_ [=]]|[_ [=]]]].
      destruct (parser child _) as [e|] eqn:He; [|done].
      unfold required, ret in Hparsed. simplify_eq.
      apply IH in Hrun. rewrite entities_push_entity in Hrun. simpl in Hrun.
      eapply skips_parsed; [|exact Hseen| |exact Hrun].
      * intros ? ?. apply xml_entity_of_cons.
      * exists child, parser, id', parsed. split; [by left|done].
Qed.
End reparse_xml_loop.

Section reparse_silent.
Context {N : JsNumber} {T : JsNumberText N} {H : Host N}.

(** A computation that logs no effect. *)
Definition silent {A} (m : M A) : Prop := ∀ s, (m s).2 = [].

Lemma silent_bind {A B} (m : M A) (f : A → M B) :
  silent m → (∀ a, silent (f a)) → silent (bind m f).
Proof.
  intros Hm Hf s. unfold bind. specialize (Hm s).
  destruct (m s) as [[[a| |] s1] es1]; simpl in *; [|done..].
  specialize (Hf a s1). destruct (f a s1) as [[r s2] es2]. simpl in *. by subst.
Qed.

Lemma silent_required {A} (o : option A) : silent (required o).
Proof. by destruct o. Qed.

Ltac silent :=
  repeat first
    [ (apply silent_bind; [|intros])
    | apply silent_required
    | match goal with |- silent (if ?b then _ else _) => destruct b end
    | match goal with |- silent (match ?o with _ => _ end) => destruct o end
    | assumption
    | (by intros ?) ].

Lemma silent_parseComment nodes parsed : silent (parseComment nodes parsed).
Proof.
  revert parsed. induction nodes as [|node rest IH]; intros parsed; simpl; [silent|].
  destruct (decide _); [apply IH|].
  apply silent_bind; [|intros; apply IH].
  unfold user_cached, toLoad_add. silent.
Qed.

Lemma silent_parseComments comments : silent (_parseComments comments).
Proof.
  induction comments as [|comment rest IH]; simpl; [silent|].
  destruct (decide _); [|apply IH].
  apply silent_bind; [apply silent_parseComment|intros].
  apply silent_bind; [apply IH|intros]. silent.
Qed.

Lemma silent_parseNote_props childNodes props : silent (parseNote_props childNodes props).
Proof.
  revert props. induction childNodes as [|node rest IH]; intros props; simpl; [silent|].
  destruct (decide _); [apply IH|]. destruct (decide _); [|apply IH].
  apply silent_bind; [apply silent_parseComments|intros; apply IH].
Qed.

Lemma silent_parseNoteXML fuel xml uid : silent (_parseNoteXML fuel xml uid).
Proof.
  unfold _parseNoteXML. apply silent_bind; [silent|intros s0].
  destruct (displace _ _ _); [|done].
  apply silent_bind; [apply silent_parseNote_props|intros]. silent.
Qed.

Lemma silent_parseUserXML xml uid : silent (_parseUserXML xml uid).
Proof. unfold _parseUserXML, user_store, toLoad_delete. silent. Qed.

Lemma silent_parseXML_children fuel options children results :
  silent (parseXML_children fuel options children results).
Proof.
  revert results. induction children as [|child rest IH]; intros results; simpl; [silent|].
  destruct (decide _).
  { apply silent_bind; [silent|intros uid].
    apply silent_bind; [silent|intros cached].
    destruct (skipSeen options && cached).
    - apply silent_bind; [silent|intros; apply IH].
    - apply silent_bind; [apply silent_parseUserXML|intros; apply IH]. }
  destruct (decide _).
  { apply silent_bind; [silent|intros id].
    apply silent_bind; [apply silent_parseNoteXML|intros; apply IH]. }
  destruct (xml_parser _); [|apply IH].
  apply silent_bind; [silent|intros id].
  apply silent_bind; [silent|intros seen].
  destruct (skipSeen options && seen); [apply IH|].
  apply silent_bind; [silent|intros].
  apply silent_bind; [silent|intros; apply IH].
Qed.

(** C4.  Re-fetching is idempotent.  With [skipSeen] set, the deferred parse
    of a JSON payload, on any state, hands its results to the callback, and
    every element whose id is recorded in the seen set of the tile cache is
    skipped: each entity of the results is the parse of an element of the
    payload whose id was not in the seen set, each id of the payload that
    was not in the seen set has its entity in the results, and the seen set
    has grown by the ids of the payload.  So on any later state, whose seen
    set holds at least those ids, the parse of the same payload hands over
    results without a single entity and leaves the seen set as it is.  The
    same holds for the XML path: a parse of the children that runs to its
    end hands over results of which each entity is the parse of a child
    whose id was not in the seen set, each such id having its entity, the
    seen set growing by the ids of the children; a later parse of the same
    children leaves the seen set as it is, and the results it hands over,
    if it gets there, are without a single entity. *)
Theorem reparse_adds_no_entity
    (fuel h1 h2 n1 n2 : nat) (r r' : Response) (s : Osm) :
  let skip := {| skipSeen := true |} in
  let seen := tc_seen (_tileCache s) in
  (∀ payload, ∃ results1 s1,
     resume fuel (KParseJSON h1 payload (UserCb n1) skip) r s
       = (Returned tt, s1, [Invoke n1 None (VResults results1)]) ∧
     tc_seen (_tileCache s1) = seen ∪ list_to_set (json_uids (json_elements payload)) ∧
     (∀ d, d ∈ entities results1 →
        ∃ uid, (uid ∉ seen) ∧ json_entity_of (json_elements payload) uid d) ∧
     (∀ uid, uid ∈ json_uids (json_elements payload) → uid ∉ seen →
        ∃ d, d ∈ entities results1 ∧ json_entity_of (json_elements payload) uid d) ∧
     ∀ s2, tc_seen (_tileCache s1) ⊆ tc_seen (_tileCache s2) →
       ∃ results2 s3,
         resume fuel (KParseJSON h2 payload (UserCb n2) skip) r' s2
           = (Returned tt, s3, [Invoke n2 None (VResults results2)]) ∧
         entities results2 = [] ∧
         tc_seen (_tileCache s3) = tc_seen (_tileCache s2)) ∧
  (∀ children s1 es1,
     resume fuel (KParseXML h1 children (UserCb n1) skip) r s = (Returned tt, s1, es1) →
     (∃ results1,
        es1 = [Invoke n1 None (VResults results1)] ∧
        tc_seen (_tileCache s1) = seen ∪ list_to_set (xml_uids children) ∧
        (∀ d, d ∈ entities results1 →
           ∃ uid, (uid ∉ seen) ∧ xml_entity_of children uid d) ∧
        (∀ uid, uid ∈ xml_uids children → uid ∉ seen →
           ∃ d, d ∈ entities results1 ∧ xml_entity_of children uid d)) ∧
     ∀ s2, tc_seen (_tileCache s1) ⊆ tc_seen (_tileCache s2) →
       ∀ fuel' out s3 es3,
         resume fuel' (KParseXML h2 children (UserCb n2) skip) r' s2 = (out, s3, es3) →
         tc_seen (_tileCache s3) = tc_seen (_tileCache s2) ∧
         ∀ results2, Invoke n2 None (VResults results2) ∈ es3 → entities results2 = []).
Proof.
  intros skip seen. split.
  - intros payload. simpl.
    destruct (parseJSON_deferred_skips h1 payload n1 s)
      as (results1 & s1 & Hrun & Hseen1 & Hnew & _ & Hall).
    exists results1, s1. split; [exact Hrun|]. split; [exact Hseen1|]. split; [|split; [exact Hall|]].
    { intros d Hd. destruct (Hnew d Hd) as [Hin|?]; [|done]. by apply elem_of_nil in Hin. }
    intros s2 Hsub.
    destruct (parseJSON_deferred_run h2 payload n2 s2) as (results2 & s3 & Hrun2 & _ & _ & Hseen).
    exists results2, s3. split; [exact Hrun2|]. apply Hseen. set_solver.
  - intros children s1 es1. simpl. unfold parseXML_deferred.
    intros [([] & s0 & ? & ? & Hdel & Hrun & ->)|[[_ [=]]|[_ [=]]]]%bind_inv.
    unfold deferred_delete, modify in Hdel. simplify_eq.
    apply bind_inv in Hrun as [(results1 & s1' & es' & ? & Hloop & Hcb & ->)|[[_ [=]]|[_ [=]]]].
    simpl in Hcb. unfold effect in Hcb. simplify_eq.
    pose proof (silent_parseXML_children fuel skip children no_results
                  (set_deferred (_deferred s ∖ {[h1]}) s)) as Hsilent1.
    rewrite Hloop in Hsilent1. simpl in Hsilent1. subst es'.
    pose proof (parseXML_children_skips _ _ _ _ _ _ _ Hloop) as (Hseen1 & Hnew & _ & Hfresh).
    apply parseXML_children_marks in Hloop as [_ Hall].
    split.
    { exists results1. split; [done|]. split; [exact Hseen1|]. split; [|exact Hfresh].
      intros d Hd. destruct (Hnew d Hd) as [Hin|?]; [|done]. by apply elem_of_nil in Hin. }
    intros s2 Hsub fuel' out s3 es3.
    intros [([] & s0' & ? & ? & Hdel & Hrun & ->)|[[[=] _]|[[=] _]]]%bind_inv.
    unfold deferred_delete, modify in Hdel. simplify_eq. simpl.
    apply bind_inv in Hrun as [(results2 & s2' & es2 & ? & Hloop & Hcb & ->)|[[Hloop ->]|[Hloop ->]]].
    + pose proof (silent_parseXML_children fuel' skip children no_results
                    (set_deferred (_deferred s2 ∖ {[h2]}) s2)) as Hsilent.
      rewrite Hloop in Hsilent. simpl in Hsilent. subst es2.
      apply parseXML_children_seen in Hloop as [Hsame Hdata]; [|simpl; set_solver].
      simpl in Hcb. unfold effect in Hcb. simplify_eq. split; [done|].
      intros results2' Hin. apply list_elem_of_singleton in Hin. simplify_eq.
      by apply Hdata.
    + pose proof (silent_parseXML_children fuel' skip children no_results
                    (set_deferred (_deferred s2 ∖ {[h2]}) s2)) as Hsilent.
      rewrite Hloop in Hsilent. simpl in Hsilent. rewrite Hsilent.
      apply parseXML_children_seen in Hloop as [Hsame _]; [|simpl; set_solver].
      split; [done|]. intros ? Hin. by apply elem_of_nil in Hin.
    + pose proof (silent_parseXML_children fuel' skip children no_results
                    (set_deferred (_deferred s2 ∖ {[h2]}) s2)) as Hsilent.
      rewrite Hloop in Hsilent. simpl in Hsilent. rewrite Hsilent.
      apply parseXML_children_seen in Hloop as [Hsame _]; [|simpl; set_solver].
      split; [done|]. intros ? Hin. by apply elem_of_nil in Hin.
Qed.
End reparse_silent.

(** The tile cache has seen the node 1, as after a neighbouring tile.  A
    payload of the nodes 1 and 2 is parsed: the node 1 is skipped, the node
    2 has its entity in the results, and both are in the seen set; a second
    parse hands over no entity.  The same payload in XML: its parse hands
    over an entity for the node 2 and none for the node 1. *)
Lemma reparse_adds_no_entity_witness :
  let s := set_tileCache (set_tc_seen ({[ "n1" ]} : gset string) empty_tileCache) (initial (N := FixedNumber)) in
  let payload := {| json_elements := [fixed_node 1 (Some 2%Z) 10 20 None;
                                      fixed_node 2 (Some 1%Z) 30 40 None];
                    json_user := None; json_users := None; json_changesets := [] |} in
  let children := [XElement "node" [("id", "1"); ("version", "2")] [];
                   XElement "node" [("id", "2"); ("version", "1")] []] in
  let skip := {| skipSeen := true |} in
  (∃ (results1 : @Results FixedNumber) s1 (results2 : @Results FixedNumber) s3,
     resume (T := FixedNumberText) (H := plain_host _) 0 (KParseJSON 0 payload (UserCb 0) skip)
       AbortError s = (Returned tt, s1, [Invoke 0 None (VResults results1)]) ∧
     (∀ d : @Datum FixedNumber, d ∈ entities results1 →
        ∃ uid : string, (uid ∉ tc_seen (_tileCache s)) ∧ json_entity_of (T := FixedNumberText) (json_elements payload) uid d) ∧
     (∃ d : @Datum FixedNumber, d ∈ entities results1 ∧ json_entity_of (T := FixedNumberText) (json_elements payload) "n2" d) ∧
     resume (T := FixedNumberText) (H := plain_host _) 0 (KParseJSON 1 payload (UserCb 0) skip)
       AbortError s1 = (Returned tt, s3, [Invoke 0 None (VResults results2)]) ∧
     entities results2 = [] ∧
     tc_seen (_tileCache s3) = tc_seen (_tileCache s1)) ∧
  (∃ (results1 : @Results FixedNumber) s1,
     resume (T := FixedNumberText) (H := plain_host _) 0 (KParseXML 0 children (UserCb 0) skip)
       AbortError s = (Returned tt, s1, [Invoke 0 None (VResults results1)]) ∧
     (∀ d : @Datum FixedNumber, d ∈ entities results1 →
        ∃ uid : string, (uid ∉ tc_seen (_tileCache s)) ∧ xml_entity_of (T := FixedNumberText) children uid d) ∧
     (∃ d : @Datum FixedNumber, d ∈ entities results1 ∧ xml_entity_of (T := FixedNumberText) children "n2" d)).
Proof.
  intros s payload children skip.
  destruct (reparse_adds_no_entity (T := FixedNumberText) (H := plain_host _)
              0 0 1 0 0 AbortError AbortError s) as [Hjson Hxml].
  split.
  - destruct (Hjson payload) as (results1 & s1 & Hrun1 & _ & Hnew & Hfresh & Hnext).
    destruct (Hnext s1) as (results2 & s3 & Hrun2 & Hnone & Hseen); [done|].
    exists results1, s1, results2, s3.
    split; [exact Hrun1|]. split; [exact Hnew|]. split; [|done].
    apply Hfresh; vm_compute; set_solver.
  - destruct (resume (T := FixedNumberText) (H := plain_host _) 0
                (KParseXML 0 children (UserCb 0) skip) AbortError s)
      as [[out s1] es1] eqn:Hrun.
    assert (Hout : out = Returned tt) by (by vm_compute in Hrun; injection Hrun as <- _ _).
    subst out.
    destruct (Hxml children s1 es1 Hrun) as [(results1 & -> & _ & Hnew & Hfresh) _].
    exists results1, s1. split; [reflexivity|]. split; [exact Hnew|].
    apply Hfresh; vm_compute; set_solver.
Defined.

(** ** One element in JSON and in XML *)

Section json_xml.
Context {N : JsNumber} {T : JsNumberText N}.

(** The attributes an element is written with: those of the properties that
    are present. *)
Definition present (properties : list (string * option string)) : list (string * string) :=
  omap (λ kv, (λ v, (kv.1, v)) <$> kv.2) properties.

(** The XML representation of the element that [obj] represents in JSON, as
    the API writes it: each property present is an attribute holding the
    text of its value, and each tag, node reference and member is a child
    element. *)
Definition xml_of_json (obj : JsonElement) : XmlNode :=
  XElement (el_type obj)
    (present
       [ ("id", Some (pretty (el_id obj)));
         ("visible", (λ b : bool, if b then "true" else "false") <$> el_visible obj);
         ("version", pretty <$> el_version obj);
         ("changeset", pretty <$> el_changeset obj);
         ("timestamp", el_timestamp obj);
         ("user", el_user obj);
         ("uid", pretty <$> el_uid obj);
         ("lon", num_to_string <$> el_lon obj);
         ("lat", num_to_string <$> el_lat obj) ])
    (((λ kv : string * string, XElement "tag" [("k", kv.1); ("v", kv.2)] [])
        <$> map_to_list (default ∅ (el_tags obj)))
     ++ ((λ n : Z, XElement "nd" [("ref", pretty n)] []) <$> default [] (el_nodes obj))
     ++ ((λ m, XElement "member"
                 [("type", jm_type m); ("ref", pretty (jm_ref m)); ("role", jm_role m)] [])
           <$> default [] (el_members obj))).

(** The tags of an entity. *)
Definition entity_tags (e : Entity) : gmap string string :=
  match e with Node c _ | Way c _ | Relation c _ => e_tags c end.
End json_xml.

(** A node whose [name] ends in a space. *)
Definition spaced_node : JsonElement (N := FixedNumber) :=
  fixed_node 1 (Some 3%Z) 1234567 7654321 (Some {[ "name" := "Main Street " ]}).

(** C5, at a node with a tag value that ends in a space:
    [{ type: 'node', id: 1, version: 3, lon: 0.1234567, lat: 0.7654321,
       tags: { name: 'Main Street ' } }] in JSON and
    [<node id="1" version="3" lon="0.1234567" lat="0.7654321">
       <tag k="name" v="Main Street "/></node>] in XML.
    The JSON parser keeps the value as it is; the XML parser, through
    [_getTags], trims it: the two entities differ in their tags. *)
Theorem json_and_xml_disagree_on_spaced_tag :
  let document := xml_of_json (T := FixedNumberText) spaced_node in
  let json := _parseNodeJSON (T := FixedNumberText) spaced_node "n1" in
  let xml := _parseNodeXML (T := FixedNumberText) document "n1" in
  document = XElement "node"
               [("id", "1"); ("version", "3"); ("lon", "0.1234567"); ("lat", "0.7654321")]
               [XElement "tag" [("k", "name"); ("v", "Main Street ")] []] ∧
  entity_tags json !! "name" = Some "Main Street " ∧
  (entity_tags <$> xml) = Some {[ "name" := "Main Street" ]} ∧
  xml ≠ Some json.
Proof.
  intros document json xml. split; [|split; [|split]].
  - vm_compute. reflexivity.
  - vm_compute. reflexivity.
  - vm_compute. reflexivity.
  - intros Heq. apply (f_equal (λ o, e ← o; entity_tags e !! "name")) in Heq.
    vm_compute in Heq. discriminate.
Qed.

(** ** One element in JSON and in XML: where the parsers agree *)

Section json_xml_agree.
Context {N : JsNumber} {T : JsNumberText N}.

(** Tags that [_getTags] hands on as they are: no key is empty, and neither
    keys nor values begin or end in white space. *)
Definition clean_tags (tags : gmap string string) : Prop :=
  ∀ k v, tags !! k = Some v → trim k = k ∧ k ≠ "" ∧ trim v = v.












End json_xml_agree.


(** ** Notes: coincident notes are moved apart *)

Lemma FixedNumber_ordered : OrderedNumber FixedNumber.
Proof.
  split. intros [x|] [y|] [z|]; simpl; try done. rewrite !Z.leb_le. lia.
Qed.

Lemma fixed_advances (x : @num FixedNumber) : advances x.
Proof.
  destruct x as [x|]; split; simpl; try done.
  - rewrite !Z.leb_le. lia.
  - rewrite Z.leb_gt. lia.
Qed.

(** The order of the doubles: two doubles compare as their signs, exponents
    and mantissas do. *)
Lemma SFleb_trans (a b c : spec_float) :
  SFleb a b = true → SFleb b c = true → SFleb a c = true.
Proof.
  unfold SFleb, SFcompare.
  destruct a as [[]|[]| |[] m1 e1], b as [[]|[]| |[] m2 e2], c as [[]|[]| |[] m3 e3];
    try done;
    rewrite ?Pos.compare_cont_spec; unfold Pos.switch_Eq;
    repeat match goal with
           | |- context [Z.compare ?x ?y] => destruct (Z.compare_spec x y)
           | |- context [Pos.compare ?x ?y] => destruct (Pos.compare_spec x y)
           end;
    simpl; try done; lia.
Qed.

Lemma DoubleNumber_ordered : OrderedNumber DoubleNumber.
Proof. split. simpl. intros x y z. rewrite !leb_spec. apply SFleb_trans. Qed.

Section notes_apart.
Context {N : JsNumber} {T : JsNumberText N} {H : Host N}.

(** The box of a location, as [_parseNoteXML] searches it and as
    [_encodeNoteRtree] stores it. *)
Definition point_box (loc : Vec2) : BBox := Extent_bbox (Extent_at loc).

(** An item whose box is a single location, as [_encodeNoteRtree] builds
    them. *)
Definition is_point (item : NoteItem) : Prop :=
  maxX (ni_box item) = minX (ni_box item) ∧ maxY (ni_box item) = minY (ni_box item).

(** No two items of the index, at different places in it, occupy the same
    location. *)
Definition notes_apart (rtree : list NoteItem) : Prop :=
  ∀ i j a b, i ≠ j → rtree !! i = Some a → rtree !! j = Some b →
    intersects (ni_box a) (ni_box b) = false.

Lemma intersects_sym (a b : BBox) : intersects a b = intersects b a.
Proof.
  unfold intersects.
  destruct (num_leb (minX b) (maxX a)), (num_leb (minY b) (maxY a)),
    (num_leb (minX a) (maxX b)), (num_leb (minY a) (maxY b)); done.
Qed.

Lemma search_nil_iff {I} (box : I → BBox) (tree : list I) (query : BBox) :
  rbush_search box tree query = [] ↔ ∀ item, item ∈ tree → intersects query (box item) = false.
Proof.
  unfold rbush_search. split.
  - intros Hnil item Hin. destruct (intersects query (box item)) eqn:Hhit; [|done].
    by destruct (filter_nil_not_elem_of _ _ item Hnil).
  - induction tree as [|item tree IH]; intros Hall; [done|].
    rewrite filter_cons, Hall by left. case_decide; [done|]. apply IH.
    intros ??. apply Hall. by right.
Qed.

Lemma encode_is_point (note : Note) : is_point (_encodeNoteRtree note).
Proof. done. Qed.

Lemma notes_apart_insert (item : NoteItem) (rtree : list NoteItem) :
  notes_apart rtree →
  rbush_search ni_box rtree (ni_box item) = [] →
  notes_apart (rbush_insert item rtree).
Proof.
  intros Hapart Hfree. unfold rbush_insert.
  pose proof (proj1 (search_nil_iff _ _ _) Hfree) as Hnone. clear Hfree. rename Hnone into Hfree.
  intros [|i] [|j] a b Hij Ha Hb; simpl in *; simplify_eq.
  - apply Hfree. by eapply list_elem_of_lookup_2.
  - rewrite intersects_sym. apply Hfree. by eapply list_elem_of_lookup_2.
  - eapply (Hapart i j); [congruence|done..].
Qed.
End notes_apart.

Section displacement.
Context {N : JsNumber} {T : JsNumberText N} {H : Host N} {O : OrderedNumber N}.

(** The items at or beyond a longitude: the loop leaves one behind with each
    shift. *)
Definition ahead (rtree : list NoteItem) (x : num) : list NoteItem :=
  filter (λ item, num_leb x (minX (ni_box item)) = true) rtree.

Lemma shift_leaves_item_behind (rtree : list NoteItem) (loc : Vec2) (item : NoteItem) :
  Forall is_point rtree → item ∈ rtree →
  intersects (point_box loc) (ni_box item) = true →
  advances loc.1 →
  length (ahead rtree (vecAdd loc (epsilon, epsilon)).1) < length (ahead rtree loc.1).
Proof.
  intros Hpoints Hin Hhit [Hle Hgt].
  assert (Hpt : is_point item) by (by eapply Forall_forall in Hpoints).
  destruct Hpt as [HmaxX _].
  unfold intersects, point_box in Hhit. simpl in Hhit.
  rewrite !andb_true_iff in Hhit. destruct Hhit as [[[Hwest _] Heast] _].
  rewrite HmaxX in Heast.
  assert (Hrefl : num_leb loc.1 loc.1 = true) by (by eapply num_leb_trans).
  specialize (Hle Hrefl).
  unfold ahead, vecAdd. simpl.
  rewrite <- (list_filter_filter_l
                (λ item, num_leb (num_add loc.1 epsilon) (minX (ni_box item)) = true)
                (λ item, num_leb loc.1 (minX (ni_box item)) = true)).
  - apply (length_filter_lt _ _ item).
    + by apply list_elem_of_filter.
    + intros Hpast.
      pose proof (num_leb_trans _ _ _ Hpast Hwest) as Hback.
      by rewrite Hgt in Hback.
  - intros item' Hpast. exact (num_leb_trans _ _ _ Hle Hpast).
Qed.

(** With enough iterations for the items ahead, each shift on the way being
    one that advances, the loop ends, at a location that no item of the
    index occupies. *)
Lemma displace_finds_free (fuel : nat) (rtree : list NoteItem) (loc : Vec2) :
  Forall is_point rtree →
  length (ahead rtree loc.1) < fuel →
  (∀ j, j < length (ahead rtree loc.1) →
     advances (Nat.iter j (λ l, vecAdd l (epsilon, epsilon)) loc).1) →
  ∃ loc', displace fuel rtree loc = Some loc' ∧
          rbush_search ni_box rtree (point_box loc') = [].
Proof.
  intros Hpoints. revert loc. induction fuel as [|fuel IH]; intros loc Hfuel Hadv; [lia|].
  simpl. fold (point_box loc).
  destruct (rbush_search ni_box rtree (point_box loc)) as [|item hits] eqn:Hsearch.
  - by exists loc.
  - assert (Hitem : item ∈ rbush_search ni_box rtree (point_box loc))
      by (rewrite Hsearch; left).
    unfold rbush_search in Hitem. apply list_elem_of_filter in Hitem as [Hhit Hin].
    assert (Hahead : item ∈ ahead rtree loc.1).
    { apply list_elem_of_filter. split; [|done].
      assert (Hpt : is_point item) by (by eapply Forall_forall in Hpoints).
      destruct Hpt as [HmaxX _]. pose proof Hhit as Heast.
      unfold intersects, point_box in Heast. simpl in Heast.
      rewrite !andb_true_iff in Heast. destruct Heast as [[_ Heast] _].
      by rewrite HmaxX in Heast. }
    assert (Hpos : 0 < length (ahead rtree loc.1)).
    { destruct (ahead rtree loc.1); [by apply elem_of_nil in Hahead|simpl; lia]. }
    pose proof (shift_leaves_item_behind rtree loc item Hpoints Hin Hhit (Hadv 0 Hpos)) as Hless.
    apply IH; [lia|].
    intros j Hj. specialize (Hadv (S j)). rewrite Nat.iter_succ_r in Hadv.
    apply Hadv. lia.
Qed.

Lemma length_ahead (rtree : list NoteItem) (x : num) : length (ahead rtree x) ≤ length rtree.
Proof. apply length_filter. Qed.

Lemma parseNote_props_returns childNodes props (s : Osm) :
  ∃ props' s',
    parseNote_props childNodes props s = (Returned props', s', []) ∧
    nc_rtree (_noteCache s') = nc_rtree (_noteCache s).
Proof.
  assert (Hcomment : ∀ nodes parsed s, ∃ parsed' s',
            parseComment nodes parsed s = (Returned parsed', s', []) ∧
            nc_rtree (_noteCache s') = nc_rtree (_noteCache s)).
  { induction nodes as [|node rest IH]; intros parsed s0; simpl; [by eexists _, _|].
    destruct (decide _); [apply IH|].
    unfold bind. destruct (bool_decide (nodeName node = "uid")); simpl.
    - unfold user_cached, gets, toLoad_add, modify, ret.
      destruct (negb _ && negb _); simpl;
        match goal with |- context [parseComment rest ?p ?s1] =>
          destruct (IH p s1) as (p' & s' & -> & Hs) end;
        by eexists _, _.
    - destruct (IH (<[nodeName node := textContent node]> parsed) s0) as (p' & s' & -> & Hs).
      by eexists _, _. }
  assert (Hcomments : ∀ comments s, ∃ parsed s',
            _parseComments comments s = (Returned parsed, s', []) ∧
            nc_rtree (_noteCache s') = nc_rtree (_noteCache s)).
  { induction comments as [|comment rest IH]; intros s0; simpl; [by eexists _, _|].
    destruct (decide _); [|apply IH].
    unfold bind. destruct (Hcomment (xml_childNodes comment) ∅ s0) as (p & s1 & -> & Hs1).
    destruct (IH s1) as (ps & s2 & -> & Hs2). simpl.
    eexists _, _. split; [reflexivity|congruence]. }
  revert props s. induction childNodes as [|node rest IH]; intros props s; simpl;
    [by eexists _, _|].
  destruct (decide _); [apply IH|]. destruct (decide _); [|apply IH].
  unfold bind. destruct (Hcomments (xml_childNodes node) s) as (cs & s1 & -> & Hs1).
  match goal with |- context [parseNote_props rest ?p s1] =>
    destruct (IH p s1) as (p' & s' & -> & Hs) end.
  eexists _, _. split; [reflexivity|congruence].
Qed.
End displacement.

Section displacement_result.
Context {N : JsNumber} {T : JsNumberText N} {H : Host N}.

(** Where the loop ends it has shifted the location by [[0.00001, 0.00001]]
    some number of times, each time off an occupied location, onto a
    location that no item occupies. *)
Lemma displace_shifts (fuel : nat) (rtree : list NoteItem) (loc loc' : Vec2) :
  displace fuel rtree loc = Some loc' →
  ∃ k, loc' = Nat.iter k (λ l, vecAdd l (epsilon, epsilon)) loc ∧
       (∀ j, j < k →
          rbush_search ni_box rtree
            (point_box (Nat.iter j (λ l, vecAdd l (epsilon, epsilon)) loc)) ≠ []) ∧
       rbush_search ni_box rtree (point_box loc') = [].
Proof.
  revert loc. induction fuel as [|fuel IH]; intros loc; [done|]. simpl. fold (point_box loc).
  destruct (rbush_search ni_box rtree (point_box loc)) as [|item hits] eqn:Hsearch.
  - intros [= <-]. exists 0. split; [done|]. split; [lia|done].
  - intros (k & -> & Hocc & Hfree)%IH. exists (S k).
    rewrite Nat.iter_succ_r. split; [done|]. split; [|done].
    intros [|j] Hj; [simpl; by rewrite Hsearch|].
    rewrite Nat.iter_succ_r. apply Hocc. lia.
Qed.

(** More iterations than the loop needs change nothing. *)
Lemma displace_more_fuel (fuel fuel' : nat) (rtree : list NoteItem) (loc loc' : Vec2) :
  fuel ≤ fuel' → displace fuel rtree loc = Some loc' → displace fuel' rtree loc = Some loc'.
Proof.
  revert fuel' loc. induction fuel as [|fuel IH]; intros fuel' loc Hle; [done|].
  destruct fuel' as [|fuel']; [lia|]. simpl.
  destruct (rbush_search ni_box rtree _); [done|]. apply IH. lia.
Qed.

(** The loop shifts fewer times than it is given iterations. *)
Lemma displace_bound (fuel : nat) (rtree : list NoteItem) (loc loc' : Vec2) (k : nat) :
  displace fuel rtree loc = Some loc' →
  loc' = Nat.iter k (λ l, vecAdd l (epsilon, epsilon)) loc →
  (∀ j, j < k →
     rbush_search ni_box rtree
       (point_box (Nat.iter j (λ l, vecAdd l (epsilon, epsilon)) loc)) ≠ []) →
  k < fuel.
Proof.
  revert loc k. induction fuel as [|fuel IH]; intros loc k; [done|]. simpl. fold (point_box loc).
  destruct (rbush_search ni_box rtree (point_box loc)) as [|item hits] eqn:Hsearch.
  - intros _ _ Hocc. destruct k as [|k]; [lia|].
    destruct (Hocc 0); [lia|done].
  - intros Hloop Hk Hocc. destruct k as [|k]; [lia|].
    apply ->Nat.succ_lt_mono. apply (IH (vecAdd loc (epsilon, epsilon)) k Hloop).
    + by rewrite Hk, Nat.iter_succ_r.
    + intros j Hj. specialize (Hocc (S j)). rewrite Nat.iter_succ_r in Hocc.
      apply Hocc. lia.
Qed.
End displacement_result.

(** Where [_parseNoteXML] keeps the notes apart.  Let the index of the note
    cache hold single locations, no two items at the same one, and let
    adding [0.00001] advance the longitude at each shift the loop can make,
    at most one per item of the index (it always does in exact arithmetic;
    on doubles it does for longitudes of ordinary magnitude).  Then
    [_parseNoteXML], given more iterations than the index has items,
    returns: it has shifted the location of the note by
    [[0.00001, 0.00001]] as many times as it found the location occupied, it
    inserts the note at a location that no item occupied, and the index
    holds single locations, no two items at the same one, as before. *)
Theorem parseNote_moves_coincident_notes_apart
    {N : JsNumber} {T : JsNumberText N} {H : Host N} (O : OrderedNumber N)
    (fuel : nat) (xml : XmlNode) (uid : string) (s : Osm) :
  let rtree := nc_rtree (_noteCache s) in
  let shift (l : Vec2) := vecAdd l (epsilon, epsilon) in
  let loc := _getLoc (xml_attributes xml) in
  Forall is_point rtree → notes_apart rtree → length rtree < fuel →
  (∀ j, j < length rtree → advances (Nat.iter j shift loc).1) →
  ∃ note s' k,
    _parseNoteXML fuel xml uid s = (Returned note, s', []) ∧
    k ≤ length rtree ∧
    note_loc note = Nat.iter k shift loc ∧
    (∀ j, j < k → rbush_search ni_box rtree (point_box (Nat.iter j shift loc)) ≠ []) ∧
    rbush_search ni_box rtree (point_box (note_loc note)) = [] ∧
    nc_rtree (_noteCache s') = _encodeNoteRtree note :: rtree ∧
    Forall is_point (nc_rtree (_noteCache s')) ∧
    notes_apart (nc_rtree (_noteCache s')).
Proof.
  intros rtree shift loc Hpoints Hapart Hfuel Hadv.
  pose proof (length_ahead rtree loc.1) as Hahead.
  destruct (displace_finds_free (S (length rtree)) rtree loc Hpoints) as (loc' & Hshort & Hfree);
    [lia|intros j Hj; apply Hadv; lia|].
  destruct (displace_shifts _ _ _ _ Hshort) as (k & Hk & Hocc & _).
  assert (Hbound : k ≤ length rtree)
    by (pose proof (displace_bound _ _ _ _ _ Hshort Hk Hocc); lia).
  assert (Hloop : displace fuel rtree loc = Some loc').
  { apply (displace_more_fuel (S (length rtree))); [lia|done]. }
  unfold _parseNoteXML, bind, get. fold rtree. fold loc. rewrite Hloop.
  destruct (parseNote_props_returns (xml_childNodes xml) {[ "id" := FText uid ]} s)
    as (props & s1 & -> & Hs1).
  unfold modify, ret. simpl. rewrite Hs1. fold rtree.
  eexists _, _, k. split; [reflexivity|]. simpl.
  split; [exact Hbound|].
  split; [exact Hk|]. split; [exact Hocc|]. split; [exact Hfree|]. split; [reflexivity|].
  split; [by constructor|].
  by apply notes_apart_insert.
Qed.

(** A cache with one note at the origin, and a note parsed at the origin: it
    is inserted, and no two notes of the index share a location. *)
Lemma parseNote_moves_coincident_notes_apart_witness :
  let s := set_noteCache (set_nc_rtree [bare_note "1" (fixed_loc 0 0)] empty_noteCache)
             (initial (N := FixedNumber)) in
  let xml := XElement "note" [("lon", "0"); ("lat", "0")] [XElement "id" [] [XText "2"]] in
  ∃ note s',
    _parseNoteXML (T := FixedNumberText) 2 xml "2" s = (Returned note, s', []) ∧
    notes_apart (nc_rtree (_noteCache s')).
Proof.
  intros s xml.
  destruct (parseNote_moves_coincident_notes_apart (T := FixedNumberText) (H := plain_host _)
              FixedNumber_ordered 2 xml "2" s)
    as (note & s' & k & Hrun & _ & _ & _ & _ & _ & _ & Hapart).
  - repeat constructor.
  - intros [|[|i]] [|[|j]] a b Hij; simpl; try done.
  - simpl. lia.
  - intros j _. apply fixed_advances.
  - by exists note, s'.
Defined.

(** Far off the map the shift is lost.  At 2^37 the sum with [0.00001]
    rounds back to 2^37 on doubles: a note parsed at a location of that
    magnitude which a note of the index occupies is never moved off it, and
    the loop does not end. *)
Lemma displace_never_ends_on_doubles :
  let far := double_loc 137438953472 137438953472 in
  let rtree := [bare_note "1" far] in
  vecAdd (N := DoubleNumber) far (epsilon, epsilon) = far ∧
  rbush_search (N := DoubleNumber) ni_box rtree (Extent_bbox (Extent_at far)) = rtree ∧
  (∀ fuel, displace (N := DoubleNumber) fuel rtree far = None).
Proof.
  intros far rtree.
  assert (Hfix : vecAdd (N := DoubleNumber) far (epsilon, epsilon) = far)
    by (vm_compute; reflexivity).
  assert (Hhit : rbush_search (N := DoubleNumber) ni_box rtree (Extent_bbox (Extent_at far))
                 = rtree) by (vm_compute; reflexivity).
  split; [exact Hfix|]. split; [exact Hhit|].
  induction fuel as [|fuel IH]; [done|].
  cbn [displace]. rewrite Hhit. unfold rtree at 1. rewrite Hfix. exact IH.
Qed.

(** On doubles the loop ends where each shift advances: within as many
    shifts as the index has items, at a location that no item occupies. *)
Lemma displace_ends_on_doubles (fuel : nat) (rtree : list (NoteItem (N := DoubleNumber)))
    (loc : @num DoubleNumber * @num DoubleNumber) :
  let shift (l : @num DoubleNumber * @num DoubleNumber) := vecAdd l (epsilon, epsilon) in
  Forall is_point rtree → length rtree < fuel →
  (∀ j, j < length rtree → advances (Nat.iter j shift loc).1) →
  ∃ loc' k,
    displace fuel rtree loc = Some loc' ∧
    k ≤ length rtree ∧
    loc' = Nat.iter k shift loc ∧
    rbush_search ni_box rtree (point_box loc') = [].
Proof.
  intros shift Hpoints Hfuel Hadv.
  pose proof (length_ahead rtree loc.1) as Hahead.
  destruct (displace_finds_free (O := DoubleNumber_ordered) (S (length rtree)) rtree loc Hpoints)
    as (loc' & Hshort & Hfree); [lia|intros j Hj; apply Hadv; lia|].
  destruct (displace_shifts _ _ _ _ Hshort) as (k & Hk & Hocc & _).
  pose proof (displace_bound _ _ _ _ _ Hshort Hk Hocc) as Hbound.
  exists loc', k. split; [|split; [lia|done]].
  apply (displace_more_fuel (S (length rtree))); [lia|done].
Qed.

(** A note at 122.5 W, 37.75 N and a second one parsed at the same place:
    one shift moves it to a free location. *)
Lemma displace_ends_on_doubles_witness :
  let loc := double_loc (-122.5) 37.75 in
  let rtree := [bare_note "1" loc] in
  ∃ loc', displace (N := DoubleNumber) 2 rtree loc = Some loc' ∧
          rbush_search (N := DoubleNumber) ni_box rtree (point_box loc') = [].
Proof.
  intros loc rtree.
  destruct (displace_ends_on_doubles 2 rtree loc) as (loc' & k & Hloop & _ & _ & Hfree).
  - repeat constructor.
  - simpl. lia.
  - intros [|j] Hj; [|simpl in Hj; lia]. split; [intros _|]; vm_compute; reflexivity.
  - by exists loc'.
Defined.

(** ** Notes: [replaceNote] does not move a note *)

Section replaced_notes.
Context {N : JsNumber}.





End replaced_notes.


(** ** Failed requests: the retry after a logout *)

Section quiet.
Context {N : JsNumber} {T : JsNumberText N} {H : Host N}.

Definition is_fetch (e : Effect) : bool :=
  match e with Fetch _ _ _ _ => true | _ => false end.

(** What [_wrapcb] does before it hands on an error: it logs out on 400,
    401 and 403. *)
Definition logged_out (e : Err) : list Effect :=
  if is_auth_failure (Some e) then [OauthLogout; Emit "authchange"] else [].

(** A computation that returns, sends no request, and leaves the token and
    the recorded rate-limit error as they are. *)
Definition quiet {A} (m : M A) : Prop :=
  ∀ s, ∃ a s' es,
    m s = (Returned a, s', es) ∧
    oauth_token s' = oauth_token s ∧
    _rateLimitError s' = _rateLimitError s ∧
    Forall (λ e, is_fetch e = false) es.

Lemma quiet_ret {A} (a : A) : quiet (ret a).
Proof. intros s. by eexists _, _, _. Qed.

Lemma quiet_bind {A B} (m : M A) (f : A → M B) :
  quiet m → (∀ a, quiet (f a)) → quiet (bind m f).
Proof.
  intros Hm Hf s. unfold bind.
  destruct (Hm s) as (a & s1 & es1 & -> & Ht1 & Hr1 & Hes1).
  destruct (Hf a s1) as (b & s2 & es2 & -> & Ht2 & Hr2 & Hes2).
  eexists _, _, _. split; [reflexivity|].
  split; [congruence|]. split; [congruence|]. by apply Forall_app.
Qed.

Lemma quiet_get : quiet get.
Proof. intros s. by eexists _, _, _. Qed.

Lemma quiet_effect (e : Effect) : is_fetch e = false → quiet (effect e).
Proof. intros He s. eexists _, _, _. split; [reflexivity|]. by repeat constructor. Qed.

Lemma quiet_modify (f : Osm → Osm) :
  (∀ s, oauth_token (f s) = oauth_token s) →
  (∀ s, _rateLimitError (f s) = _rateLimitError s) →
  quiet (modify f).
Proof. intros Ht Hr s. eexists _, _, _. split; [reflexivity|]. by rewrite Ht, Hr. Qed.

Lemma quiet_when (b : bool) (m : M unit) : quiet m → quiet (when b then m).
Proof. destruct b; [done|]. intros _. apply quiet_ret. Qed.

Lemma quiet_set_inflight c : quiet (set_inflight c).
Proof. by apply quiet_modify. Qed.

(** Handing an error to a callback returns and sends no request, whatever
    closure of the service the callback is. *)
Fixpoint invoke_error (cb : Callback) (e : Err) (v : Value) {struct cb} :
  quiet (invoke cb (Some e) v).
Proof.
  destruct cb as [n| |cid changes cb|cid cb|changeset cb|changeset cb|changeset cb
                  |tile [cb|]|tile|cb|cb|cb|cb|cb|cb|]; simpl.
  - by apply quiet_effect.
  - apply quiet_ret.
  - apply invoke_error.
  - apply invoke_error.
  - apply quiet_bind; [apply quiet_set_inflight|]. intros _. apply invoke_error.
  - apply quiet_bind; [apply quiet_set_inflight|]. intros _. apply invoke_error.
  - apply quiet_bind; [apply quiet_set_inflight|]. intros _.
    apply quiet_bind; [by apply quiet_modify|]. intros _. apply invoke_error.
  - unfold gotTile. apply quiet_bind; [by apply quiet_modify|]. intros _.
    apply quiet_bind; [apply quiet_when; by apply quiet_modify|]. intros _.
    apply quiet_bind; [apply invoke_error|]. intros _.
    apply quiet_bind; [apply quiet_get|]. intros s.
    apply quiet_when. by apply quiet_effect.
  - unfold gotTile. apply quiet_bind; [by apply quiet_modify|]. intros _.
    apply quiet_bind; [apply quiet_when; by apply quiet_modify|]. intros _.
    apply quiet_bind; [apply quiet_ret|]. intros _.
    apply quiet_bind; [apply quiet_get|]. intros s.
    apply quiet_when. by apply quiet_effect.
  - unfold notesTileLoaded. apply quiet_bind; [by apply quiet_modify|]. intros _.
    apply quiet_bind; [apply quiet_when; by apply quiet_modify|]. intros _.
    by apply quiet_effect.
  - apply invoke_error.
  - apply invoke_error.
  - apply invoke_error.
  - apply invoke_error.
  - apply invoke_error.
  - apply invoke_error.
  - unfold reloadedApiStatus. apply quiet_bind; [apply quiet_get|]. intros s.
    apply quiet_when. apply quiet_bind; [by apply quiet_modify|]. intros _.
    by apply quiet_effect.
Qed.
End quiet.

Section retry.
Context {N : JsNumber} {T : JsNumberText N} {H : Host N}.

Lemma quiet_run {A} (m : M A) (s : Osm) :
  quiet m →
  ∃ a s' es, m s = (Returned a, s', es) ∧ oauth_token s' = oauth_token s ∧
             _rateLimitError s' = _rateLimitError s ∧ Forall (λ e, is_fetch e = false) es.
Proof. intros Hm. apply Hm. Qed.

(** [done] of [loadFromAPI] with an error, the client not authenticated:
    the error goes to the callback and no request is sent. *)
Lemma loadFromAPI_done_unauthenticated path callback options cid (e : Err) (b : Body) (s : Osm) :
  oauth_token s = false →
  ∃ s' es, loadFromAPI_done path callback options cid (Some e) b s = (Returned tt, s', es) ∧
           oauth_token s' = false ∧ Forall (λ eff, is_fetch eff = false) es.
Proof.
  intros Htoken. unfold loadFromAPI_done. rewrite bind_get.
  destruct (decide (_connectionID s ≠ cid)) as [|_].
  - destruct callback as [cb|].
    + destruct (invoke_error cb err_connection_switched VUndefined s)
        as ([] & s' & es & -> & Ht & _ & Hes).
      eexists _, _. split; [reflexivity|]. split; [congruence|done].
    + eexists _, _. split; [reflexivity|]. by split.
  - rewrite Htoken. simpl.
    assert (Hcb : quiet (match callback with
                         | Some cb => invoke cb (Some e) VUndefined
                         | None => ret tt
                         end)).
    { destruct callback; [apply invoke_error | apply quiet_ret]. }
    match goal with |- context [if ?b then _ else _] => destruct b end.
    + unfold bind, modify, emit, effect, throttledReloadApiStatus. simpl.
      match goal with |- context [match callback with Some _ => _ | None => _ end ?s0] =>
        destruct (Hcb s0) as ([] & s' & es & -> & Ht & _ & Hes) end.
      eexists _, _. split; [reflexivity|]. split; [by rewrite Ht|].
      by repeat constructor.
    + match goal with |- ∃ s' es, ?m s = _ ∧ _ => assert (Hq : quiet m) end.
      { apply quiet_bind; [|done].
        match goal with |- context [if ?b then _ else _] => destruct b end;
          [by apply quiet_effect | apply quiet_ret]. }
      destruct (Hq s) as ([] & s' & es & -> & Ht & _ & Hes).
      eexists _, _. split; [reflexivity|]. split; [congruence|done].
Qed.
End retry.

Section retry_once.
Context {N : JsNumber} {T : JsNumberText N} {H : Host N}.

(** C7, as amended.  A request of [loadFromAPI] fails with status 400, 401
    or 403 while the connection ID is what it was when the request was made.
    If the client is authenticated, the service logs out, which clears the
    cached user details and user changesets and drops the token, and sends
    the request again with the same path, callback and options, this time
    without the token; when that second request fails the same way, no
    request is sent for it.  More generally, such a failure of a request of
    a client that is not authenticated sends no request: the error goes to
    the callback. *)
Theorem auth_failure_retried_once (fuel : nat) (path : Path) (callback : option Callback)
    (options : Options) (e e' : Err) (s : Osm) :
  (err_status e = Some 400 ∨ err_status e = Some 401 ∨ err_status e = Some 403)%Z →
  let done err := resume fuel (KLoadFromAPI path callback options (_connectionID s)) (FetchError err) in
  let retried :=
    set_next_controller (S (next_controller s))
      (set_oauth_token false (set_userDetails None (set_userChangesets None s))) in
  (oauth_token s = true →
     done e s = (Returned tt, retried,
                 [OauthLogout; Emit "authchange";
                  Fetch false (GET path) (Some (next_controller s))
                    (KLoadFromAPI path callback options (_connectionID s))]) ∧
     _userDetails retried = None ∧ _userChangesets retried = None ∧
     ∃ s' es, done e' retried = (Returned tt, s', es) ∧ Forall (λ eff, is_fetch eff = false) es) ∧
  (oauth_token s = false →
     ∃ s' es, done e' s = (Returned tt, s', es) ∧ oauth_token s' = false ∧
              Forall (λ eff, is_fetch eff = false) es).
Proof.
  intros Hstatus done retried.
  assert (Hfail : is_auth_failure (Some e) = true).
  { unfold is_auth_failure, has_status. rewrite !orb_true_iff, !bool_decide_eq_true. tauto. }
  split.
  - intros Htoken. split; [|split; [done|split; [done|]]].
    + unfold done. simpl. unfold loadFromAPI_done. rewrite bind_get.
      destruct (decide (_connectionID s ≠ _connectionID s)) as [|_]; [done|].
      rewrite Htoken, Hfail. reflexivity.
    + destruct (loadFromAPI_done_unauthenticated path callback options (_connectionID s)
                  e' BEmpty retried) as (s' & es & Hrun & _ & Hes); [done|].
      by exists s', es.
  - intros Htoken. by apply loadFromAPI_done_unauthenticated.
Qed.
End retry_once.

(** A signed-in client asks for its details and the server answers 401: the
    client is logged out and the request sent again without the token; a
    second 401 goes to the caller, and nothing more is sent. *)
Lemma auth_failure_retried_once_witness :
  let s := set_oauth_token true (initial (N := FixedNumber)) in
  let e := {| err_message := "Unauthorized"; err_status := Some 401%Z |} in
  let k := KLoadFromAPI PathUserDetails (Some (UserCb 1)) {| skipSeen := true |} 0 in
  ∃ s1, resume (T := FixedNumberText) (H := plain_host _) 0 k (FetchError e) s
          = (Returned tt, s1, [OauthLogout; Emit "authchange";
                               Fetch false (GET PathUserDetails) (Some 0) k]) ∧
        ∃ s2 es, resume (T := FixedNumberText) (H := plain_host _) 0 k (FetchError e) s1
                   = (Returned tt, s2, es) ∧
                 Forall (λ eff, is_fetch eff = false) es.
Proof.
  intros s e k.
  destruct (auth_failure_retried_once (T := FixedNumberText) (H := plain_host _) 0
              PathUserDetails (Some (UserCb 1)) {| skipSeen := true |} e e s) as [Hretry _].
  { right. left. reflexivity. }
  destruct (Hretry eq_refl) as (Hrun & _ & _ & Hagain).
  eexists. split; [exact Hrun | exact Hagain].
Defined.

(** C7, as stated, fails once the connection ID has moved on, as it does
    with every [resetAsync].  A signed-in client made a request on
    connection 0; the service is on connection 1 when the server answers
    401: [done] hands 'Connection Switched' to the callback and returns.
    The client is not logged out and the request is not sent again. *)
Lemma auth_failure_on_switched_connection :
  let s := set_connectionID 1 (set_oauth_token true (initial (N := FixedNumber))) in
  let e := {| err_message := "Unauthorized"; err_status := Some 401%Z |} in
  resume (T := FixedNumberText) (H := plain_host _) 0
    (KLoadFromAPI PathUserDetails (Some (UserCb 1)) {| skipSeen := true |} 0) (FetchError e) s
    = (Returned tt, s, [Invoke 1 (Some err_connection_switched) VUndefined]).
Proof. reflexivity. Qed.

(** ** The rate limit: recorded, reported, cleared *)

Section rate_limit.
Context {N : JsNumber} {T : JsNumberText N} {H : Host N}.

(** [userChangesets] with a callback that does nothing returns and leaves
    the recorded rate-limit error as it is. *)
Lemma userChangesets_noop (s : Osm) :
  ∃ s' es, userChangesets noop s = (Returned tt, s', es) ∧
           _rateLimitError s' = _rateLimitError s.
Proof.
  unfold userChangesets. rewrite bind_get.
  destruct (_userChangesets s) as [d|]; [by eexists _, _|].
  unfold userDetails. rewrite bind_get.
  destruct (_userDetails s) as [d|]; simpl; by eexists _, _.
Qed.

(** C6, as amended.  (1) A request of [loadFromAPI] of a client that is not
    authenticated fails with status 429 or 509 while the connection ID is
    what it was when the request was made, no rate-limit error being
    recorded: the service records the error, emits 'authchange' and calls
    for a throttled reload of the API status, then hands the error to the
    callback.  (2) With a rate-limit error recorded, [status] asks for the
    capabilities; when that request succeeds on the same connection the
    callback receives the recorded error and 'rateLimited', and when it
    fails the callback receives the error of the request and [null].
    (3) When [authenticate] succeeds on the connection it was called on, no
    rate-limit error is recorded any more. *)
Theorem rate_limit_recorded_reported_cleared (fuel : nat) (s : Osm) (e : Err) :
  let cid := _connectionID s in
  (∀ path callback options,
     (err_status e = Some 429 ∨ err_status e = Some 509)%Z →
     oauth_token s = false → _rateLimitError s = None →
     ∃ s' es,
       resume fuel (KLoadFromAPI path callback options cid) (FetchError e) s
         = (Returned tt, s', Emit "authchange" :: ThrottledReloadApiStatus :: es) ∧
       _rateLimitError s' = Some e ∧
       Forall (λ eff, is_fetch eff = false) es) ∧
  (∀ n b,
     _rateLimitError s = Some e →
     status (UserCb n) s
       = (Returned tt, s,
          [Fetch false GET_capabilities None (KStatus cid (StatusGotResult (UserCb n)))]) ∧
     resume fuel (KStatus cid (StatusGotResult (UserCb n))) (Fulfilled b) s
       = (Returned tt, s, [Invoke n (Some e) (VString "rateLimited")]) ∧
     ∀ e', ∃ s',
       resume fuel (KStatus cid (StatusGotResult (UserCb n))) (FetchError e') s
         = (Returned tt, s', logged_out e' ++ [Invoke n (Some e') VNull])) ∧
  (∀ n b,
     authenticate (UserCb <$> n) s
       = (Returned tt, set_userDetails None (set_userChangesets None s),
          [OauthAuthenticate (KAuthenticated cid (UserCb <$> n))]) ∧
     ∃ s' es,
       resume fuel (KAuthenticated cid (UserCb <$> n)) (Fulfilled b) s
         = (Returned tt, s', Emit "authchange" :: es) ∧
       _rateLimitError s' = None).
Proof.
  intros cid. split; [|split].
  - intros path callback options Hstatus Htoken Hnone. simpl.
    assert (Hrate : is_rate_limit (Some e) = true).
    { unfold is_rate_limit, has_status. rewrite !orb_true_iff, !bool_decide_eq_true. tauto. }
    assert (Hfail : is_auth_failure (Some e) = false).
    { unfold is_auth_failure, has_status. destruct Hstatus as [-> | ->]; done. }
    unfold loadFromAPI_done. rewrite bind_get.
    destruct (decide (_connectionID s ≠ cid)) as [|_]; [done|].
    rewrite Htoken, Hnone, Hrate. simpl.
    assert (Hcb : quiet (match callback with
                         | Some cb => invoke cb (Some e) VUndefined
                         | None => ret tt
                         end)).
    { destruct callback; [apply invoke_error | apply quiet_ret]. }
    unfold bind, modify, emit, effect, throttledReloadApiStatus. simpl.
    match goal with |- context [match callback with Some _ => _ | None => _ end ?s0] =>
      destruct (Hcb s0) as ([] & s' & es & -> & _ & Hr & Hes) end.
    eexists _, _. split; [reflexivity|]. by split.
  - intros n b Hlimit. split; [done|]. split.
    + simpl. unfold catch, _wrapcb. rewrite bind_get.
      destruct (decide (_connectionID s ≠ cid)) as [|_]; [done|].
      simpl. unfold status_gotResult. rewrite bind_get, Hlimit. done.
    + intros e'. simpl. unfold logged_out.
      destruct (is_auth_failure (Some e')); by eexists.
  - intros n b. split; [done|]. simpl.
    unfold authenticate_done, bind at 1, modify at 1. rewrite bind_get.
    destruct (decide (_connectionID (set_oauth_token true s) ≠ cid)) as [|_]; [done|].
    unfold bind at 1, modify at 1. unfold bind at 1, emit, effect at 1.
    destruct n as [n|]; simpl; unfold bind, effect, ret;
      match goal with |- context [userChangesets noop ?s0] =>
        destruct (userChangesets_noop s0) as (s' & es & -> & Hr) end;
      eexists _, _; (split; [reflexivity|]); by rewrite Hr.
Qed.
End rate_limit.

(** A request for map data of a client that is not signed in is answered
    429: the error is recorded; [status] then reports it with 'rateLimited'
    once the capabilities arrive. *)
Lemma rate_limit_recorded_reported_cleared_witness :
  let e := {| err_message := "Too Many Requests"; err_status := Some 429%Z |} in
  let s := initial (N := FixedNumber) in
  let limited := set_rateLimitError (Some e) s in
  (∃ s' es,
     resume (T := FixedNumberText) (H := plain_host _) 0
       (KLoadFromAPI PathUserDetails (Some (UserCb 1)) {| skipSeen := true |} 0) (FetchError e) s
       = (Returned tt, s', Emit "authchange" :: ThrottledReloadApiStatus :: es) ∧
     _rateLimitError s' = Some e) ∧
  resume (T := FixedNumberText) (H := plain_host _) 0
    (KStatus 0 (StatusGotResult (UserCb 2))) (Fulfilled BEmpty) limited
    = (Returned tt, limited, [Invoke 2 (Some e) (VString "rateLimited")]).
Proof.
  intros e s limited. split.
  - destruct (rate_limit_recorded_reported_cleared (T := FixedNumberText) (H := plain_host _)
                0 s e) as [Hrecord _].
    destruct (Hrecord PathUserDetails (Some (UserCb 1)) {| skipSeen := true |})
      as (s' & es & Hrun & Hlimit & _); [by left|reflexivity..|].
    by exists s', es.
  - destruct (rate_limit_recorded_reported_cleared (T := FixedNumberText) (H := plain_host _)
                0 limited e) as (_ & Hreport & _).
    by destruct (Hreport 2 BEmpty) as (_ & Hlimited & _).
Defined.

(** With a rate-limit error recorded, [status] is called and its request
    fails with 503: the callback receives the error of the request and
    [null], neither the recorded error nor 'rateLimited'. *)
Lemma status_reports_failed_request_first :
  let limited := {| err_message := "Too Many Requests"; err_status := Some 429%Z |} in
  let unavailable := {| err_message := "Service Unavailable"; err_status := Some 503%Z |} in
  let s := set_rateLimitError (Some limited) (initial (N := FixedNumber)) in
  trace <$> run (T := FixedNumberText) (H := plain_host _) 0 (boot s)
              [Call (status (UserCb 1)); Settle 0 (FetchError unavailable)]
    = Some [Fetch false GET_capabilities None (KStatus 0 (StatusGotResult (UserCb 1)));
            Invoke 1 (Some unavailable) VNull].
Proof. reflexivity. Qed.

(** ** Tiles: one request each, but for the retry *)

Section tile_requests.
Context {N : JsNumber} {T : JsNumberText N} {H : Host N}.

(** [loadTile] does nothing for a tile that is marked loaded or has an
    entry in the table of requests in flight. *)
Lemma loadTile_skips_known_tile (tile : Tile) (callback : option Callback) (s : Osm) :
  tile_id tile ∈ tc_loaded (_tileCache s) ∨ al_has (tile_id tile) (tc_inflight (_tileCache s)) = true →
  loadTile tile callback s = (Returned tt, s, []).
Proof.
  intros Hknown. unfold loadTile. rewrite bind_get.
  destruct (_off s); [done|].
  assert (bool_decide (tile_id tile ∈ tc_loaded (_tileCache s))
          || al_has (tile_id tile) (tc_inflight (_tileCache s)) = true) as ->; [|done].
  rewrite orb_true_iff, bool_decide_eq_true. done.
Qed.

(** So does [loadNotes] for a note tile that is loaded or in flight. *)
Lemma loadNotes_skips_known_tile (noteOptions : NoteOptions) (tile : Tile) (s : Osm) :
  tile_id tile ∈ nc_loaded (_noteCache s) ∨ al_has (tile_id tile) (nc_inflight (_noteCache s)) = true →
  loadNotes_tile noteOptions tile s = (Returned tt, s, []).
Proof.
  intros Hknown. unfold loadNotes_tile. rewrite bind_get.
  assert (bool_decide (tile_id tile ∈ nc_loaded (_noteCache s))
          || al_has (tile_id tile) (nc_inflight (_noteCache s)) = true) as ->; [|done].
  rewrite orb_true_iff, bool_decide_eq_true. done.
Qed.
End tile_requests.

(** A tile with a request in flight is not requested again, by [loadTile]
    or by [loadNotes]. *)
Lemma loadTile_skips_known_tile_witness :
  let tile := fixed_tile "35241,21480,16" 0 0 1000 1000 in
  let s := set_tileCache (set_tc_inflight [(tile_id tile, 0)] empty_tileCache)
             (initial (N := FixedNumber)) in
  loadTile (H := plain_host _) tile (Some (UserCb 1)) s = (Returned tt, s, []).
Proof.
  intros tile s. apply (loadTile_skips_known_tile (H := plain_host _)). right. reflexivity.
Defined.

Lemma loadNotes_skips_known_tile_witness :
  let tile := fixed_tile "8810,5370,14" 0 0 4000 4000 in
  let s := set_noteCache (set_nc_inflight [(tile_id tile, 0)] empty_noteCache)
             (initial (N := FixedNumber)) in
  loadNotes_tile (H := plain_host _) {| limit := "10000"; closed := "7" |} tile s
    = (Returned tt, s, []).
Proof.
  intros tile s. apply (loadNotes_skips_known_tile (H := plain_host _)). right. reflexivity.
Defined.

(** C3, where it fails.  A signed-in client loads a tile and the server
    answers 401: [done] logs out and sends the request again, and the
    controller of that second request is recorded nowhere, the table of
    requests in flight still holding the controller of the first.  The view
    moves off the tile: [loadTiles] aborts the controller in the table,
    which has nothing left to abort, and deletes the entry.  The view moves
    back: [loadTile] finds the tile neither loaded nor in flight and sends a
    third request, while the second is still on the network.  Two requests
    for the one tile are in flight, and the table knows one of them. *)
Theorem retried_tile_requested_twice :
  let tile := fixed_tile "35241,21480,16" 0 0 1000 1000 in
  let unauthorized := {| err_message := "Unauthorized"; err_status := Some 401%Z |} in
  let request controller :=
    {| rq_request := GET (PathMap (wgs84Extent tile)); rq_controller := Some controller;
       rq_kont := KLoadFromAPI (PathMap (wgs84Extent tile)) (Some (GotTile tile (Some (UserCb 1))))
                    {| skipSeen := true |} 0;
       rq_aborted := false |} in
  let seen w := (tile_requests w (tile_id tile), tc_inflight (_tileCache (service w))) in
  seen <$> run (T := FixedNumberText) (H := plain_host _) 0
             (boot (set_oauth_token true initial))
             [Call (loadTile (H := plain_host _) tile (Some (UserCb 1)));
              Settle 0 (FetchError unauthorized);
              Call (loadTiles (H := plain_host _) [] (Some (UserCb 1)));
              Call (loadTiles (H := plain_host _) [tile] (Some (UserCb 1)))]
    = Some ([request 1; request 2], [(tile_id tile, 2)]).
Proof. reflexivity. Qed.

(** ** The changeset lifecycle of [sendChangeset] *)

Section lifecycle.
Context {N : JsNumber} {T : JsNumberText N} {H : Host N}.

Definition is_invoke (e : Effect) : bool :=
  match e with Invoke _ _ _ => true | _ => false end.

(** C1, as amended.  [sendChangeset] runs the lifecycle in order.
    (1) It starts with [createChangeset]: refused by a guard, the user
    callback receives the error; with a changeset open, that changeset is
    reused and the upload is sent; otherwise the request that creates the
    changeset is sent.  (2) If that request is answered with an error, or
    answered after the connection ID has changed, the user callback receives
    the error and nothing more is sent; if it succeeds the changes are
    uploaded to the changeset created, unless the user has been logged out
    meanwhile: then [uploadChangeset] is refused by its guard, the user
    callback receives 'Not Authenticated' and nothing is sent, the changeset
    staying open.  (3) If the upload is answered with an error, or after the
    connection ID has changed, the user callback receives the error and
    nothing more is sent; if it succeeds a timer of 2500 ms is armed and,
    the connection ID being what it was when [sendChangeset] was called, the
    request that closes the changeset is sent; when [closeChangeset] is
    refused by a guard instead, the timer is armed all the same and the user
    callback is not called.  (4) The timer clears the open-changeset ID and
    calls the user callback without an error.  (5) However the closing
    request ends, the user callback is not called for it and nothing is
    sent. *)
Theorem sendChangeset_lifecycle (fuel : nat) (s : Osm) (changeset : Changeset)
    (changes : string) (n : nat) :
  let cid := _connectionID s in
  let uploaded := SendUploaded cid (UserCb n) in
  let created := SendCreated cid changes (UserCb n) in
  let create := KChangeset cid (CreatedChangeset changeset created) in
  let upload c := KChangeset cid (UploadedChangeset c uploaded) in
  let close c := KChangeset cid (ClosedChangeset c Noop) in
  let done c := KSendDone (VChangeset c) (UserCb n) in
  let send := sendChangeset changeset changes (closure (UserCb n)) in
  let inflight controller s1 := set_changeset (set_cs_inflight controller (_changeset s1)) s1 in
  (* 1: the first step *)
  ((isChangesetInflight s = true →
      send s = (Returned tt, s, [Invoke n (Some err_inflight) VUndefined])) ∧
   (isChangesetInflight s = false → oauth_token s = false →
      send s = (Returned tt, s, [Invoke n (Some err_not_authenticated) VUndefined])) ∧
   (∀ id, isChangesetInflight s = false → oauth_token s = true →
      openChangesetID (_changeset s) = Id id → id ≠ "" →
      let c := Changeset_update_id changeset (Id id) in
      ∃ s', send s = (Returned tt, s',
                      [Fetch true (POST_changeset_upload (Id id) c changes)
                         (Some (next_controller s)) (upload c)])) ∧
   (isChangesetInflight s = false → oauth_token s = true →
    truthy (openChangesetID (_changeset s)) = false →
      ∃ s', send s = (Returned tt, s',
                      [Fetch true (PUT_changeset_create changeset)
                         (Some (next_controller s)) create]))) ∧
  (* 2: the changeset is created, or not *)
  ((∀ e s1, ∃ s',
      resume fuel create (FetchError e) s1
        = (Returned tt, s', logged_out e ++ [Invoke n (Some e) (VChangeset changeset)])) ∧
   (∀ b s1, _connectionID s1 ≠ cid →
      resume fuel create (Fulfilled b) s1
        = (Returned tt, inflight None s1,
           [Invoke n (Some err_connection_switched) (VChangeset changeset)])) ∧
   (∀ id s1, _connectionID s1 = cid → oauth_token s1 = true →
      let c := Changeset_update_id changeset (Id id) in
      ∃ s', resume fuel create (Fulfilled (BText id)) s1
              = (Returned tt, s',
                 [Fetch true (POST_changeset_upload (Id id) c changes)
                    (Some (next_controller s1)) (upload c)]) ∧
            openChangesetID (_changeset s') = Id id) ∧
   (∀ b s1, _connectionID s1 = cid → oauth_token s1 = false →
      ∃ s', resume fuel create (Fulfilled b) s1
              = (Returned tt, s', [Invoke n (Some err_not_authenticated) VUndefined]) ∧
            openChangesetID (_changeset s') = jsid_of_value (VBody b) ∧
            cs_inflight (_changeset s') = None)) ∧
  (* 3: the changes are uploaded, or not *)
  ((∀ c e s1, ∃ s',
      resume fuel (upload c) (FetchError e) s1
        = (Returned tt, s', logged_out e ++ [Invoke n (Some e) (VChangeset c)])) ∧
   (∀ c b s1, _connectionID s1 ≠ cid →
      resume fuel (upload c) (Fulfilled b) s1
        = (Returned tt, inflight None s1,
           [Invoke n (Some err_connection_switched) (VChangeset c)])) ∧
   (∀ c b s1, _connectionID s1 = cid → oauth_token s1 = true →
              cs_id c = openChangesetID (_changeset s1) →
      ∃ s', resume fuel (upload c) (Fulfilled b) s1
              = (Returned tt, s',
                 [SetTimeout (done c) 2500;
                  Fetch true (PUT_changeset_close (cs_id c)) (Some (next_controller s1)) (close c)])) ∧
   (∀ c s1, _connectionID s1 ≠ cid →
      invoke uploaded None (VChangeset c) s1 = (Returned tt, s1, [SetTimeout (done c) 2500])) ∧
   (∀ c b s1, _connectionID s1 = cid →
      ∃ s' es, resume fuel (upload c) (Fulfilled b) s1
                 = (Returned tt, s', SetTimeout (done c) 2500 :: es) ∧
               (es = [] ∨
                es = [Fetch true (PUT_changeset_close (cs_id c)) (Some (next_controller s1))
                        (close c)]))) ∧
  (* 4: the timer *)
  (∀ c r s1,
     resume fuel (done c) r s1
       = (Returned tt, set_changeset (set_openChangesetID Null (_changeset s1)) s1,
          [Invoke n None (VChangeset c)])) ∧
  (* 5: the changeset is closed, or not *)
  (∀ c r s1, ∃ s' es,
     resume fuel (close c) r s1 = (Returned tt, s', es) ∧
     Forall (λ eff, is_invoke eff = false ∧ is_fetch eff = false) es).
Proof.
  intros cid uploaded created create upload close done send inflight.
  split; [|split; [|split; [|split]]].
  - unfold send, sendChangeset. rewrite bind_get. split; [|split; [|split]].
    + intros Hin. by rewrite createChangeset_inflight.
    + intros Hin Hau. by rewrite createChangeset_unauthenticated.
    + intros id Hin Hau Hopen Hid.
      unfold createChangeset. rewrite bind_get, Hin, Hau, Hopen. simpl.
      destruct id as [|a id]; [done|]. simpl.
      unfold createdChangeset, bind at 1, set_inflight at 1, modify at 1.
      unfold bind at 1, set_open at 1, modify at 1.
      unfold sendChangeset_created, uploadChangeset. rewrite bind_get. simpl. rewrite Hau. simpl.
      rewrite bool_decide_eq_false_2 by (intros Hne; by apply Hne).
      by eexists.
    + intros Hin Hau Hopen.
      unfold createChangeset. rewrite bind_get, Hin, Hau, Hopen. simpl.
      by eexists.
  - split; [|split; [|split]].
    + intros e s1. simpl. unfold logged_out.
      destruct (is_auth_failure (Some e)); by eexists.
    + intros b s1 Hcid. simpl. unfold catch, _wrapcb. rewrite bind_get.
      destruct (decide (_connectionID s1 ≠ cid)) as [_|]; done.
    + intros id s1 Hcid Hau c. simpl. unfold catch, _wrapcb. rewrite bind_get.
      destruct (decide (_connectionID s1 ≠ cid)) as [|_]; [done|].
      unfold createdChangeset, bind at 1, set_inflight at 1, modify at 1.
      unfold bind at 1, set_open at 1, modify at 1.
      unfold sendChangeset_created, uploadChangeset. rewrite bind_get. simpl. rewrite Hau. simpl.
      rewrite bool_decide_eq_false_2 by (intros Hne; by apply Hne).
      rewrite Hcid. eexists. split; reflexivity.
    + intros b s1 Hcid Hau. simpl. unfold catch, _wrapcb. rewrite bind_get.
      destruct (decide (_connectionID s1 ≠ cid)) as [|_]; [done|].
      unfold createdChangeset, bind at 1, set_inflight at 1, modify at 1.
      unfold bind at 1, set_open at 1, modify at 1.
      unfold sendChangeset_created, uploadChangeset. rewrite bind_get. simpl. rewrite Hau. simpl.
      eexists. split; [reflexivity|]. by split.
  - split; [|split; [|split; [|split]]].
    + intros c e s1. simpl. unfold logged_out.
      destruct (is_auth_failure (Some e)); by eexists.
    + intros c b s1 Hcid. simpl. unfold catch, _wrapcb. rewrite bind_get.
      destruct (decide (_connectionID s1 ≠ cid)) as [_|]; done.
    + intros c b s1 Hcid Hau Hid. simpl. unfold catch, _wrapcb. rewrite bind_get.
      destruct (decide (_connectionID s1 ≠ cid)) as [|_]; [done|].
      unfold uploadedChangeset, bind at 1, set_inflight at 1, modify at 1.
      unfold sendChangeset_uploaded, bind at 1, effect at 1. rewrite bind_get. simpl.
      rewrite bool_decide_eq_true_2 by done.
      unfold closeChangeset. rewrite bind_get. simpl. rewrite Hau. simpl.
      rewrite bool_decide_eq_false_2 by (intros Hne; by apply Hne).
      rewrite Hcid. by eexists.
    + intros c s1 Hcid. simpl. unfold sendChangeset_uploaded, bind at 1, effect at 1.
      rewrite bind_get. rewrite bool_decide_eq_false_2 by done. done.
    + intros c b s1 Hcid. simpl. unfold catch, _wrapcb. rewrite bind_get.
      destruct (decide (_connectionID s1 ≠ cid)) as [|_]; [done|].
      unfold uploadedChangeset, bind at 1, set_inflight at 1, modify at 1.
      unfold sendChangeset_uploaded, bind at 1, effect at 1. rewrite bind_get. simpl.
      rewrite bool_decide_eq_true_2 by done.
      unfold closeChangeset. rewrite bind_get. simpl.
      destruct (oauth_token s1); simpl; [|eexists _, _; split; [reflexivity|by left]].
      case_bool_decide; simpl; eexists _, _; (split; [reflexivity|]); [by left|].
      right. by rewrite Hcid.
  - intros c r s1. done.
  - intros c r s1. simpl. destruct r as [b|e| |]; simpl.
    + unfold catch, _wrapcb. rewrite bind_get.
      destruct (decide (_connectionID s1 ≠ cid)); eexists _, _; (split; [reflexivity|]);
        by repeat constructor.
    + destruct (is_auth_failure (Some e)); eexists _, _; (split; [reflexivity|]);
        by repeat constructor.
    + eexists _, _. split; [reflexivity|]. by repeat constructor.
    + eexists _, _. split; [reflexivity|]. by repeat constructor.
Qed.
End lifecycle.

(** A signed-in client with no changeset open sends one: the first request
    creates the changeset. *)
Lemma sendChangeset_lifecycle_witness :
  let s := set_oauth_token true (initial (N := FixedNumber)) in
  let changeset := {| cs_id := Undefined; cs_content := "comment=survey" |} in
  ∃ s', sendChangeset changeset "changes" (closure (H := plain_host _) (UserCb 7)) s
          = (Returned tt, s',
             [Fetch true (PUT_changeset_create changeset) (Some 0)
                (KChangeset 0 (CreatedChangeset changeset (SendCreated 0 "changes" (UserCb 7))))]).
Proof.
  intros s changeset.
  destruct (sendChangeset_lifecycle (T := FixedNumberText) (H := plain_host _)
              0 s changeset "changes" 7) as [(_ & _ & _ & Hstart) _].
  apply Hstart; reflexivity.
Defined.

(** The changeset is created as 42 and the changes are uploaded; the
    request that closes it fails with 409.  The user callback is called
    once, by the timer, without an error: the failure of the third step of
    the lifecycle does not reach it. *)
Lemma close_failure_goes_unreported :
  let changeset := {| cs_id := Undefined; cs_content := "comment=survey" |} in
  let created := {| cs_id := Id "42"; cs_content := "comment=survey" |} in
  let conflict := {| err_message := "Conflict"; err_status := Some 409%Z |} in
  trace <$> run (T := FixedNumberText) (H := plain_host _) 0
              (boot (set_oauth_token true initial))
              [Call (sendChangeset changeset "changes" (closure (H := plain_host _) (UserCb 7)));
               Settle 0 (Fulfilled (BText "42"));
               Settle 0 (Fulfilled BEmpty);
               Settle 0 (FetchError conflict);
               Timer 0]
    = Some [Fetch true (PUT_changeset_create changeset) (Some 0)
              (KChangeset 0 (CreatedChangeset changeset (SendCreated 0 "changes" (UserCb 7))));
            Fetch true (POST_changeset_upload (Id "42") created "changes") (Some 1)
              (KChangeset 0 (UploadedChangeset created (SendUploaded 0 (UserCb 7))));
            SetTimeout (KSendDone (VChangeset created) (UserCb 7)) 2500;
            Fetch true (PUT_changeset_close (Id "42")) (Some 2)
              (KChangeset 0 (ClosedChangeset created Noop));
            Invoke 7 None (VChangeset created)].
Proof. reflexivity. Qed.

(** * Further properties of the service

    ** Requests in flight: what [_abortUnwantedRequests] keeps *)

Section unwanted.
Context {N : JsNumber}.

(** A request is wanted while its tile is queued in [toLoad] or visible. *)
Definition wanted (toLoad : gset string) (visibleTiles : list Tile) (k : string) : bool :=
  bool_decide (k ∈ toLoad) || existsb (λ tile, bool_decide (tile_id tile = k)) visibleTiles.

Lemma al_delete_filter {V} (k : string) (l : list (string * V)) :
  al_delete k l = filter (λ kv, kv.1 ≠ k) l.
Proof.
  induction l as [|[k' v] l IH]; [done|]. simpl. rewrite filter_cons. simpl.
  destruct (decide (k = k')) as [->|Hne].
  - by rewrite decide_False by (by intros []).
  - rewrite decide_True by done. by rewrite IH.
Qed.

Lemma filter_iff_in {A} (P Q : A → Prop) `{∀ x, Decision (P x)} `{∀ x, Decision (Q x)}
    (l : list A) :
  (∀ x, x ∈ l → P x ↔ Q x) → filter P l = filter Q l.
Proof.
  induction l as [|x l IH]; intros Hl; [done|].
  rewrite !filter_cons, IH by (intros; apply Hl; by right).
  destruct (decide (P x)), (decide (Q x)); try done; exfalso;
    pose proof (Hl x ltac:(left)); tauto.
Qed.

Lemma abortUnwanted_spec (toLoad : gset string) (visibleTiles : list Tile)
    (keys inflight : list (string * nat)) (s : Osm) :
  let unwanted := filter (λ kv, wanted toLoad visibleTiles kv.1 = false) keys in
  abortUnwanted toLoad visibleTiles keys inflight s
    = (Returned (filter (λ kv, kv.1 ∉ unwanted.*1) inflight), s, Abort <$> unwanted.*2).
Proof.
  revert inflight. induction keys as [|[k c] keys IH]; intros inflight; simpl.
  - unfold ret. do 3 f_equal. induction inflight as [|kv l IHl]; [done|].
    rewrite filter_cons_True by apply not_elem_of_nil. by f_equal.
  - assert (Hstep : abortUnwanted toLoad visibleTiles ((k, c) :: keys) inflight s
                    = if wanted toLoad visibleTiles k
                      then abortUnwanted toLoad visibleTiles keys inflight s
                      else (_abortRequest c >>>
                            abortUnwanted toLoad visibleTiles keys (al_delete k inflight)) s).
    { simpl. unfold wanted. destruct (bool_decide (k ∈ toLoad)); [done|].
      by destruct (existsb _ visibleTiles). }
    simpl in Hstep. rewrite Hstep, filter_cons. simpl.
    destruct (wanted toLoad visibleTiles k) eqn:Hw.
    { rewrite decide_False by done. apply IH. }
    rewrite decide_True by done.
    unfold bind, _abortRequest, effect. rewrite IH. simpl. do 3 f_equal.
    rewrite al_delete_filter, list_filter_filter. apply list_filter_iff.
    intros [k' c']. simpl. rewrite not_elem_of_cons. tauto.
Qed.
End unwanted.

Section unwanted_requests.
Context {N : JsNumber} {T : JsNumberText N} {H : Host N}.

(** The entries the loop leaves in the table are those of the wanted
    tiles. *)
Lemma kept_are_wanted (toLoad : gset string) (visibleTiles : list Tile)
    (inflight : list (string * nat)) :
  filter (λ kv, kv.1 ∉ (filter (λ kv, wanted toLoad visibleTiles kv.1 = false) inflight).*1)
    inflight
  = filter (λ kv, wanted toLoad visibleTiles kv.1 = true) inflight.
Proof.
  apply filter_iff_in. intros [k c] Hin. simpl. split.
  - intros Hnot. destruct (wanted toLoad visibleTiles k) eqn:Hw; [done|].
    destruct Hnot. apply (list_elem_of_fmap_2 fst _ (k, c)).
    by apply list_elem_of_filter.
  - intros Hw [[k' c'] [-> [Hw' _]%list_elem_of_filter]]%list_elem_of_fmap.
    simpl in *. congruence.
Qed.

(** [_abortUnwantedRequests] leaves the service as it is but for the table it
    is given: it keeps the entries of the tiles that are queued or visible,
    in their order, and aborts the controller of every other entry, each
    once, in the order of the table. *)
Theorem abortUnwantedRequests_keeps_wanted (toLoad : gset string)
    (inflight : list (string * nat)) (visibleTiles : list Tile) (s : Osm) :
  _abortUnwantedRequests toLoad inflight visibleTiles s
    = (Returned (filter (λ kv, wanted toLoad visibleTiles kv.1 = true) inflight), s,
       Abort <$> (filter (λ kv, wanted toLoad visibleTiles kv.1 = false) inflight).*2).
Proof.
  unfold _abortUnwantedRequests. rewrite abortUnwanted_spec. cbv zeta.
  by rewrite kept_are_wanted.
Qed.
End unwanted_requests.

(** ** Tiles: the view is covered *)

Section al_table.
Context {V : Type}.

Lemma al_lookup_al_set (k k' : string) (v : V) (l : list (string * V)) :
  al_lookup k (al_set k' v l) = if decide (k = k') then Some v else al_lookup k l.
Proof.
  induction l as [|[k0 v0] l IH]; simpl; [done|].
  destruct (decide (k' = k0)) as [->|Hne]; simpl; rewrite ?IH;
    repeat (case_decide; simplify_eq/=); done.
Qed.

Lemma al_lookup_al_delete (k k' : string) (l : list (string * V)) :
  al_lookup k (al_delete k' l) = if decide (k = k') then None else al_lookup k l.
Proof.
  induction l as [|[k0 v0] l IH]; simpl; [by case_decide|].
  destruct (decide (k' = k0)) as [->|Hne]; simpl; rewrite ?IH;
    repeat (case_decide; simplify_eq/=); done.
Qed.

Lemma al_has_al_set (k k' : string) (v : V) (l : list (string * V)) :
  al_has k (al_set k' v l) = bool_decide (k = k') || al_has k l.
Proof.
  unfold al_has. rewrite al_lookup_al_set.
  destruct (decide (k = k')); [by rewrite bool_decide_eq_true_2|by rewrite bool_decide_eq_false_2].
Qed.

Lemma al_has_al_delete (k k' : string) (l : list (string * V)) :
  al_has k (al_delete k' l) = negb (bool_decide (k = k')) && al_has k l.
Proof.
  unfold al_has. rewrite al_lookup_al_delete.
  destruct (decide (k = k')); [by rewrite bool_decide_eq_true_2|by rewrite bool_decide_eq_false_2].
Qed.
End al_table.

Section tile_coverage.
Context {N : JsNumber} {T : JsNumberText N} {H : Host N}.

(** A tile the tile cache knows: marked loaded, or with a request in
    flight. *)
Definition tile_known (s : Osm) (id : string) : Prop :=
  id ∈ tc_loaded (_tileCache s) ∨ al_has id (tc_inflight (_tileCache s)) = true.

Definition is_abort (e : Effect) : bool :=
  match e with Abort _ => true | _ => false end.

(** A request for the data of a tile. *)
Definition map_request (tile : Tile) (e : Effect) : Prop :=
  ∃ authenticated controller cid,
    e = Fetch authenticated (GET (PathMap (wgs84Extent tile))) (Some controller)
          (KLoadFromAPI (PathMap (wgs84Extent tile)) (Some (GotTile tile None))
             {| skipSeen := true |} cid) ∨
    ∃ callback,
      e = Fetch authenticated (GET (PathMap (wgs84Extent tile))) (Some controller)
            (KLoadFromAPI (PathMap (wgs84Extent tile)) (Some (GotTile tile (Some callback)))
               {| skipSeen := true |} cid).

Lemma loadTile_run (tile : Tile) (callback : option Callback) (s : Osm) :
  _off s = false →
  ∃ s' es,
    loadTile tile callback s = (Returned tt, s', es) ∧
    _off s' = false ∧
    tile_known s' (tile_id tile) ∧
    (∀ id, tile_known s id → tile_known s' id) ∧
    (∀ id c, al_lookup id (tc_inflight (_tileCache s)) = Some c →
             al_lookup id (tc_inflight (_tileCache s')) = Some c) ∧
    tc_loaded (_tileCache s) ⊆ tc_loaded (_tileCache s') ∧
    tc_toLoad (_tileCache s') = tc_toLoad (_tileCache s) ∧
    tc_rtree (_tileCache s') = tc_rtree (_tileCache s) ∧
    Forall (λ e, is_fetch e = true → map_request tile e ∧ ¬ tile_known s (tile_id tile)) es ∧
    Forall (λ e, is_abort e = false) es.
Proof.
  intros Hon. unfold loadTile. rewrite bind_get, Hon.
  destruct (bool_decide (tile_id tile ∈ tc_loaded (_tileCache s))) eqn:Hloaded; simpl.
  { apply bool_decide_eq_true in Hloaded. eexists _, _. split; [reflexivity|].
    repeat split; try done. by left. }
  destruct (al_has (tile_id tile) (tc_inflight (_tileCache s))) eqn:Hinflight; simpl.
  { eexists _, _. split; [reflexivity|]. repeat split; try done. by right. }
  apply bool_decide_eq_false in Hloaded.
  assert (Hnew : ¬ tile_known s (tile_id tile)).
  { intros [?|Hin]; [done|]. by rewrite Hinflight in Hin. }
  destruct (tileBlocked tile).
  { eexists _, _. split; [reflexivity|]. simpl. repeat split; try done.
    - left. set_solver.
    - intros id [?|?]; [left; set_solver|by right].
    - set_solver. }
  unfold bind, loadFromAPI, bind, get, new_AbortController, bind, get, modify, effect, ret,
    set_tile_inflight, modify, emit, effect.
  assert (Hrequest : map_request tile
            (Fetch (oauth_token s) (GET (PathMap (wgs84Extent tile))) (Some (next_controller s))
               (KLoadFromAPI (PathMap (wgs84Extent tile)) (Some (GotTile tile callback))
                  {| skipSeen := true |} (_connectionID s)))).
  { exists (oauth_token s), (next_controller s), (_connectionID s).
    destruct callback; [right; by eexists|by left]. }
  destruct (negb (_hasInflightRequests (tc_inflight (_tileCache s)))); simpl;
    (eexists _, _; split; [reflexivity|]); simpl;
    (split; [done|]);
    (split; [right; simpl; rewrite al_has_al_set; by rewrite bool_decide_eq_true_2|]);
    (split; [intros id [?|Hin]; [by left|right; simpl; rewrite al_has_al_set, Hin; apply orb_true_r]|]);
    (split; [intros id c Hid; simpl; rewrite al_lookup_al_set; case_decide as Heq; [|done];
             subst id; unfold al_has in Hinflight; by rewrite Hid in Hinflight|]);
    (split; [done|]); (split; [done|]); (split; [done|]);
    (split; repeat constructor; done).
Qed.

Lemma loadTiles_each_run (tiles : list Tile) (callback : option Callback) (s : Osm) :
  _off s = false →
  ∃ s' es,
    loadTiles_each tiles callback s = (Returned tt, s', es) ∧
    _off s' = false ∧
    (∀ tile, tile ∈ tiles → tile_known s' (tile_id tile)) ∧
    (∀ id, tile_known s id → tile_known s' id) ∧
    (∀ id c, al_lookup id (tc_inflight (_tileCache s)) = Some c →
             al_lookup id (tc_inflight (_tileCache s')) = Some c) ∧
    tc_loaded (_tileCache s) ⊆ tc_loaded (_tileCache s') ∧
    tc_toLoad (_tileCache s') = tc_toLoad (_tileCache s) ∧
    tc_rtree (_tileCache s') = tc_rtree (_tileCache s) ∧
    Forall (λ e, is_fetch e = true →
                 ∃ tile, tile ∈ tiles ∧ map_request tile e ∧ ¬ tile_known s (tile_id tile)) es ∧
    Forall (λ e, is_abort e = false) es.
Proof.
  revert s. induction tiles as [|tile rest IH]; intros s Hon; simpl.
  - eexists _, _. split; [reflexivity|]. repeat split; try done.
    intros tile Hin. by apply elem_of_nil in Hin.
  - unfold bind.
    destruct (loadTile_run tile callback s Hon)
      as (s1 & es1 & -> & Hon1 & Hknown1 & Hmono1 & Hkeep1 & Hloaded1 & HtoLoad1 & Hrtree1 & Hes1
          & Hquiet1).
    destruct (IH s1 Hon1)
      as (s' & es & -> & Hon' & Hknown & Hmono & Hkeep & Hloaded & HtoLoad & Hrtree & Hes & Hquiet).
    eexists _, _. split; [reflexivity|].
    split; [done|]. split.
    { intros tile' [->|Hin]%elem_of_cons; [by apply Hmono|by apply Hknown]. }
    split; [by intros id ?; apply Hmono, Hmono1|].
    split; [by intros id c ?; apply Hkeep, Hkeep1|].
    split; [set_solver|].
    split; [congruence|]. split; [congruence|].
    split; [|by apply Forall_app].
    apply Forall_app. split.
    + eapply Forall_impl; [exact Hes1|]. intros e He Hfetch.
      exists tile. split; [left|by apply He].
    + eapply Forall_impl; [exact Hes|]. intros e He Hfetch.
      destruct (He Hfetch) as (tile' & Hin & Hreq & Hnew).
      exists tile'. split; [by right|]. split; [done|]. intros Hk. by apply Hnew, Hmono1.
Qed.

Lemma al_lookup_wanted (toLoad : gset string) (tiles : list Tile) (k : string)
    (l : list (string * nat)) :
  wanted toLoad tiles k = true →
  al_lookup k (filter (λ kv, wanted toLoad tiles kv.1 = true) l) = al_lookup k l.
Proof.
  intros Hk. induction l as [|[k' v] l IH]; [done|]. rewrite filter_cons. simpl.
  destruct (decide (wanted toLoad tiles k' = true)) as [?|Hnot]; simpl.
  - by rewrite IH.
  - rewrite IH. rewrite decide_False; [done|]. by intros ->.
Qed.

Lemma al_has_wanted (toLoad : gset string) (tiles : list Tile) (k : string)
    (l : list (string * nat)) :
  wanted toLoad tiles k = true →
  al_has k (filter (λ kv, wanted toLoad tiles kv.1 = true) l) = al_has k l.
Proof. intros Hk. unfold al_has. by rewrite al_lookup_wanted. Qed.

(** [loadTiles] with the service switched on: when it returns, every tile
    of the view is marked loaded or has a request in flight.  It sends
    requests for tiles of the view only, and only for tiles that were
    neither loaded nor in flight; tiles stay loaded, and the spatial index
    and the queue [toLoad] are as they were. *)
Theorem loadTiles_covers_view (tiles : list Tile) (callback : option Callback) (s : Osm) :
  _off s = false →
  ∃ s' es,
    loadTiles tiles callback s = (Returned tt, s', es) ∧
    (∀ tile, tile ∈ tiles → tile_known s' (tile_id tile)) ∧
    tc_loaded (_tileCache s) ⊆ tc_loaded (_tileCache s') ∧
    tc_toLoad (_tileCache s') = tc_toLoad (_tileCache s) ∧
    tc_rtree (_tileCache s') = tc_rtree (_tileCache s) ∧
    Forall (λ e, is_fetch e = true →
                 ∃ tile, tile ∈ tiles ∧ map_request tile e ∧ ¬ tile_known s (tile_id tile)) es.
Proof.
  intros Hon. unfold loadTiles. rewrite bind_get, Hon.
  unfold bind at 1, _abortUnwantedRequests. rewrite abortUnwanted_spec. cbv zeta.
  rewrite kept_are_wanted.
  set (kept := filter (λ kv, wanted (tc_toLoad (_tileCache s)) tiles kv.1 = true)
                 (tc_inflight (_tileCache s))).
  set (s0 := set_tileCache (set_tc_inflight kept (_tileCache s)) s).
  assert (Hsame : ∀ tile, tile ∈ tiles → tile_known s0 (tile_id tile) ↔ tile_known s (tile_id tile)).
  { intros tile Hin. unfold tile_known, s0, kept. simpl.
    rewrite al_has_wanted; [done|].
    unfold wanted. apply orb_true_iff. right. apply existsb_exists.
    exists tile. split; [by apply list_elem_of_In|by apply bool_decide_eq_true]. }
  destruct (loadTiles_each_run tiles callback s0 Hon)
    as (s' & es & Hrun & _ & Hknown & _ & _ & Hloaded & HtoLoad & Hrtree & Hes & _).
  assert (Hfetches : Forall (λ e, is_fetch e = true →
            ∃ tile, tile ∈ tiles ∧ map_request tile e ∧ ¬ tile_known s (tile_id tile)) es).
  { eapply Forall_impl; [exact Hes|]. intros e He Hfetch.
    destruct (He Hfetch) as (tile & Hin & Hreq & Hnew).
    exists tile. split; [done|]. split; [done|]. by rewrite <- Hsame. }
  assert (Haborts : ∀ l : list nat,
            Forall (λ e, is_fetch e = true →
              ∃ tile, tile ∈ tiles ∧ map_request tile e ∧ ¬ tile_known s (tile_id tile))
              (Abort <$> l)).
  { intros l. apply Forall_fmap, Forall_true. by intros c [=]. }
  unfold bind, set_tile_inflight, modify. simpl. fold kept. fold s0.
  destruct (_hasInflightRequests (tc_inflight (_tileCache s)) && negb (_hasInflightRequests kept));
    simpl; unfold emit, effect; simpl; fold s0; rewrite Hrun;
    (eexists _, _; split; [reflexivity|]);
    (split; [done|]); (split; [done|]); (split; [done|]); (split; [done|]);
    rewrite ?app_nil_r; repeat (apply Forall_app; split); try done;
    repeat constructor; done.
Qed.
End tile_coverage.

(** Two tiles side by side, the first one loaded: after [loadTiles] both
    are loaded or in flight. *)
Lemma loadTiles_covers_view_witness :
  let view := [fixed_tile "35241,21480,16" 0 0 1000 1000;
               fixed_tile "35242,21480,16" 1000 0 2000 1000] in
  let s := set_tileCache (set_tc_loaded {["35241,21480,16"]} empty_tileCache)
             (initial (N := FixedNumber)) in
  ∃ s' es,
    loadTiles (H := plain_host _) view (Some (UserCb 1)) s = (Returned tt, s', es) ∧
    ∀ tile, tile ∈ view → tile_known s' (tile_id tile).
Proof.
  intros view s.
  destruct (loadTiles_covers_view (H := plain_host _) view (Some (UserCb 1)) s)
    as (s' & es & Hrun & Hknown & _); [reflexivity|].
  by exists s', es.
Defined.

Section note_coverage.
Context {N : JsNumber} {T : JsNumberText N} {H : Host N}.

(** A note tile the note cache knows: marked loaded, or with a request in
    flight. *)
Definition note_tile_known (s : Osm) (id : string) : Prop :=
  id ∈ nc_loaded (_noteCache s) ∨ al_has id (nc_inflight (_noteCache s)) = true.

(** A request for the notes of a tile. *)
Definition notes_request (noteOptions : NoteOptions) (tile : Tile) (e : Effect) : Prop :=
  ∃ authenticated controller cid,
    let path := PathNotes (limit noteOptions) (closed noteOptions) (wgs84Extent tile) in
    e = Fetch authenticated (GET path) (Some controller)
          (KLoadFromAPI path (Some (NotesTileLoaded tile)) {| skipSeen := false |} cid).

Lemma loadNotes_tile_run (noteOptions : NoteOptions) (tile : Tile) (s : Osm) :
  ∃ s' es,
    loadNotes_tile noteOptions tile s = (Returned tt, s', es) ∧
    note_tile_known s' (tile_id tile) ∧
    (∀ id, note_tile_known s id → note_tile_known s' id) ∧
    nc_loaded (_noteCache s) ⊆ nc_loaded (_noteCache s') ∧
    nc_rtree (_noteCache s') = nc_rtree (_noteCache s) ∧
    nc_note (_noteCache s') = nc_note (_noteCache s) ∧
    Forall (λ e, is_fetch e = true →
                 notes_request noteOptions tile e ∧ ¬ note_tile_known s (tile_id tile)) es.
Proof.
  unfold loadNotes_tile. rewrite bind_get.
  destruct (bool_decide (tile_id tile ∈ nc_loaded (_noteCache s))) eqn:Hloaded; simpl.
  { apply bool_decide_eq_true in Hloaded. eexists _, _. split; [reflexivity|].
    repeat split; try done. by left. }
  destruct (al_has (tile_id tile) (nc_inflight (_noteCache s))) eqn:Hinflight; simpl.
  { eexists _, _. split; [reflexivity|]. repeat split; try done. by right. }
  apply bool_decide_eq_false in Hloaded.
  assert (Hnew : ¬ note_tile_known s (tile_id tile)).
  { intros [?|Hin]; [done|]. by rewrite Hinflight in Hin. }
  destruct (tileBlocked tile).
  { eexists _, _. split; [reflexivity|]. simpl. repeat split; try done.
    - left. set_solver.
    - intros id [?|?]; [left; set_solver|by right].
    - set_solver. }
  eexists _, _. split; [reflexivity|]. simpl.
  split; [right; simpl; rewrite al_has_al_set; by rewrite bool_decide_eq_true_2|].
  split; [intros id [?|Hin]; [by left|right; simpl; rewrite al_has_al_set, Hin; apply orb_true_r]|].
  split; [done|]. split; [done|]. split; [done|].
  repeat constructor; [|done]. by eexists _, _, _.
Qed.

Lemma loadNotes_each_run (noteOptions : NoteOptions) (tiles : list Tile) (s : Osm) :
  ∃ s' es,
    loadNotes_each noteOptions tiles s = (Returned tt, s', es) ∧
    (∀ tile, tile ∈ tiles → note_tile_known s' (tile_id tile)) ∧
    (∀ id, note_tile_known s id → note_tile_known s' id) ∧
    nc_loaded (_noteCache s) ⊆ nc_loaded (_noteCache s') ∧
    nc_rtree (_noteCache s') = nc_rtree (_noteCache s) ∧
    nc_note (_noteCache s') = nc_note (_noteCache s) ∧
    Forall (λ e, is_fetch e = true →
                 ∃ tile, tile ∈ tiles ∧ notes_request noteOptions tile e
                         ∧ ¬ note_tile_known s (tile_id tile)) es.
Proof.
  revert s. induction tiles as [|tile rest IH]; intros s; simpl.
  - eexists _, _. split; [reflexivity|]. repeat split; try done.
    intros tile Hin. by apply elem_of_nil in Hin.
  - unfold bind.
    destruct (loadNotes_tile_run noteOptions tile s)
      as (s1 & es1 & -> & Hknown1 & Hmono1 & Hloaded1 & Hrtree1 & Hnote1 & Hes1).
    destruct (IH s1) as (s' & es & -> & Hknown & Hmono & Hloaded & Hrtree & Hnote & Hes).
    eexists _, _. split; [reflexivity|]. split.
    { intros tile' [->|Hin]%elem_of_cons; [by apply Hmono|by apply Hknown]. }
    split; [by intros id ?; apply Hmono, Hmono1|].
    split; [set_solver|].
    split; [congruence|]. split; [congruence|].
    apply Forall_app. split.
    + eapply Forall_impl; [exact Hes1|]. intros e He Hfetch.
      exists tile. split; [left|by apply He].
    + eapply Forall_impl; [exact Hes|]. intros e He Hfetch.
      destruct (He Hfetch) as (tile' & Hin & Hreq & Hnew).
      exists tile'. split; [by right|]. split; [done|]. intros Hk. by apply Hnew, Hmono1.
Qed.

(** [loadNotes] with the service switched on: when it returns, every note
    tile of the view is marked loaded or has a request in flight.  It sends
    requests for tiles of the view only, and only for tiles that were
    neither loaded nor in flight; the notes of the cache and their index are
    as they were. *)
Theorem loadNotes_covers_view (tiles : list Tile) (noteOptions : NoteOptions) (s : Osm) :
  _off s = false →
  ∃ s' es,
    loadNotes tiles noteOptions s = (Returned tt, s', es) ∧
    (∀ tile, tile ∈ tiles → note_tile_known s' (tile_id tile)) ∧
    nc_loaded (_noteCache s) ⊆ nc_loaded (_noteCache s') ∧
    nc_rtree (_noteCache s') = nc_rtree (_noteCache s) ∧
    nc_note (_noteCache s') = nc_note (_noteCache s) ∧
    Forall (λ e, is_fetch e = true →
                 ∃ tile, tile ∈ tiles ∧ notes_request noteOptions tile e
                         ∧ ¬ note_tile_known s (tile_id tile)) es.
Proof.
  intros Hon. unfold loadNotes. rewrite bind_get, Hon.
  unfold bind at 1, _abortUnwantedRequests. rewrite abortUnwanted_spec. cbv zeta.
  rewrite kept_are_wanted.
  set (kept := filter (λ kv, wanted (nc_toLoad (_noteCache s)) tiles kv.1 = true)
                 (nc_inflight (_noteCache s))).
  set (s0 := set_noteCache (set_nc_inflight kept (_noteCache s)) s).
  assert (Hsame : ∀ tile, tile ∈ tiles →
            note_tile_known s0 (tile_id tile) ↔ note_tile_known s (tile_id tile)).
  { intros tile Hin. unfold note_tile_known, s0, kept. simpl.
    rewrite al_has_wanted; [done|].
    unfold wanted. apply orb_true_iff. right. apply existsb_exists.
    exists tile. split; [by apply list_elem_of_In|by apply bool_decide_eq_true]. }
  destruct (loadNotes_each_run noteOptions tiles s0)
    as (s' & es & Hrun & Hknown & _ & Hloaded & Hrtree & Hnote & Hes).
  assert (Hfetches : Forall (λ e, is_fetch e = true →
            ∃ tile, tile ∈ tiles ∧ notes_request noteOptions tile e
                    ∧ ¬ note_tile_known s (tile_id tile)) es).
  { eapply Forall_impl; [exact Hes|]. intros e He Hfetch.
    destruct (He Hfetch) as (tile & Hin & Hreq & Hnew).
    exists tile. split; [done|]. split; [done|]. by rewrite <- Hsame. }
  unfold bind, set_note_inflight, modify. simpl. fold kept. fold s0. rewrite Hrun.
  eexists _, _. split; [reflexivity|].
  split; [done|]. split; [done|]. split; [done|]. split; [done|].
  rewrite ?app_nil_r. apply Forall_app. split; [|done].
  apply Forall_fmap, Forall_true. by intros c [=].
Qed.
End note_coverage.

(** The same for the note tiles of a view. *)
Lemma loadNotes_covers_view_witness :
  let view := [fixed_tile "8810,5370,14" 0 0 4000 4000;
               fixed_tile "8811,5370,14" 4000 0 8000 4000] in
  let s := set_noteCache (set_nc_loaded {["8810,5370,14"]} empty_noteCache)
             (initial (N := FixedNumber)) in
  ∃ s' es,
    loadNotes (H := plain_host _) view {| limit := "10000"; closed := "7" |} s
      = (Returned tt, s', es) ∧
    ∀ tile, tile ∈ view → note_tile_known s' (tile_id tile).
Proof.
  intros view s.
  destruct (loadNotes_covers_view (H := plain_host _) view
              {| limit := "10000"; closed := "7" |} s)
    as (s' & es & Hrun & Hknown & _); [reflexivity|].
  by exists s', es.
Defined.

Section tile_edges.
Context {N : JsNumber} {T : JsNumberText N} {H : Host N}.

(** A tile all of whose corners are blocked is never requested: [loadTile]
    marks it loaded without a request and without an entry in the spatial
    index, so [isDataLoaded] answers as before, and a later [loadTile] does
    nothing. *)
Theorem blocked_tile_is_never_requested (tile : Tile) (callback callback' : option Callback)
    (s : Osm) :
  _off s = false → ¬ tile_known s (tile_id tile) → tileBlocked tile = true →
  ∃ s',
    loadTile tile callback s = (Returned tt, s', []) ∧
    tile_id tile ∈ tc_loaded (_tileCache s') ∧
    tc_inflight (_tileCache s') = tc_inflight (_tileCache s) ∧
    (∀ loc, isDataLoaded s' loc = isDataLoaded s loc) ∧
    loadTile tile callback' s' = (Returned tt, s', []).
Proof.
  intros Hon Hnew Hblocked.
  assert (Hloaded : bool_decide (tile_id tile ∈ tc_loaded (_tileCache s)) = false).
  { apply bool_decide_eq_false. intros ?. apply Hnew. by left. }
  assert (Hinflight : al_has (tile_id tile) (tc_inflight (_tileCache s)) = false).
  { destruct (al_has _ _) eqn:Hin; [|done]. destruct Hnew. by right. }
  unfold loadTile at 1. rewrite bind_get, Hon, Hloaded, Hinflight, Hblocked. simpl.
  eexists. split; [reflexivity|]. simpl.
  split; [set_solver|]. split; [done|]. split; [done|].
  unfold loadTile. rewrite bind_get. simpl. rewrite Hon.
  rewrite bool_decide_eq_true_2 by set_solver. done.
Qed.

(** A tile whose request failed is requested again: [gotTile] with an error
    leaves the tile neither loaded nor in flight, and the next [loadTile]
    sends a request for it. *)
Theorem failed_tile_is_requested_again (tile : Tile) (cb : option nat)
    (callback : option Callback) (e : Err) (v : Value) (s : Osm) :
  _off s = false → tile_id tile ∉ tc_loaded (_tileCache s) → tileBlocked tile = false →
  ∃ s1 es1,
    invoke (GotTile tile (UserCb <$> cb)) (Some e) v s = (Returned tt, s1, es1) ∧
    ¬ tile_known s1 (tile_id tile) ∧
    ∃ s2 es2 request,
      loadTile tile callback s1 = (Returned tt, s2, es2) ∧
      request ∈ es2 ∧ map_request tile request ∧
      al_has (tile_id tile) (tc_inflight (_tileCache s2)) = true.
Proof.
  intros Hon Hloaded Hblocked.
  assert (Hrun : ∃ s1 es1,
            invoke (GotTile tile (UserCb <$> cb)) (Some e) v s = (Returned tt, s1, es1) ∧
            _off s1 = false ∧
            tc_loaded (_tileCache s1) = tc_loaded (_tileCache s) ∧
            tc_inflight (_tileCache s1) = al_delete (tile_id tile) (tc_inflight (_tileCache s))).
  { destruct cb as [n|]; simpl; unfold gotTile, bind, set_tile_inflight, modify, get, effect; simpl;
      match goal with |- context [if ?b then _ else _] => destruct b end;
      eexists _, _; (split; [reflexivity|]); done. }
  destruct Hrun as (s1 & es1 & Hrun & Hon1 & Hloaded1 & Hinflight1).
  exists s1, es1. split; [exact Hrun|].
  assert (Hhas : al_has (tile_id tile) (tc_inflight (_tileCache s1)) = false).
  { rewrite Hinflight1, al_has_al_delete. by rewrite bool_decide_eq_true_2. }
  assert (Hnew : ¬ tile_known s1 (tile_id tile)).
  { intros [Hin|Hin]; [by rewrite Hloaded1 in Hin|by rewrite Hhas in Hin]. }
  split; [exact Hnew|].
  unfold loadTile. rewrite bind_get, Hon1, Hhas, Hblocked.
  rewrite bool_decide_eq_false_2 by (by rewrite Hloaded1). simpl.
  unfold bind, loadFromAPI, bind, get, new_AbortController, bind, get, modify, effect, ret,
    set_tile_inflight, modify, emit, effect.
  assert (Hrequest : map_request tile
            (Fetch (oauth_token s1) (GET (PathMap (wgs84Extent tile))) (Some (next_controller s1))
               (KLoadFromAPI (PathMap (wgs84Extent tile)) (Some (GotTile tile callback))
                  {| skipSeen := true |} (_connectionID s1)))).
  { exists (oauth_token s1), (next_controller s1), (_connectionID s1).
    destruct callback; [right; by eexists|by left]. }
  destruct (negb (_hasInflightRequests (tc_inflight (_tileCache s1)))); simpl;
    eexists _, _, _; (split; [reflexivity|]);
    (split; [|split; [exact Hrequest|simpl; rewrite al_has_al_set; by rewrite bool_decide_eq_true_2]]).
  - right. left.
  - left.
Qed.
End tile_edges.

(** A host where every location is blocked. *)
Definition blocking_host (N : JsNumber) : Host N :=
  {| blocksAt := λ _, 1; RegExp_valid := λ _, true; JSON_parse := λ _, None |}.

(** Where every location is blocked, a tile is marked loaded without a
    request. *)
Lemma blocked_tile_is_never_requested_witness :
  let tile := fixed_tile "35241,21480,16" 0 0 1000 1000 in
  ∃ s',
    loadTile (H := blocking_host _) tile None (initial (N := FixedNumber))
      = (Returned tt, s', []) ∧
    tile_id tile ∈ tc_loaded (_tileCache s').
Proof.
  intros tile.
  destruct (blocked_tile_is_never_requested (H := blocking_host _) tile None None initial)
    as (s' & Hrun & Hloaded & _).
  - reflexivity.
  - intros [Hin|Hin]; [by apply elem_of_empty in Hin|discriminate Hin].
  - reflexivity.
  - by exists s'.
Defined.

(** A tile in flight whose request fails with status 500 is requested
    again. *)
Lemma failed_tile_is_requested_again_witness :
  let tile := fixed_tile "35241,21480,16" 0 0 1000 1000 in
  let s := set_tileCache (set_tc_inflight [(tile_id tile, 0)] empty_tileCache)
             (initial (N := FixedNumber)) in
  let e := {| err_message := "Internal Server Error"; err_status := Some 500%Z |} in
  ∃ s1 es1 s2 es2 request,
    invoke (H := plain_host _) (GotTile tile (Some (UserCb 1)))
      (Some e) VUndefined s = (Returned tt, s1, es1) ∧
    loadTile (H := plain_host _) tile (Some (UserCb 1)) s1 = (Returned tt, s2, es2) ∧
    request ∈ es2 ∧ map_request tile request.
Proof.
  intros tile s e.
  destruct (failed_tile_is_requested_again (H := plain_host _)
              tile (Some 1) (Some (UserCb 1)) e VUndefined s)
    as (s1 & es1 & Hgot & _ & s2 & es2 & request & Hload & Hin & Hreq & _).
  - reflexivity.
  - intros Hin. by apply elem_of_empty in Hin.
  - reflexivity.
  - by exists s1, es1, s2, es2, request.
Defined.

(** ** Tiles asked for by location *)

Section tiles_at_location.
Context {N : JsNumber} {T : JsNumberText N} {H : Host N}.

(** What [loadTiles] does to a tile of the queue [toLoad] whose request is
    in flight. *)
Lemma loadTiles_keeps_queued (tiles : list Tile) (callback : option Callback)
    (id : string) (c : nat) (s : Osm) :
  _off s = false →
  id ∈ tc_toLoad (_tileCache s) →
  al_lookup id (tc_inflight (_tileCache s)) = Some c →
  ∃ s' es,
    loadTiles tiles callback s = (Returned tt, s', es) ∧
    al_lookup id (tc_inflight (_tileCache s')) = Some c ∧
    ∀ c', Abort c' ∈ es →
          ∃ k, (k, c') ∈ tc_inflight (_tileCache s) ∧ k ≠ id ∧
               (k ∉ tc_toLoad (_tileCache s)) ∧ ∀ tile, tile ∈ tiles → tile_id tile ≠ k.
Proof.
  intros Hon Hqueued Hc. unfold loadTiles. rewrite bind_get, Hon.
  unfold bind at 1, _abortUnwantedRequests. rewrite abortUnwanted_spec. cbv zeta.
  rewrite kept_are_wanted.
  set (kept := filter (λ kv, wanted (tc_toLoad (_tileCache s)) tiles kv.1 = true)
                 (tc_inflight (_tileCache s))).
  set (s0 := set_tileCache (set_tc_inflight kept (_tileCache s)) s).
  assert (Hwanted : wanted (tc_toLoad (_tileCache s)) tiles id = true).
  { unfold wanted. by rewrite bool_decide_eq_true_2. }
  assert (Hkept : al_lookup id (tc_inflight (_tileCache s0)) = Some c).
  { unfold s0, kept. simpl. by rewrite al_lookup_wanted. }
  destruct (loadTiles_each_run tiles callback s0 Hon)
    as (s' & es & Hrun & _ & _ & _ & Hkeep & _ & _ & _ & _ & Hquiet).
  assert (Haborts : ∀ c',
            Abort c' ∈ Abort <$> (filter (λ kv, wanted (tc_toLoad (_tileCache s)) tiles kv.1 = false)
                                    (tc_inflight (_tileCache s))).*2 →
            ∃ k, (k, c') ∈ tc_inflight (_tileCache s) ∧ k ≠ id ∧
                 (k ∉ tc_toLoad (_tileCache s)) ∧ ∀ tile, tile ∈ tiles → tile_id tile ≠ k).
  { intros c' Hin. apply list_elem_of_fmap in Hin as (c0 & [= <-] & Hin).
    apply list_elem_of_fmap in Hin as ([k c1] & -> & Hin).
    apply list_elem_of_filter in Hin as [Hw Hin]. simpl in *. exists k. split; [done|]. split; [intros ->; congruence|].
    unfold wanted in Hw. apply orb_false_iff in Hw as [Hq Hv].
    split; [by apply bool_decide_eq_false in Hq|].
    intros tile Hin' Heq.
    assert (existsb (λ tile, bool_decide (tile_id tile = k)) tiles = true); [|congruence].
    apply existsb_exists. exists tile. split; [by apply list_elem_of_In|by apply bool_decide_eq_true]. }
  assert (Hnone : ∀ c', Abort c' ∉ es).
  { intros c' Hin. by apply (proj1 (Forall_forall _ _) Hquiet) in Hin. }
  unfold bind, set_tile_inflight, modify. simpl. fold kept. fold s0.
  destruct (_hasInflightRequests (tc_inflight (_tileCache s)) && negb (_hasInflightRequests kept));
    simpl; unfold emit, effect; simpl; fold s0; rewrite Hrun;
    (eexists _, _; split; [reflexivity|]);
    (split; [by apply Hkeep|]);
    intros c' Hin; apply elem_of_app in Hin as [Hin|Hin]; try (by apply Haborts);
    simpl in Hin; try (apply elem_of_cons in Hin as [Hin|Hin]; [done|]);
    by apply Hnone in Hin.
Qed.

(** A tile asked for by location outlives a change of view.  With at most
    50 tiles queued, [loadTileAtLoc] queues a tile that is neither queued,
    loaded nor in flight, and requests it.  A later [loadTiles], whatever
    the tiles of its view, keeps that request in flight: the controllers it
    aborts belong to other tiles, which are neither queued nor in the view. *)
Theorem queued_tile_outlives_the_view (tile : Tile) (callback callback' : option Callback)
    (view : list Tile) (s : Osm) :
  _off s = false →
  size (tc_toLoad (_tileCache s)) ≤ 50 →
  tile_id tile ∉ tc_toLoad (_tileCache s) →
  ¬ tile_known s (tile_id tile) →
  tileBlocked tile = false →
  ∃ s1 es1 request c,
    loadTileAtLoc [tile] callback s = (Returned tt, s1, es1) ∧
    request ∈ es1 ∧ map_request tile request ∧
    tc_toLoad (_tileCache s1) = {[tile_id tile]} ∪ tc_toLoad (_tileCache s) ∧
    al_lookup (tile_id tile) (tc_inflight (_tileCache s1)) = Some c ∧
    ∃ s2 es2,
      loadTiles view callback' s1 = (Returned tt, s2, es2) ∧
      al_lookup (tile_id tile) (tc_inflight (_tileCache s2)) = Some c ∧
      ∀ c', Abort c' ∈ es2 →
            ∃ k, (k, c') ∈ tc_inflight (_tileCache s1) ∧ k ≠ tile_id tile ∧
                 (k ∉ tc_toLoad (_tileCache s1)) ∧ ∀ t, t ∈ view → tile_id t ≠ k.
Proof.
  intros Hon Hsize Hqueue Hnew Hblocked.
  assert (Hloaded : bool_decide (tile_id tile ∈ tc_loaded (_tileCache s)) = false).
  { apply bool_decide_eq_false. intros ?. apply Hnew. by left. }
  assert (Hinflight : al_has (tile_id tile) (tc_inflight (_tileCache s)) = false).
  { destruct (al_has _ _) eqn:Hin; [|done]. destruct Hnew. by right. }
  assert (Hrun : ∃ s1 es1 request,
            loadTileAtLoc [tile] callback s = (Returned tt, s1, es1) ∧
            request ∈ es1 ∧ map_request tile request ∧
            _off s1 = false ∧
            tc_toLoad (_tileCache s1) = {[tile_id tile]} ∪ tc_toLoad (_tileCache s) ∧
            al_lookup (tile_id tile) (tc_inflight (_tileCache s1)) = Some (next_controller s)).
  { unfold loadTileAtLoc. rewrite bind_get.
    rewrite bool_decide_eq_false_2 by lia.
    unfold loadTileAtLoc_each. rewrite bind_get.
    rewrite (bool_decide_eq_false_2 (tile_id tile ∈ tc_toLoad _)) by done.
    rewrite Hloaded, Hinflight. simpl.
    unfold bind at 1. unfold bind at 1. unfold modify at 1. unfold loadTile.
    rewrite bind_get. simpl. rewrite Hon, Hloaded, Hinflight, Hblocked. simpl.
    unfold bind, loadFromAPI, bind, get, new_AbortController, bind, get, modify, effect, ret,
      set_tile_inflight, modify, emit, effect. simpl.
    assert (Hrequest : map_request tile
              (Fetch (oauth_token s) (GET (PathMap (wgs84Extent tile))) (Some (next_controller s))
                 (KLoadFromAPI (PathMap (wgs84Extent tile)) (Some (GotTile tile callback))
                    {| skipSeen := true |} (_connectionID s)))).
    { exists (oauth_token s), (next_controller s), (_connectionID s).
      destruct callback; [right; by eexists|by left]. }
    destruct (negb (_hasInflightRequests (tc_inflight (_tileCache s)))); simpl;
      eexists _, _, _; (split; [reflexivity|]); simpl;
      (split; [|split; [exact Hrequest|
                 split; [done|split; [done|rewrite al_lookup_al_set; by rewrite decide_True]]]]).
    all: rewrite ?app_nil_r; repeat constructor. }
  destruct Hrun as (s1 & es1 & request & Hrun & Hin & Hreq & Hon1 & HtoLoad & Hc).
  exists s1, es1, request, (next_controller s).
  split; [done|]. split; [done|]. split; [done|]. split; [done|]. split; [done|].
  apply loadTiles_keeps_queued; [done| |done].
  rewrite HtoLoad. set_solver.
Qed.

(** A tile of the queue whose request fails stays in the queue, and
    [loadTileAtLoc] skips the tiles of the queue: the failed tile is not
    asked for again by location. *)
Theorem failed_queued_tile_is_not_retried (tile : Tile) (cb : option nat)
    (callback : option Callback) (e : Err) (v : Value) (s : Osm) :
  tile_id tile ∈ tc_toLoad (_tileCache s) →
  ∃ s1 es1,
    invoke (GotTile tile (UserCb <$> cb)) (Some e) v s = (Returned tt, s1, es1) ∧
    tile_id tile ∈ tc_toLoad (_tileCache s1) ∧
    al_has (tile_id tile) (tc_inflight (_tileCache s1)) = false ∧
    loadTileAtLoc [tile] callback s1 = (Returned tt, s1, []).
Proof.
  intros Hqueued.
  assert (Hrun : ∃ s1 es1,
            invoke (GotTile tile (UserCb <$> cb)) (Some e) v s = (Returned tt, s1, es1) ∧
            tc_toLoad (_tileCache s1) = tc_toLoad (_tileCache s) ∧
            tc_inflight (_tileCache s1) = al_delete (tile_id tile) (tc_inflight (_tileCache s))).
  { destruct cb as [n|]; simpl; unfold gotTile, bind, set_tile_inflight, modify, get, effect; simpl;
      match goal with |- context [if ?b then _ else _] => destruct b end;
      eexists _, _; (split; [reflexivity|]); done. }
  destruct Hrun as (s1 & es1 & Hrun & HtoLoad & Hinflight).
  exists s1, es1. split; [done|]. split; [by rewrite HtoLoad|].
  split; [rewrite Hinflight, al_has_al_delete; by rewrite bool_decide_eq_true_2|].
  unfold loadTileAtLoc. rewrite bind_get.
  destruct (bool_decide (50 < size (tc_toLoad (_tileCache s1)))); [done|].
  unfold loadTileAtLoc_each. rewrite bind_get.
  rewrite (bool_decide_eq_true_2 (tile_id tile ∈ tc_toLoad _)) by (by rewrite HtoLoad).
  done.
Qed.
End tiles_at_location.

(** A tile asked for by location stays in flight when the view shows
    another tile. *)
Lemma queued_tile_outlives_the_view_witness :
  let tile := fixed_tile "35241,21480,16" 0 0 1000 1000 in
  let view := [fixed_tile "35250,21480,16" 9000 0 10000 1000] in
  ∃ s1 es1 c s2 es2,
    loadTileAtLoc (H := plain_host _) [tile] None (initial (N := FixedNumber))
      = (Returned tt, s1, es1) ∧
    al_lookup (tile_id tile) (tc_inflight (_tileCache s1)) = Some c ∧
    loadTiles (H := plain_host _) view None s1 = (Returned tt, s2, es2) ∧
    al_lookup (tile_id tile) (tc_inflight (_tileCache s2)) = Some c.
Proof.
  intros tile view.
  destruct (queued_tile_outlives_the_view (H := plain_host _) tile None None view initial)
    as (s1 & es1 & request & c & Hrun & _ & _ & _ & Hc & s2 & es2 & Hview & Hkept & _).
  - reflexivity.
  - vm_compute. lia.
  - intros Hin. by apply elem_of_empty in Hin.
  - intros [Hin|Hin]; [by apply elem_of_empty in Hin|discriminate Hin].
  - reflexivity.
  - by exists s1, es1, c, s2, es2.
Defined.

(** A queued tile whose request fails is skipped by [loadTileAtLoc]. *)
Lemma failed_queued_tile_is_not_retried_witness :
  let tile := fixed_tile "35241,21480,16" 0 0 1000 1000 in
  let s := set_tileCache
             (set_tc_toLoad {[tile_id tile]} (set_tc_inflight [(tile_id tile, 0)] empty_tileCache))
             (initial (N := FixedNumber)) in
  let e := {| err_message := "Internal Server Error"; err_status := Some 500%Z |} in
  ∃ s1 es1,
    invoke (H := plain_host _) (GotTile tile None)
      (Some e) VUndefined s = (Returned tt, s1, es1) ∧
    loadTileAtLoc (H := plain_host _) [tile] None s1 = (Returned tt, s1, []).
Proof.
  intros tile s e.
  destruct (failed_queued_tile_is_not_retried (H := plain_host _)
              tile None None e VUndefined s)
    as (s1 & es1 & Hgot & _ & _ & Hskip).
  - apply elem_of_singleton. reflexivity.
  - by exists s1, es1.
Defined.

(** ** The service switched off *)

Section switched_off.
Context {N : JsNumber} {T : JsNumberText N} {H : Host N}.

Lemma loadTileAtLoc_each_off (tiles : list Tile) (callback : option Callback) (s : Osm) :
  _off s = true →
  ∃ queued : gset string,
    loadTileAtLoc_each tiles callback s
      = (Returned tt,
         set_tileCache (set_tc_toLoad (queued ∪ tc_toLoad (_tileCache s)) (_tileCache s)) s, []) ∧
    ∀ id, id ∈ queued → ∃ tile, tile ∈ tiles ∧ tile_id tile = id.
Proof.
  revert s. induction tiles as [|tile rest IH]; intros s Hoff; simpl.
  - exists ∅. split; [|set_solver]. unfold ret. do 2 f_equal.
    replace (∅ ∪ tc_toLoad (_tileCache s)) with (tc_toLoad (_tileCache s)) by set_solver.
    destruct s as [? ? [] ? ? ? ? ? ? ? ? ? ? ? ? ?]. reflexivity.
  - rewrite bind_get.
    destruct (bool_decide (tile_id tile ∈ tc_toLoad (_tileCache s))
              || bool_decide (tile_id tile ∈ tc_loaded (_tileCache s))
              || al_has (tile_id tile) (tc_inflight (_tileCache s))).
    + unfold bind at 1. unfold ret at 1.
      destruct (IH s Hoff) as (queued & -> & Hqueued).
      exists queued. split; [done|].
      intros id Hid. destruct (Hqueued id Hid) as (t & Hin & Heq). exists t. split; [by right|done].
    + unfold bind at 1. unfold bind at 1. unfold modify at 1. unfold loadTile.
      rewrite bind_get. simpl. rewrite Hoff. unfold ret at 1.
      match goal with |- context [loadTileAtLoc_each rest callback ?s0] =>
        destruct (IH s0 Hoff) as (queued & -> & Hqueued) end.
      exists ({[tile_id tile]} ∪ queued). simpl. split.
      * do 2 f_equal. unfold set_tileCache, set_tc_toLoad. simpl. do 2 f_equal. set_solver.
      * intros id [->%elem_of_singleton|Hid]%elem_of_union.
        -- exists tile. split; [left|done].
        -- destruct (Hqueued id Hid) as (t & Hin & Heq). exists t. split; [by right|done].
Qed.

(** While the service is switched off no tile is requested.  [loadTiles],
    [loadTile] and [loadNotes] return at once: no effect, no change of
    state, the requests in flight are not aborted.  [loadTileAtLoc], which
    does not look at the switch, sends no request either, but it puts tiles
    of the location into the queue [toLoad]; the rest of the state is as it
    was. *)
Theorem switched_off_requests_nothing (tiles : list Tile) (callback : option Callback)
    (noteOptions : NoteOptions) (s : Osm) :
  _off s = true →
  loadTiles tiles callback s = (Returned tt, s, []) ∧
  loadNotes tiles noteOptions s = (Returned tt, s, []) ∧
  (∀ tile, loadTile tile callback s = (Returned tt, s, [])) ∧
  ∃ queued : gset string,
    loadTileAtLoc tiles callback s
      = (Returned tt,
         set_tileCache (set_tc_toLoad (queued ∪ tc_toLoad (_tileCache s)) (_tileCache s)) s, []) ∧
    ∀ id, id ∈ queued → ∃ tile, tile ∈ tiles ∧ tile_id tile = id.
Proof.
  intros Hoff.
  split; [unfold loadTiles; by rewrite bind_get, Hoff|].
  split; [unfold loadNotes; by rewrite bind_get, Hoff|].
  split; [intros tile; unfold loadTile; by rewrite bind_get, Hoff|].
  unfold loadTileAtLoc. rewrite bind_get.
  destruct (bool_decide (50 < size (tc_toLoad (_tileCache s)))).
  - exists ∅. split; [|set_solver]. unfold ret. do 2 f_equal.
    replace (∅ ∪ tc_toLoad (_tileCache s)) with (tc_toLoad (_tileCache s)) by set_solver.
    destruct s as [? ? [] ? ? ? ? ? ? ? ? ? ? ? ? ?]. reflexivity.
  - by apply loadTileAtLoc_each_off.
Qed.
End switched_off.

(** [toggle(false)] on the initial state, then the four methods. *)
Lemma switched_off_requests_nothing_witness :
  let tile := fixed_tile "35241,21480,16" 0 0 1000 1000 in
  ∃ s,
    toggle false (initial (N := FixedNumber)) = (Returned tt, s, []) ∧
    loadTiles (H := plain_host _) [tile] None s = (Returned tt, s, []) ∧
    loadNotes (H := plain_host _) [tile] {| limit := "10000"; closed := "7" |} s
      = (Returned tt, s, []).
Proof.
  intros tile. eexists. split; [reflexivity|].
  destruct (switched_off_requests_nothing (H := plain_host _) [tile] None
              {| limit := "10000"; closed := "7" |} (set_off true initial))
    as (Htiles & Hnotes & _); [reflexivity|].
  split; [exact Htiles|exact Hnotes].
Defined.

(** ** The tags of an XML element *)

Section trimmed.

(** What follows a white space character at the start of [s]. *)
Definition white_space (s : string) : option string :=
  match s with
  | String c1 s1 =>
      if white1 c1 then Some s1
      else
        match s1 with
        | String c2 s2 =>
            if white2 c1 c2 then Some s2
            else
              match s2 with
              | String c3 s3 => if white3 c1 c2 c3 then Some s3 else None
              | EmptyString => None
              end
        | EmptyString => None
        end
  | EmptyString => None
  end.

(** [trim_start] drops such characters as long as there is one. *)
Lemma trim_start_eq (s : string) :
  trim_start s = match white_space s with Some rest => trim_start rest | None => s end.
Proof.
  destruct s as [|c1 [|c2 [|c3 s3]]]; simpl; [done|..].
  - by destruct (white1 c1).
  - destruct (white1 c1); [done|]. by destruct (white2 c1 c2).
  - destruct (white1 c1); [done|]. destruct (white2 c1 c2); [done|].
    by destruct (white3 c1 c2 c3).
Qed.

Lemma white_space_length (s rest : string) :
  white_space s = Some rest → String.length rest < String.length s.
Proof.
  destruct s as [|c1 [|c2 [|c3 s3]]]; simpl; [done|..].
  - destruct (white1 c1); [|done]. intros [= <-]. simpl. lia.
  - destruct (white1 c1); [intros [= <-]; simpl; lia|].
    destruct (white2 c1 c2); [|done]. intros [= <-]. simpl. lia.
  - destruct (white1 c1); [intros [= <-]; simpl; lia|].
    destruct (white2 c1 c2); [intros [= <-]; simpl; lia|].
    destruct (white3 c1 c2 c3); [|done]. intros [= <-]. simpl. lia.
Qed.

(** A white space character at the start of a text is one at the start of
    every text that begins with it. *)
Lemma white_space_app (s rest z : string) :
  white_space s = Some rest → white_space (s +:+ z) = Some (rest +:+ z).
Proof.
  destruct s as [|c1 [|c2 [|c3 s3]]]; simpl; [done|..].
  - destruct (white1 c1); [|done]. by intros [= <-].
  - destruct (white1 c1); [by intros [= <-]|].
    destruct (white2 c1 c2); [|done]. by intros [= <-].
  - destruct (white1 c1); [by intros [= <-]|].
    destruct (white2 c1 c2); [by intros [= <-]|].
    destruct (white3 c1 c2 c3); [|done]. by intros [= <-].
Qed.

Lemma trim_start_length (s : string) : String.length (trim_start s) ≤ String.length s.
Proof.
  remember (String.length s) as n eqn:Hn. revert s Hn.
  induction (lt_wf n) as [n _ IH]. intros s ->.
  rewrite trim_start_eq. destruct (white_space s) as [rest|] eqn:Hs; [|done].
  apply white_space_length in Hs.
  specialize (IH _ Hs rest eq_refl). lia.
Qed.

Lemma trim_start_idem (s : string) : trim_start (trim_start s) = trim_start s.
Proof.
  remember (String.length s) as n eqn:Hn. revert s Hn.
  induction (lt_wf n) as [n _ IH]. intros s ->.
  rewrite (trim_start_eq s). destruct (white_space s) as [rest|] eqn:Hs.
  - apply white_space_length in Hs. by apply (IH _ Hs).
  - rewrite trim_start_eq. by rewrite Hs.
Qed.

(** White space before white space is white space. *)
Lemma blank_app (x z : string) :
  trim_start x = "" → trim_start z = "" → trim_start (x +:+ z) = "".
Proof.
  remember (String.length x) as n eqn:Hn. revert x Hn.
  induction (lt_wf n) as [n _ IH]. intros x -> Hx Hz.
  rewrite trim_start_eq in Hx. destruct (white_space x) as [rest|] eqn:Hs.
  - rewrite trim_start_eq, (white_space_app _ _ z Hs).
    apply white_space_length in Hs. by apply (IH _ Hs).
  - by subst x.
Qed.

(** [trim_end] cuts white space off. *)
Lemma trim_end_cut (s : string) : ∃ z, s = trim_end s +:+ z ∧ trim_start z = "".
Proof.
  induction s as [|c s (z & Hs & Hz)]; [by exists ""|].
  cbn [trim_end]. case_bool_decide as Hblank.
  - by exists (String c s).
  - exists z. split; [|done]. change (String c s = String c (trim_end s +:+ z)). by f_equal.
Qed.

Lemma trim_end_idem (s : string) : trim_end (trim_end s) = trim_end s.
Proof.
  induction s as [|c s IH]; [done|].
  cbn [trim_end]. case_bool_decide as Hblank; [done|].
  cbn [trim_end]. rewrite IH. case_bool_decide as Hblank'; [|done].
  destruct Hblank. destruct (trim_end_cut s) as (z & Hs & Hz).
  rewrite Hs. by apply (blank_app (String c (trim_end s)) z).
Qed.

(** Trimming the end leaves the start as it is. *)
Lemma trim_start_trim_end (s : string) :
  trim_start s = s → trim_start (trim_end s) = trim_end s.
Proof.
  intros Heq. rewrite trim_start_eq.
  destruct (white_space (trim_end s)) as [rest|] eqn:Hs; [|done].
  exfalso. destruct (trim_end_cut s) as (z & Hcut & _).
  apply (white_space_app _ _ z) in Hs. rewrite <- Hcut in Hs.
  pose proof (trim_start_length (rest +:+ z)) as Hlen.
  rewrite trim_start_eq, Hs in Heq. rewrite Heq in Hlen.
  apply white_space_length in Hs. lia.
Qed.

Lemma trim_idem (s : string) : trim (trim s) = trim s.
Proof.
  unfold trim.
  rewrite (trim_start_trim_end (trim_start s)) by apply trim_start_idem.
  apply trim_end_idem.
Qed.
End trimmed.

Section xml_tags.
Context {N : JsNumber} {T : JsNumberText N}.

(** What the loop of [_getTags] adds to the tags it starts from. *)
Lemma _getTags_loop_trims (elems : list XmlNode) (tags tags' : gmap string string) :
  _getTags_loop elems tags = Some tags' →
  ∀ k v, tags' !! k = Some v →
    tags !! k = Some v ∨
    ∃ elem k0 v0, elem ∈ elems ∧
      attr_value (xml_attributes elem) "k" = Some k0 ∧
      attr_value (xml_attributes elem) "v" = Some v0 ∧
      k = trim k0 ∧ v = trim v0 ∧ k ≠ "".
Proof.
  revert tags. induction elems as [|elem elems IH]; intros tags Hloop k v Hkv; simpl in Hloop.
  - injection Hloop as <-. by left.
  - destruct (attr_value (xml_attributes elem) "k") as [k0|] eqn:Hk0; [|done].
    destruct (attr_value (xml_attributes elem) "v") as [v0|] eqn:Hv0; [|done].
    simpl in Hloop.
    destruct (IH _ Hloop k v Hkv) as [Hold|(e & k1 & v1 & Hin & He)].
    + case_bool_decide as Hempty; [by left|].
      destruct (decide (k = trim k0)) as [->|Hne].
      * rewrite lookup_insert_eq in Hold. injection Hold as <-.
        right. exists elem, k0, v0. split; [left|done].
      * rewrite lookup_insert_ne in Hold by done. by left.
    + right. exists e, k1, v1. split; [by right|done].
Qed.

(** The tags [_getTags] returns are trimmed: each is the trimmed key and
    the trimmed value of a [tag] element below the node, no key is empty,
    and trimming a key or a value again changes nothing. *)
Theorem getTags_are_clean (xml : XmlNode) (tags : gmap string string) :
  _getTags xml = Some tags →
  clean_tags tags ∧
  ∀ k v, tags !! k = Some v →
    ∃ elem k0 v0, elem ∈ getElementsByTagName xml "tag" ∧
      getAttribute elem "k" = Some k0 ∧ getAttribute elem "v" = Some v0 ∧
      k = trim k0 ∧ v = trim v0.
Proof.
  intros Htags.
  assert (Hfrom : ∀ k v, tags !! k = Some v →
            ∃ elem k0 v0, elem ∈ getElementsByTagName xml "tag" ∧
              getAttribute elem "k" = Some k0 ∧ getAttribute elem "v" = Some v0 ∧
              k = trim k0 ∧ v = trim v0 ∧ k ≠ "").
  { intros k v Hkv.
    destruct (_getTags_loop_trims _ _ _ Htags k v Hkv) as [Hold|Hnew]; [|exact Hnew].
    by rewrite lookup_empty in Hold. }
  split.
  - intros k v Hkv. destruct (Hfrom k v Hkv) as (_ & k0 & v0 & _ & _ & _ & -> & -> & Hne).
    split; [apply trim_idem|]. split; [done|apply trim_idem].
  - intros k v Hkv. destruct (Hfrom k v Hkv) as (elem & k0 & v0 & Hin & Hk & Hv & -> & -> & _).
    by exists elem, k0, v0.
Qed.
End xml_tags.

(** U+00A0, the no-break space, in UTF-8. *)
Definition nbsp : string :=
  String (Ascii.ascii_of_nat 194) (String (Ascii.ascii_of_nat 160) EmptyString).

(** A way with a tag in white space, a tag whose key is a no-break space
    only, and a tag in no-break spaces: two tags are left, trimmed. *)
Lemma getTags_are_clean_witness :
  let xml := XElement "way" [("id", "7")]
               [XElement "tag" [("k", " highway "); ("v", "residential ")] [];
                XElement "tag" [("k", nbsp); ("v", "lost")] [];
                XElement "tag" [("k", nbsp +:+ "name"); ("v", "Elm Street" +:+ nbsp)] []] in
  ∃ tags, _getTags xml = Some tags ∧ clean_tags tags ∧
          tags = {[ "highway" := "residential"; "name" := "Elm Street" ]}.
Proof.
  intros xml. exists (default ∅ (_getTags xml)).
  split; [vm_compute; reflexivity|].
  split; [|vm_compute; reflexivity].
  apply (getTags_are_clean xml). vm_compute. reflexivity.
Defined.

(** ** The details and the changesets of the user *)

Section user_details.
Context {N : JsNumber} {T : JsNumberText N} {H : Host N}.

(** The request [userDetails] sends. *)
Definition details_request (s : Osm) (n : nat) : Effect :=
  Fetch (oauth_token s) (GET PathUserDetails) (Some (next_controller s))
    (KLoadFromAPI PathUserDetails (Some (UserDetailsGot (UserCb n))) {| skipSeen := false |}
       (_connectionID s)).

(** The details of the user are asked for once.  With nothing cached
    [userDetails] sends a request; an answer with an error leaves the cache
    empty; the first datum of a good answer is handed to the callback and
    cached, and from then on [userDetails] answers from the cache without a
    request.  [logout] empties the cache, and the next [userDetails] sends a
    request again. *)
Theorem userDetails_cached_until_logout (n n' : nat) (results : Results) (d : Datum)
    (e : Err) (s : Osm) :
  _userDetails s = None →
  head (data results) = Some d →
  ∃ s0,
    userDetails (closure (UserCb n)) s = (Returned tt, s0, [details_request s n]) ∧
    invoke (UserDetailsGot (UserCb n)) (Some e) VUndefined s0
      = (Returned tt, s0, [Invoke n (Some e) VUndefined]) ∧
    ∃ s1,
      invoke (UserDetailsGot (UserCb n)) None (VResults results) s0
        = (Returned tt, s1, [Invoke n None (VDatum d)]) ∧
      userDetails (closure (UserCb n')) s1 = (Returned tt, s1, [Invoke n' None (VDatum d)]) ∧
      ∃ s2 es2 s3,
        logout s1 = (Returned tt, s2, es2) ∧
        userDetails (closure (UserCb n')) s2 = (Returned tt, s3, [details_request s2 n']).
Proof.
  intros Hnone Hfirst.
  assert (Hrequest : ∀ m s', _userDetails s' = None →
            userDetails (closure (UserCb m)) s'
            = (Returned tt, set_next_controller (S (next_controller s')) s',
               [details_request s' m])).
  { intros m s' Hs'. unfold userDetails. rewrite bind_get, Hs'.
    unfold bind, loadFromAPI, bind, get, new_AbortController, bind, get, modify, effect, ret.
    reflexivity. }
  eexists. split; [by apply Hrequest|]. split; [reflexivity|].
  simpl. unfold userDetails_gotUsers, results_data, bind, ret, modify, effect. simpl.
  rewrite Hfirst. simpl.
  eexists. split; [reflexivity|].
  split; [reflexivity|].
  unfold logout, bind, modify, emit, effect. simpl.
  eexists _, _, _. split; [reflexivity|].
  by apply Hrequest.
Qed.

(** The request [userChangesets] sends for the user [d]. *)
Definition changesets_request (s : Osm) (d : Datum) (n : nat) : Effect :=
  Fetch (oauth_token s) (GET (PathChangesets (datum_id d))) (Some (next_controller s))
    (KLoadFromAPI (PathChangesets (datum_id d)) (Some (GotChangesets (UserCb n)))
       {| skipSeen := false |} (_connectionID s)).

(** [userChangesets] goes through the details of the user.  With the
    details cached and no changesets cached it sends one request, for the
    changesets of that user, and none for the details.  The data of a good
    answer are handed to the callback and cached, and from then on
    [userChangesets] answers from the cache without a request; [authenticate]
    empties both caches. *)
Theorem userChangesets_cached (n n' : nat) (callback : option Callback)
    (results : Results) (d : Datum) (s : Osm) :
  _userChangesets s = None →
  _userDetails s = Some d →
  ∃ s0,
    userChangesets (closure (UserCb n)) s = (Returned tt, s0, [changesets_request s d n]) ∧
    ∃ s1,
      invoke (GotChangesets (UserCb n)) None (VResults results) s0
        = (Returned tt, s1, [Invoke n None (VData (data results))]) ∧
      userChangesets (closure (UserCb n')) s1
        = (Returned tt, s1, [Invoke n' None (VData (data results))]) ∧
      ∃ s2 es2,
        authenticate callback s1 = (Returned tt, s2, es2) ∧
        _userChangesets s2 = None ∧ _userDetails s2 = None ∧
        Forall (λ e, is_fetch e = false) es2.
Proof.
  intros Hnone Hdetails. eexists. split.
  - unfold userChangesets. rewrite bind_get, Hnone.
    unfold userDetails. rewrite bind_get, Hdetails. simpl.
    unfold bind, loadFromAPI, bind, get, new_AbortController, bind, get, modify, effect, ret.
    reflexivity.
  - simpl. unfold gotChangesets, results_data, bind, ret, modify, effect. simpl.
    eexists. split; [reflexivity|]. split; [reflexivity|].
    unfold authenticate, bind, get, modify, effect. simpl.
    eexists _, _. split; [reflexivity|]. simpl. repeat split; repeat constructor.
Qed.
End user_details.

(** A signed-in user: the details arrive, are served again from the cache,
    and are asked for anew after [logout]. *)
Lemma userDetails_cached_until_logout_witness :
  let user := {| u_id := "7"; u_display_name := Some "mapper"; u_account_created := None;
                 u_image_url := None; u_changesets_count := "12"; u_active_blocks := "0" |} in
  let results := {| data := [DUser user]; seenIDs := {["7"]} |} in
  let s := set_oauth_token true (initial (N := FixedNumber)) in
  ∃ s0 s1,
    userDetails (closure (H := plain_host _) (UserCb 1)) s
      = (Returned tt, s0, [details_request s 1]) ∧
    invoke (H := plain_host _) (UserDetailsGot (UserCb 1)) None (VResults results) s0
      = (Returned tt, s1, [Invoke 1 None (VDatum (DUser user))]) ∧
    userDetails (closure (H := plain_host _) (UserCb 2)) s1
      = (Returned tt, s1, [Invoke 2 None (VDatum (DUser user))]).
Proof.
  intros user results s.
  destruct (userDetails_cached_until_logout (H := plain_host _) 1 2 results (DUser user)
              type_error s) as (s0 & Hrequest & _ & s1 & Hgot & Hcached & _);
    [reflexivity|reflexivity|].
  by exists s0, s1.
Defined.

(** The changesets of that user. *)
Lemma userChangesets_cached_witness :
  let user := {| u_id := "7"; u_display_name := Some "mapper"; u_account_created := None;
                 u_image_url := None; u_changesets_count := "12"; u_active_blocks := "0" |} in
  let s := set_userDetails (Some (DUser user)) (set_oauth_token true (initial (N := FixedNumber))) in
  ∃ s0,
    userChangesets (closure (H := plain_host _) (UserCb 1)) s
      = (Returned tt, s0, [changesets_request s (DUser user) 1]).
Proof.
  intros user s.
  destruct (userChangesets_cached (H := plain_host _) 1 2 None no_results (DUser user) s)
    as (s0 & Hrequest & _); [reflexivity|reflexivity|].
  by exists s0.
Defined.

(** ** The status of the API *)

Section api_status.
Context {N : JsNumber} {T : JsNumberText N} {H : Host N}.

(** The [api] attribute of the first [status] element of a capabilities
    document; [None] when the document has no such element. *)
Definition capabilities_status (doc : list XmlNode) : option Value :=
  match head (filter (λ d, nodeName d = "status") (doc ++ mjoin (xml_descendants <$> doc))) with
  | Some status =>
      Some (match getAttribute status "api" with Some val => VString val | None => VNull end)
  | None => None
  end.

(** What [status] answers to the response [r] of its request. *)
Definition status_answer (cid : nat) (r : Response) (s : Osm) : option Err * Value :=
  match r with
  | Fulfilled b =>
      if decide (_connectionID s ≠ cid) then (Some err_connection_switched, VNull)
      else
        match _rateLimitError s, b with
        | Some e, _ => (Some e, VString "rateLimited")
        | None, BXml doc =>
            match capabilities_status doc with
            | Some v => (None, v)
            | None => (Some type_error, VNull)
            end
        | None, _ => (Some type_error, VNull)
        end
  | _ => (Some (error_of r), VNull)
  end.

Definition is_status_change (e : Effect) : bool :=
  match e with EmitApiStatusChange _ _ => true | _ => false end.

(** Effects that are neither a request, nor a call of a callback of the
    caller, nor an [apiStatusChange]. *)
Definition internal (e : Effect) : Prop :=
  is_fetch e = false ∧ is_invoke e = false ∧ is_status_change e = false.

(** States that differ in what [status] itself may set: the blocklists and
    the maximum number of nodes of a way (never emptied, never zero), and
    what [logout] clears. *)
Definition status_step (s s' : Osm) : Prop :=
  _connectionID s' = _connectionID s ∧
  _rateLimitError s' = _rateLimitError s ∧
  _cachedApiStatus s' = _cachedApiStatus s ∧
  (_imageryBlocklists s ≠ [] → _imageryBlocklists s' ≠ []) ∧
  (_maxWayNodes s ≠ 0%Z → _maxWayNodes s' ≠ 0%Z).

Lemma read_capabilities_run (doc : list XmlNode) (callback : option Err → Value → M unit)
    (s : Osm) :
  ∃ s_mid,
    status_step s s_mid ∧
    read_capabilities (BXml doc) callback s
      = match capabilities_status doc with
        | Some v => callback None v s_mid
        | None => (Threw, s_mid, [])
        end.
Proof.
  unfold read_capabilities, capabilities_status.
  set (elements := doc ++ mjoin (xml_descendants <$> doc)).
  set (regexes := omap _ _).
  set (maxWayNodes := match filter _ elements with [] => Some 0%Z | w :: _ => _ end).
  assert (Hfirst : ∃ s1, status_step s s1 ∧
            (when negb (bool_decide (regexes = [])) then modify (set_imageryBlocklists regexes)) s
            = (Returned tt, s1, [])).
  { destruct (bool_decide (regexes = [])) eqn:Hempty; simpl.
    - exists s. by repeat split.
    - eexists. split; [|reflexivity]. apply bool_decide_eq_false in Hempty. by repeat split. }
  destruct Hfirst as (s1 & Hs1 & Hrun1).
  assert (Hsecond : ∃ s2, status_step s1 s2 ∧
            match maxWayNodes with
            | Some n =>
                when negb (bool_decide (n = 0%Z)) && bool_decide (Z.abs n < 2 ^ 1024)%Z then
                  modify (set_maxWayNodes n)
            | None => ret tt
            end s1 = (Returned tt, s2, [])).
  { destruct maxWayNodes as [n|]; [|exists s1; by repeat split].
    destruct (bool_decide (n = 0%Z)) eqn:Hzero; simpl; [exists s1; by repeat split|].
    destruct (bool_decide (Z.abs n < 2 ^ 1024)%Z); simpl; [|exists s1; by repeat split].
    eexists. split; [|reflexivity]. apply bool_decide_eq_false in Hzero. by repeat split. }
  destruct Hsecond as (s2 & Hs2 & Hrun2).
  exists s2. split.
  { destruct Hs1 as (?&?&?&?&?), Hs2 as (?&?&?&?&?). repeat split; try congruence; auto. }
  unfold bind at 1. rewrite Hrun1. unfold bind at 1. rewrite Hrun2.
  destruct (head (filter _ elements)) as [status|]; simpl; [|done].
  unfold bind, ret. simpl. by destruct (callback _ _ s2) as [[[] ?] ?].
Qed.

(** [status] answers through its callback [cb], once, after it has read
    the response. *)
Lemma status_resume (fuel : nat) (cid : nat) (cb : Callback) (r : Response) (s : Osm) :
  (∀ e v s0, ∃ s' es, invoke cb e v s0 = (Returned tt, s', es)) →
  ∃ s_mid pre s' es,
    invoke cb (status_answer cid r s).1 (status_answer cid r s).2 s_mid = (Returned tt, s', es) ∧
    resume fuel (KStatus cid (StatusGotResult cb)) r s = (Returned tt, s', pre ++ es) ∧
    status_step s s_mid ∧ Forall internal pre.
Proof.
  intros Hcb.
  assert (Hrefl : status_step s s) by (by repeat split).
  assert (Herror : ∀ e, ∃ s_mid pre s' es,
            invoke cb (Some e) VNull s_mid = (Returned tt, s', es) ∧
            _wrapcb cid (invoke (StatusGotResult cb)) (Some e) VUndefined s
              = (Returned tt, s', pre ++ es) ∧
            status_step s s_mid ∧ Forall internal pre).
  { intros e. unfold _wrapcb. simpl.
    destruct (is_auth_failure (Some e)).
    - unfold bind, logout, bind, modify, emit, effect. simpl.
      match goal with |- context [invoke cb (Some e) VNull ?s0] =>
        destruct (Hcb (Some e) VNull s0) as (s' & es & Hrun) end.
      eexists _, [OauthLogout; Emit "authchange"], s', es. split; [exact Hrun|]. rewrite Hrun.
      split; [reflexivity|]. split; [by repeat split|]. by repeat constructor.
    - unfold bind, ret. destruct (Hcb (Some e) VNull s) as (s' & es & Hrun).
      exists s, [], s', es. rewrite Hrun. by repeat split. }
  assert (Hthrown : ∀ s0, status_step s s0 →
            ∃ s_mid pre s' es,
              invoke cb (Some type_error) VNull s_mid = (Returned tt, s', es) ∧
              (let (p0, es') := bind (ret tt) (λ _, invoke cb (Some type_error) VNull) s0 in
               let (r, s'') := p0 in (r, s'', [] ++ es')) = (Returned tt, s', pre ++ es) ∧
              status_step s s_mid ∧ Forall internal pre).
  { intros s0 Hs0. unfold bind, ret.
    destruct (Hcb (Some type_error) VNull s0) as (s' & es & Hrun).
    exists s0, [], s', es. rewrite Hrun. split; [done|]. split; [done|]. by split. }
  destruct r as [b| e | |]; try (by apply (Herror _)).
  simpl. unfold catch. rewrite bind_get.
  destruct (decide (_connectionID s ≠ cid)) as [Hswitched|Hsame]; simpl.
  { destruct (Hcb (Some err_connection_switched) VNull s) as (s' & es & Hrun).
    exists s, [], s', es. rewrite Hrun. by repeat split. }
  rewrite bind_get.
  destruct (_rateLimitError s) as [e|] eqn:Hlimit; simpl.
  { destruct (Hcb (Some e) (VString "rateLimited") s) as (s' & es & Hrun).
    exists s, [], s', es. rewrite Hrun. by repeat split. }
  destruct b as [|j|doc|t];
    [simpl; by apply Hthrown|simpl; by apply Hthrown| |simpl; by apply Hthrown].
  destruct (read_capabilities_run doc (invoke cb) s) as (s_mid & Hmid & ->).
  destruct (capabilities_status doc) as [v|]; simpl.
  - destruct (Hcb None v s_mid) as (s' & es & Hrun). rewrite Hrun.
    exists s_mid, [], s', es. split; [done|]. split; [done|]. by split.
  - by apply Hthrown.
Qed.

(** [status] answers once, whatever comes back.  For every response of the
    capabilities request the callback is called exactly once, after
    anything else the service does.  It receives no error and the [api]
    attribute of the document only when the request succeeded on the
    connection it was made on, no rate-limit error is recorded and the
    document has a [status] element; otherwise it receives an error, with
    the status [null], or 'rateLimited' for the recorded rate-limit error.
    The blocklists are never emptied and the maximum number of nodes of a
    way never becomes zero. *)
Theorem status_answers_once (fuel : nat) (cid : nat) (n : nat) (r : Response) (s : Osm) :
  ∃ err v s' es,
    resume fuel (KStatus cid (StatusGotResult (UserCb n))) r s
      = (Returned tt, s', es ++ [Invoke n err v]) ∧
    Forall internal es ∧
    (err = None ∨ v = VNull ∨ (v = VString "rateLimited" ∧ err = _rateLimitError s)) ∧
    (err = None →
     ∃ doc, r = Fulfilled (BXml doc) ∧ capabilities_status doc = Some v ∧
            _connectionID s = cid ∧ _rateLimitError s = None) ∧
    (_imageryBlocklists s ≠ [] → _imageryBlocklists s' ≠ []) ∧
    (_maxWayNodes s ≠ 0%Z → _maxWayNodes s' ≠ 0%Z).
Proof.
  destruct (status_resume fuel cid (UserCb n) r s) as (s_mid & pre & s' & es & Hcb & Hrun & Hmid & Hpre).
  { intros e v s0. by eexists _, _. }
  simpl in Hcb. injection Hcb as <- <-.
  exists (status_answer cid r s).1, (status_answer cid r s).2, s_mid, pre.
  split; [exact Hrun|]. split; [exact Hpre|].
  destruct Hmid as (_ & _ & _ & Hlists & Hnodes).
  split; [|split; [|by split]].
  - unfold status_answer. destruct r as [b| | |]; simpl; try (right; by left).
    destruct (decide _); simpl; [right; by left|].
    destruct (_rateLimitError s); simpl; [right; by right|].
    destruct b as [| |doc|]; simpl; try (right; by left).
    destruct (capabilities_status doc); simpl; [by left|right; by left].
  - unfold status_answer. destruct r as [b| | |]; simpl; try done.
    destruct (decide _) as [|Hsame]; simpl; [done|].
    destruct (_rateLimitError s); simpl; [done|].
    destruct b as [| |doc|]; simpl; try done.
    destruct (capabilities_status doc) as [v|] eqn:Hdoc; simpl; [|done].
    intros _. exists doc. split; [done|]. split; [done|]. split; [|done].
    by destruct (decide (_connectionID s = cid)).
Qed.

(** [reloadApiStatus] emits [apiStatusChange] when the status changes, and
    only then.  When the response of its request is handled, the cached
    status becomes the status reported; [apiStatusChange] is emitted once
    if that differs from the status cached before, and not at all if it is
    the same.  The same response handled a second time changes nothing and
    emits nothing. *)
Theorem apiStatusChange_only_on_change (fuel : nat) (r : Response) (s : Osm) :
  let cid := _connectionID s in
  let reloaded := resume fuel (KStatus cid (StatusGotResult ReloadedApiStatus)) r in
  let answer := status_answer cid r s in
  reloadApiStatus s
    = (Returned tt, s, [Fetch false GET_capabilities None
                          (KStatus cid (StatusGotResult ReloadedApiStatus))]) ∧
  ∃ s1 es1 s2 es2,
    reloaded s = (Returned tt, s1, es1) ∧
    _cachedApiStatus s1 = jsid_of_value answer.2 ∧
    filter (λ e, is_status_change e = true) es1
      = (if decide (jsid_of_value answer.2 = _cachedApiStatus s) then []
         else [EmitApiStatusChange answer.1 answer.2]) ∧
    reloaded s1 = (Returned tt, s2, es2) ∧
    _cachedApiStatus s2 = _cachedApiStatus s1 ∧
    filter (λ e, is_status_change e = true) es2 = [].
Proof.
  intros cid reloaded answer. split; [reflexivity|].
  assert (Hcb : ∀ e v s0, ∃ s' es, invoke ReloadedApiStatus e v s0 = (Returned tt, s', es)).
  { intros e v s0. simpl. unfold reloadedApiStatus. rewrite bind_get.
    destruct (bool_decide _); by eexists _, _. }
  assert (Hpre : ∀ pre, Forall internal pre → filter (λ e, is_status_change e = true) pre = []).
  { induction 1 as [|e pre (_ & _ & He) _ IH]; [done|].
    rewrite filter_cons. by rewrite decide_False by (by rewrite He). }
  assert (Hreload : ∀ s0, _connectionID s0 = cid → _rateLimitError s0 = _rateLimitError s →
            ∃ s' es,
              reloaded s0 = (Returned tt, s', es) ∧
              _connectionID s' = cid ∧ _rateLimitError s' = _rateLimitError s ∧
              _cachedApiStatus s' = jsid_of_value answer.2 ∧
              filter (λ e, is_status_change e = true) es
                = (if decide (jsid_of_value answer.2 = _cachedApiStatus s0) then []
                   else [EmitApiStatusChange answer.1 answer.2])).
  { intros s0 Hcid Hlimit.
    destruct (status_resume fuel cid ReloadedApiStatus r s0 Hcb)
      as (s_mid & pre & s' & es & Hrun & Hres & (Hc & Hl & Hs & _) & Hinternal).
    assert (Hanswer : status_answer cid r s0 = answer).
    { unfold answer, status_answer. by rewrite Hcid, Hlimit. }
    rewrite Hanswer in Hrun. exists s', (pre ++ es). split; [exact Hres|].
    rewrite filter_app, (Hpre pre Hinternal). simpl.
    simpl in Hrun. unfold reloadedApiStatus in Hrun. rewrite bind_get in Hrun.
    rewrite Hs in Hrun.
    destruct (decide (jsid_of_value answer.2 = _cachedApiStatus s0)) as [Heq|Hne].
    - rewrite bool_decide_eq_false_2 in Hrun by (by intros ?).
      injection Hrun as <- <-. by rewrite Hc, Hl, Hs, Hcid, Hlimit.
    - rewrite bool_decide_eq_true_2 in Hrun by done.
      unfold bind, modify, effect in Hrun. simpl in Hrun.
      injection Hrun as <- <-. simpl. by rewrite Hc, Hl, Hcid, Hlimit. }
  destruct (Hreload s eq_refl eq_refl) as (s1 & es1 & Hrun1 & Hc1 & Hl1 & Hs1 & Hes1).
  destruct (Hreload s1 Hc1 Hl1) as (s2 & es2 & Hrun2 & _ & _ & Hs2 & Hes2).
  exists s1, es1, s2, es2.
  split; [done|]. split; [done|]. split; [done|]. split; [done|].
  split; [congruence|].
  by rewrite Hes2, decide_True by done.
Qed.
End api_status.

(** ** Users: from the answer into the cache *)

Section user_cache.
Context {N : JsNumber} {T : JsNumberText N} {H : Host N}.

(** The users of a payload: [json.user ? [json.user] : json.users]. *)
Definition payload_users (json : JsonPayload) : list JsonUser :=
  match json_user json with
  | Some u => [u]
  | None => default [] (json_users json)
  end.

(** The loop over the elements changes the seen set only. *)
Lemma parseJSON_elements_state options (elements : list JsonElement) (results : Results)
    (s : Osm) :
  ∃ results' seen,
    parseJSON_elements options elements results s
      = (Returned results', set_tileCache (set_tc_seen seen (_tileCache s)) s, []) ∧
    seenIDs results ⊆ seenIDs results'.
Proof.
  revert results s. induction elements as [|element rest IH]; intros results s; simpl.
  - exists results, (tc_seen (_tileCache s)). split; [|done]. unfold ret. do 2 f_equal.
    destruct s as [? ? [] ? ? ? ? ? ? ? ? ? ? ? ? ?]. reflexivity.
  - destruct (json_parser (el_type element)) as [parser|]; [|apply IH].
    destruct (skipSeen options).
    + unfold bind, seen_has, gets at 1.
      destruct (bool_decide _).
      * match goal with |- context [parseJSON_elements _ rest ?r s] =>
          destruct (IH r s) as (r' & seen & -> & Hsub) end.
        eexists _, _. split; [reflexivity|]. simpl in Hsub. set_solver.
      * unfold seen_add, modify at 1.
        match goal with |- context [parseJSON_elements _ rest ?r ?s0] =>
          destruct (IH r s0) as (r' & seen & -> & Hsub) end.
        exists r', seen. split; [reflexivity|]. simpl in Hsub. set_solver.
    + match goal with |- context [parseJSON_elements _ rest ?r s] =>
        destruct (IH r s) as (r' & seen & -> & Hsub) end.
      eexists _, _. split; [reflexivity|]. simpl in Hsub. set_solver.
Qed.

(** The loop over the users changes the user cache only: every user of
    the payload is in the cache afterwards and out of the queue [toLoad];
    the cache loses no user, and with [skipSeen] it keeps the records it
    had. *)
Lemma parseJSON_users_state options (users : list JsonUser) (results : Results) (s : Osm) :
  ∃ results' cache,
    parseJSON_users options users results s = (Returned results', set_userCache cache s, []) ∧
    seenIDs results ⊆ seenIDs results' ∧
    (∀ user uid, user ∈ users → pretty <$> ju_id user = Some uid →
       uid ∈ seenIDs results' ∧ (uid ∉ uc_toLoad cache) ∧ is_Some (uc_user cache !! uid)) ∧
    (∀ uid, is_Some (uc_user (_userCache s) !! uid) → is_Some (uc_user cache !! uid)) ∧
    (skipSeen options = true →
     ∀ uid u, uc_user (_userCache s) !! uid = Some u → uc_user cache !! uid = Some u) ∧
    uc_toLoad cache ⊆ uc_toLoad (_userCache s).
Proof.
  revert results s. induction users as [|user rest IH]; intros results s; simpl.
  - exists results, (_userCache s). split.
    { unfold ret. do 2 f_equal. by destruct s. }
    split; [done|]. split; [by intros ? ? ?%elem_of_nil|]. done.
  - destruct (pretty <$> ju_id user) as [uid|] eqn:Hid.
    2:{ destruct (IH results s) as (r' & cache & -> & Hsub & Hall & Hmono & Hkeep & Hq).
        exists r', cache. split; [done|]. split; [done|]. split; [|done].
        intros user' uid' [->|Hin]%elem_of_cons Huid'; [congruence|by apply Hall with user']. }
    unfold bind, toLoad_delete, modify at 1. unfold user_cached, gets at 1.
    set (s_a := set_userCache _ s).
    destruct (skipSeen options && bool_decide (is_Some (uc_user (_userCache s_a) !! uid)))
      eqn:Hskip.
    + destruct (IH (seenIDs_add uid results) s_a)
        as (r' & cache & -> & Hsub & Hall & Hmono & Hkeep & Hq).
      apply andb_true_iff in Hskip as [Hseen Hcached%bool_decide_eq_true].
      exists r', cache. split; [reflexivity|]. simpl in *.
      split; [set_solver|]. split; [|split; [done|split; [done|set_solver]]].
      intros user' uid' [->|Hin]%elem_of_cons Huid'; [|by apply Hall with user'].
      assert (uid' = uid) as -> by congruence.
      split; [set_solver|]. split; [set_solver|]. by apply Hmono.
    + unfold user_store, modify at 1.
      set (s_b := set_userCache _ s_a).
      destruct (IH (data_push (DUser (user_of_json uid user)) (seenIDs_add uid results)) s_b)
        as (r' & cache & -> & Hsub & Hall & Hmono & Hkeep & Hq).
      exists r', cache. split; [reflexivity|]. simpl in *.
      split; [set_solver|]. split; [|split; [|split; [|set_solver]]].
      * intros user' uid' [->|Hin]%elem_of_cons Huid'; [|by apply Hall with user'].
        assert (uid' = uid) as -> by congruence.
        split; [set_solver|]. split; [set_solver|].
        apply Hmono. rewrite lookup_insert_eq. by eexists.
      * intros uid' Hsome. apply Hmono.
        destruct (decide (uid' = uid)) as [->|Hne];
          [rewrite lookup_insert_eq; by eexists|by rewrite lookup_insert_ne].
      * intros Hseen uid' u Hu. apply (Hkeep Hseen).
        rewrite Hseen in Hskip. simpl in Hskip. apply bool_decide_eq_false in Hskip.
        destruct (decide (uid' = uid)) as [->|Hne]; [|by rewrite lookup_insert_ne].
        destruct Hskip. by eexists.
Qed.

(** The idle callback of [_parseJSON] puts the users of the payload into
    the cache.  It removes its handle from the deferred handles and calls
    the callback once, with the results.  Afterwards every user of the
    payload is cached, out of the queue [toLoad], and among the seen ids of
    the results; users that were cached stay cached, and with [skipSeen]
    their records are the ones the cache had.  [loadUsers] for ids of the
    payload then answers from the cache and sends no request. *)
Theorem users_payload_fills_cache (handle n : nat) (payload : JsonPayload) (options : Options)
    (s : Osm) :
  ∃ results s',
    parseJSON_deferred handle payload (invoke (UserCb n)) options s
      = (Returned tt, s', [Invoke n None (VResults results)]) ∧
    _deferred s' = _deferred s ∖ {[handle]} ∧
    (∀ user uid, user ∈ payload_users payload → pretty <$> ju_id user = Some uid →
       uid ∈ seenIDs results ∧ (uid ∉ uc_toLoad (_userCache s')) ∧
       is_Some (uc_user (_userCache s') !! uid)) ∧
    (∀ uid, is_Some (uc_user (_userCache s) !! uid) → is_Some (uc_user (_userCache s') !! uid)) ∧
    (skipSeen options = true →
     ∀ uid u, uc_user (_userCache s) !! uid = Some u → uc_user (_userCache s') !! uid = Some u) ∧
    (∀ uids m,
       uids ≠ [] →
       (∀ uid, uid ∈ uids → ∃ user, user ∈ payload_users payload ∧ pretty <$> ju_id user = Some uid) →
       ∃ s'' cached,
         loadUsers uids (closure (UserCb m)) s'
           = (Returned tt, s'', [Invoke m None (VData (DUser <$> cached))]) ∧
         length cached = length (utilArrayUniq uids)).
Proof.
  unfold parseJSON_deferred, bind at 1, deferred_delete, modify at 1.
  set (s0 := set_deferred _ s).
  unfold bind at 1.
  destruct (parseJSON_elements_state options (json_elements payload) no_results s0)
    as (r1 & seen & -> & _).
  set (s1 := set_tileCache _ s0).
  fold (payload_users payload). unfold bind at 1.
  destruct (parseJSON_users_state options (payload_users payload) r1 s1)
    as (r2 & cache & -> & _ & Hall & Hmono & Hkeep & _).
  simpl. unfold effect. eexists _, _. split; [reflexivity|]. simpl.
  split; [done|]. split; [exact Hall|]. split; [exact Hmono|]. split; [exact Hkeep|].
  intros uids m Hne Huids.
  set (s' := set_userCache cache s1).
  unfold loadUsers, bind.
  destruct (loadUsers_split_spec (utilArrayUniq uids) s') as [toLoad' ->]. simpl.
  assert (Hcached : ∀ uid, uid ∈ utilArrayUniq uids → is_Some (uc_user cache !! uid)).
  { intros uid Hin. apply (proj1 (utilArrayUniq_elem _ _)) in Hin. destruct (Huids uid Hin) as (user & Huser & Hid).
    by destruct (Hall user uid Huser Hid) as (_ & _ & ?). }
  assert (Hnone : filter (λ uid, uc_user cache !! uid = None) (utilArrayUniq uids) = []).
  { revert Hcached. generalize (utilArrayUniq uids). induction l as [|uid l IHl]; [done|].
    intros Hl. rewrite filter_cons. destruct (Hl uid ltac:(left)) as [u Hu].
    rewrite decide_False by congruence. apply IHl. intros uid' Hin. apply Hl. by right. }
  assert (Hlen : length (omap (λ uid, uc_user cache !! uid) (utilArrayUniq uids))
                 = length (utilArrayUniq uids)).
  { revert Hcached. generalize (utilArrayUniq uids). induction l as [|uid l IHl]; [done|].
    intros Hl. simpl. destruct (Hl uid ltac:(left)) as [u ->]. simpl. f_equal.
    apply IHl. intros uid' Hin. apply Hl. by right. }
  assert (Hsome : omap (λ uid, uc_user cache !! uid) (utilArrayUniq uids) ≠ []).
  { intros Hnil. rewrite Hnil in Hlen. simpl in Hlen.
    destruct uids as [|uid uids]; [done|].
    assert (Hin : uid ∈ utilArrayUniq (uid :: uids)) by (apply (proj2 (utilArrayUniq_elem _ _)); left).
    destruct (utilArrayUniq (uid :: uids)); [by apply elem_of_nil in Hin|done]. }
  rewrite Hnone. unfold authenticated, gets. simpl.
  rewrite (bool_decide_eq_false_2 _ Hsome). simpl. unfold effect.
  destruct (oauth_token s); simpl; eexists _, _; (split; [reflexivity|exact Hlen]).
Qed.
End user_cache.

(** ** One answer for each parse *)

Section parse_answers.
Context {N : JsNumber} {T : JsNumberText N} {H : Host N}.

(** [_parseJSON] answers once.  Either [JSON.parse] throws on a text that
    is not JSON; or the payload is empty or holds an element of type
    [error], and the callback is called at once with the error 'No JSON' or
    'Partial JSON' (status -1), nothing else being done; or one idle
    callback is requested, its handle is added to the deferred handles, and
    the callback is not called yet: it is called once, without an error and
    with the results, when the idle callback runs, which also removes the
    handle. *)
Theorem parseJSON_answers_once (fuel n : nat) (payload : Body) (options : Options)
    (r : Response) (s : Osm) :
  let called := _parseJSON payload (closure (UserCb n)) options s in
  let handle := next_handle s in
  (∃ text, payload = BText text ∧ text ≠ "" ∧ JSON_parse text = None ∧ called = (Threw, s, [])) ∨
  (∃ e, (e = err_no_json ∨ e = err_partial_json) ∧
        called = (Returned tt, s, [Invoke n (Some e) VUndefined])) ∨
  (∃ json s1,
     let k := KParseJSON handle json (UserCb n) options in
     called = (Returned tt, s1, [RequestIdleCallback handle k]) ∧
     _deferred s1 = {[handle]} ∪ _deferred s ∧
     next_handle s1 = S handle ∧
     ∃ results s2,
       resume fuel k r s1 = (Returned tt, s2, [Invoke n None (VResults results)]) ∧
       _deferred s2 = _deferred s1 ∖ {[handle]}).
Proof.
  intros called handle.
  assert (Hparse : ∀ json,
            (if existsb (λ el, bool_decide (el_type el = "error")) (json_elements json) then
               fn_call (closure (UserCb n)) (Some err_partial_json) VUndefined
             else
               requestIdleCallback
                 (λ handle, KParseJSON handle json (fn_name (closure (UserCb n))) options)) s
            = called →
            (∃ e, (e = err_no_json ∨ e = err_partial_json) ∧
                  called = (Returned tt, s, [Invoke n (Some e) VUndefined])) ∨
            (∃ json s1,
               let k := KParseJSON handle json (UserCb n) options in
               called = (Returned tt, s1, [RequestIdleCallback handle k]) ∧
               _deferred s1 = {[handle]} ∪ _deferred s ∧
               next_handle s1 = S handle ∧
               ∃ results s2,
                 resume fuel k r s1 = (Returned tt, s2, [Invoke n None (VResults results)]) ∧
                 _deferred s2 = _deferred s1 ∖ {[handle]})).
  { intros json <-.
    destruct (existsb _ (json_elements json)).
    { left. exists err_partial_json. split; [by right|reflexivity]. }
    right. exists json. eexists. cbv zeta.
    split; [reflexivity|]. split; [reflexivity|]. split; [reflexivity|].
    simpl. unfold parseJSON_deferred, bind at 1, deferred_delete, modify at 1.
    unfold bind at 1.
    match goal with |- context [parseJSON_elements options _ no_results ?s0] =>
      destruct (parseJSON_elements_state options (json_elements json) no_results s0)
        as (r1 & seen & -> & _) end.
    unfold bind at 1.
    match goal with |- context [parseJSON_users options ?us r1 ?s1] =>
      destruct (parseJSON_users_state options us r1 s1) as (r2 & cache & -> & _) end.
    simpl. unfold effect. by eexists _, _. }
  destruct payload as [|json|doc|text].
  - right. left. exists err_no_json. split; [by left|reflexivity].
  - right. by apply (Hparse json).
  - right. by apply (Hparse empty_payload).
  - destruct (bool_decide (text = "")) eqn:Hempty.
    { right. left. exists err_no_json. split; [by left|].
      unfold called, _parseJSON. by rewrite Hempty. }
    apply bool_decide_eq_false in Hempty.
    destruct (JSON_parse text) as [json|] eqn:Hjson.
    + right. apply (Hparse json). unfold called, _parseJSON.
      rewrite bool_decide_eq_false_2 by done. rewrite Hjson. simpl. unfold bind, ret. simpl.
      by destruct (if existsb _ (json_elements json) then _ else _) as [[[] ?] ?].
    + left. exists text. split; [done|]. split; [done|]. split; [done|].
      unfold called, _parseJSON. rewrite bool_decide_eq_false_2 by done. by rewrite Hjson.
Qed.
End parse_answers.

Section user_round_trip.
Context {N : JsNumber} {T : JsNumberText N} {H : Host N}.

(** A user is loaded once.  A signed-in client asks for a user that is not
    in the cache: [loadUser] sends one request.  The answer, a payload with
    that user and no elements, arriving on the same connection, is put
    aside for an idle callback, and no callback is called yet.  When the
    idle callback runs, the user is stored in the cache and handed to the
    callback.  The next [loadUser] for that user answers with the cached
    record and sends no request. *)
Theorem loaded_user_is_cached (fuel n n' : nat) (uid : string) (payload : JsonPayload)
    (user : JsonUser) (r : Response) (s : Osm) :
  oauth_token s = true →
  uc_user (_userCache s) !! uid = None →
  json_elements payload = [] →
  json_user payload = Some user →
  pretty <$> ju_id user = Some uid →
  let u := user_of_json uid user in
  let k := KLoadFromAPI (PathUser uid) (Some (LoadUserGot (UserCb n))) {| skipSeen := true |}
             (_connectionID s) in
  ∃ s1,
    loadUser uid (closure (UserCb n)) s
      = (Returned tt, s1, [Fetch true (GET (PathUser uid)) (Some (next_controller s)) k]) ∧
    ∃ s2 es2 handle k',
      resume fuel k (Fulfilled (BJson payload)) s1
        = (Returned tt, s2, es2 ++ [RequestIdleCallback handle k']) ∧
      Forall (λ e, is_fetch e = false ∧ is_invoke e = false) es2 ∧
      ∃ s3,
        resume fuel k' r s2 = (Returned tt, s3, [Invoke n None (VDatum (DUser u))]) ∧
        uc_user (_userCache s3) !! uid = Some u ∧
        ∃ s4,
          loadUser uid (closure (UserCb n')) s3
            = (Returned tt, s4, [Invoke n' None (VDatum (DUser u))]).
Proof.
  intros Htoken Hnew Helements Huser Hid u k.
  unfold loadUser at 1. rewrite bind_get, Htoken, Hnew. simpl.
  unfold bind, loadFromAPI, bind, get, new_AbortController, bind, get, modify, effect, ret.
  simpl. rewrite Htoken.
  eexists. split; [reflexivity|].
  set (s1 := set_next_controller _ s).
  unfold k. simpl. unfold catch, loadFromAPI_done. rewrite bind_get.
  destruct (decide (_connectionID s1 ≠ _connectionID s)) as [Hne|_]; [by destruct Hne|].
  replace (oauth_token s1) with true by (by rewrite <- Htoken).
  simpl. rewrite Helements. simpl.
  assert (Hidle : ∀ s2,
            s2 = set_deferred ({[next_handle s1]} ∪ _deferred s1)
                   (set_next_handle (S (next_handle s1)) s1) →
            ∃ s3,
              resume fuel (KParseJSON (next_handle s1) payload (LoadUserGot (UserCb n))
                             {| skipSeen := true |}) r s2
                = (Returned tt, s3, [Invoke n None (VDatum (DUser u))]) ∧
              uc_user (_userCache s3) !! uid = Some u ∧
              ∃ s4,
                loadUser uid (closure (UserCb n')) s3
                  = (Returned tt, s4, [Invoke n' None (VDatum (DUser u))])).
  { intros s2 ->. simpl.
    unfold parseJSON_deferred, bind, deferred_delete, modify. rewrite Helements, Huser. simpl.
    rewrite Hid. simpl.
    unfold bind, toLoad_delete, modify, user_cached, gets, user_store, modify, ret. simpl.
    rewrite Hnew. simpl.
    unfold loadUser_gotUsers, results_data, bind, ret, effect. simpl.
    eexists. split; [reflexivity|]. simpl.
    split; [by rewrite lookup_insert_eq|].
    unfold loadUser. rewrite bind_get. simpl. rewrite lookup_insert_eq. simpl.
    unfold bind, toLoad_delete, modify, effect. simpl.
    eexists. reflexivity. }
  unfold requestIdleCallback, throttledReloadApiStatus.
  destruct (negb (bool_decide (_cachedApiStatus s = Id "online")));
    unfold bind, get, modify, effect, ret; simpl.
  - eexists _, [ThrottledReloadApiStatus], _, _. split; [reflexivity|].
    split; [by repeat constructor|]. by apply Hidle.
  - eexists _, [], _, _. split; [reflexivity|].
    split; [by repeat constructor|]. by apply Hidle.
Qed.
End user_round_trip.

(** The user 7 of a signed-in client. *)
Lemma loaded_user_is_cached_witness :
  let user := {| ju_id := Some 7%Z; ju_display_name := Some "mapper";
                 ju_account_created := None; ju_img_href := None;
                 ju_changesets_count := Some 12%Z; ju_blocks_received_active := None |} in
  let payload := {| json_elements := []; json_user := Some user; json_users := None;
                    json_changesets := [] |} in
  let s := set_oauth_token true (initial (N := FixedNumber)) in
  ∃ s1 request s2 es2 handle k' s3 s4,
    loadUser "7" (closure (H := plain_host _) (UserCb 1)) s = (Returned tt, s1, [request]) ∧
    resume (T := FixedNumberText) (H := plain_host _) 0
      (KLoadFromAPI (PathUser "7") (Some (LoadUserGot (UserCb 1))) {| skipSeen := true |} 0)
      (Fulfilled (BJson payload)) s1
      = (Returned tt, s2, es2 ++ [RequestIdleCallback handle k']) ∧
    resume (T := FixedNumberText) (H := plain_host _) 0 k' AbortError s2
      = (Returned tt, s3, [Invoke 1 None (VDatum (DUser (user_of_json "7" user)))]) ∧
    loadUser "7" (closure (H := plain_host _) (UserCb 2)) s3
      = (Returned tt, s4, [Invoke 2 None (VDatum (DUser (user_of_json "7" user)))]).
Proof.
  intros user payload s.
  destruct (loaded_user_is_cached (T := FixedNumberText) (H := plain_host _)
              0 1 2 "7" payload user AbortError s)
    as (s1 & Hrequest & s2 & es2 & handle & k' & Hanswer & _ & s3 & Hidle & _ & s4 & Hcached);
    [reflexivity..|].
  eexists s1, _, s2, es2, handle, k', s3, s4.
  split; [exact Hrequest|]. split; [exact Hanswer|]. split; [exact Hidle|exact Hcached].
Defined.

(** ** The queue of users to load *)

Section user_queue.
Context {N : JsNumber} {T : JsNumberText N} {H : Host N}.

(** The queue [toLoad] of the user cache lists no user that is cached. *)
Definition queue_fresh (s : Osm) : Prop :=
  ∀ uid, uid ∈ uc_toLoad (_userCache s) → uc_user (_userCache s) !! uid = None.

(** A computation that keeps the queue so, whatever its outcome. *)
Definition fresh_kept {A} (m : M A) : Prop :=
  ∀ s, queue_fresh s → queue_fresh (post m s).

Lemma fresh_kept_bind {A B} (m : M A) (f : A → M B) :
  fresh_kept m → (∀ a, fresh_kept (f a)) → fresh_kept (bind m f).
Proof.
  intros Hm Hf s Hs. unfold post, bind. specialize (Hm s Hs). unfold post in Hm.
  destruct (m s) as [[[a| |] s1] es1]; simpl in *; [|done..].
  specialize (Hf a s1 Hm). unfold post in Hf.
  by destruct (f a s1) as [[r s2] es2].
Qed.

Lemma fresh_kept_ret {A} (a : A) : fresh_kept (ret a).
Proof. by intros s Hs. Qed.

Lemma fresh_kept_get : fresh_kept get.
Proof. by intros s Hs. Qed.

Lemma fresh_kept_gets {A} (f : Osm → A) : fresh_kept (gets f).
Proof. by intros s Hs. Qed.

Lemma fresh_kept_effect (e : Effect) : fresh_kept (effect e).
Proof. by intros s Hs. Qed.

Lemma fresh_kept_required {A} (o : option A) : fresh_kept (required o).
Proof. destruct o; by intros s Hs. Qed.

Lemma fresh_kept_modify (f : Osm → Osm) :
  (∀ s, _userCache (f s) = _userCache s) → fresh_kept (modify f).
Proof. intros Hf s Hs uid. unfold post, modify. simpl. rewrite Hf. apply Hs. Qed.

Lemma fresh_kept_toLoad_delete (uid : string) : fresh_kept (toLoad_delete uid).
Proof.
  intros s Hs uid'. unfold post, toLoad_delete, modify. simpl.
  intros [Hin _]%elem_of_difference. by apply Hs.
Qed.

Ltac fresh_kept :=
  repeat first
    [ apply fresh_kept_ret | apply fresh_kept_get | apply fresh_kept_gets
    | apply fresh_kept_effect | apply fresh_kept_required | apply fresh_kept_toLoad_delete
    | (apply fresh_kept_modify; intros; reflexivity)
    | (apply fresh_kept_bind; [|intros])
    | match goal with |- fresh_kept (if ?b then _ else _) => destruct b end
    | match goal with |- fresh_kept (match ?o with _ => _ end) => destruct o end
    | assumption ].

(** A user is queued only when it is not cached. *)
Lemma fresh_kept_queue (uid : string) :
  fresh_kept (let* cached := user_cached uid in
              when negb (bool_decide (uid = "")) && negb cached then toLoad_add uid).
Proof.
  intros s Hs uid'. unfold post, bind, user_cached, gets. simpl.
  destruct (bool_decide (uid = "")); simpl; [apply Hs|].
  destruct (bool_decide (is_Some (uc_user (_userCache s) !! uid))) eqn:Hcached; simpl; [apply Hs|].
  apply bool_decide_eq_false in Hcached.
  intros [->%elem_of_singleton|Hin]%elem_of_union; [|by apply Hs].
  by apply eq_None_not_Some.
Qed.

(** A user is stored and taken out of the queue. *)
Lemma fresh_kept_store (uid : string) (u : User) :
  fresh_kept (user_store uid u >>> toLoad_delete uid).
Proof.
  intros s Hs uid'. unfold post, bind, user_store, toLoad_delete, modify. simpl.
  intros [Hin Hne%not_elem_of_singleton]%elem_of_difference.
  rewrite lookup_insert_ne by done. by apply Hs.
Qed.

Lemma fresh_kept_parseComment nodes parsed : fresh_kept (parseComment nodes parsed).
Proof.
  revert parsed. induction nodes as [|node rest IH]; intros parsed; simpl; [fresh_kept|].
  destruct (decide _); [apply IH|].
  apply fresh_kept_bind; [|intros; apply IH].
  destruct (bool_decide (nodeName node = "uid")); [apply fresh_kept_queue|fresh_kept].
Qed.

Lemma fresh_kept_parseComments comments : fresh_kept (_parseComments comments).
Proof.
  induction comments as [|comment rest IH]; simpl; [fresh_kept|].
  destruct (decide _); [|apply IH].
  apply fresh_kept_bind; [apply fresh_kept_parseComment|intros].
  apply fresh_kept_bind; [apply IH|intros]. fresh_kept.
Qed.

Lemma fresh_kept_parseNote_props childNodes props : fresh_kept (parseNote_props childNodes props).
Proof.
  revert props. induction childNodes as [|node rest IH]; intros props; simpl; [fresh_kept|].
  destruct (decide _); [apply IH|]. destruct (decide _); [|apply IH].
  apply fresh_kept_bind; [apply fresh_kept_parseComments|intros; apply IH].
Qed.

Lemma fresh_kept_parseNoteXML fuel xml uid : fresh_kept (_parseNoteXML fuel xml uid).
Proof.
  unfold _parseNoteXML. apply fresh_kept_bind; [fresh_kept|intros s0].
  destruct (displace _ _ _); [|by intros s Hs].
  apply fresh_kept_bind; [apply fresh_kept_parseNote_props|intros]. fresh_kept.
Qed.

Lemma fresh_kept_parseUserXML xml uid : fresh_kept (_parseUserXML xml uid).
Proof.
  unfold _parseUserXML.
  intros s Hs. pose proof (fresh_kept_store uid
    {| u_id := uid;
       u_display_name := al_lookup "display_name" (xml_attributes xml);
       u_account_created := al_lookup "account_created" (xml_attributes xml);
       u_image_url := first_attribute (getElementsByTagName xml "img") "href";
       u_changesets_count :=
         default "0" (first_attribute (getElementsByTagName xml "changesets") "count");
       u_active_blocks :=
         default "0" (first_attribute
                        match getElementsByTagName xml "blocks" with
                        | b :: _ => getElementsByTagName b "received"
                        | [] => []
                        end "active") |} s Hs) as Hstore.
  exact Hstore.
Qed.

Lemma fresh_kept_parseXML_children fuel options children results :
  fresh_kept (parseXML_children fuel options children results).
Proof.
  revert results. induction children as [|child rest IH]; intros results; simpl; [fresh_kept|].
  destruct (decide _).
  { apply fresh_kept_bind; [fresh_kept|intros uid].
    apply fresh_kept_bind; [unfold user_cached; fresh_kept|intros cached].
    destruct (skipSeen options && cached).
    - apply fresh_kept_bind; [fresh_kept|intros; apply IH].
    - apply fresh_kept_bind; [apply fresh_kept_parseUserXML|intros; apply IH]. }
  destruct (decide _).
  { apply fresh_kept_bind; [fresh_kept|intros id].
    apply fresh_kept_bind; [apply fresh_kept_parseNoteXML|intros; apply IH]. }
  destruct (xml_parser (nodeName child)); [|apply IH].
  apply fresh_kept_bind; [fresh_kept|intros id].
  apply fresh_kept_bind; [unfold seen_has; fresh_kept|intros seen].
  destruct (skipSeen options && seen); [apply IH|].
  apply fresh_kept_bind; [unfold seen_add; fresh_kept|intros].
  apply fresh_kept_bind; [fresh_kept|intros; apply IH].
Qed.

Lemma fresh_kept_parseJSON_elements options elements results :
  fresh_kept (parseJSON_elements options elements results).
Proof.
  revert results. induction elements as [|element rest IH]; intros results; simpl; [fresh_kept|].
  destruct (json_parser _); [|apply IH].
  destruct (skipSeen options); [|apply IH].
  apply fresh_kept_bind; [unfold seen_has; fresh_kept|intros seen].
  destruct seen; [apply IH|].
  apply fresh_kept_bind; [unfold seen_add; fresh_kept|intros; apply IH].
Qed.

Lemma fresh_kept_parseJSON_users options users results :
  fresh_kept (parseJSON_users options users results).
Proof.
  revert results. induction users as [|user rest IH]; intros results; simpl; [fresh_kept|].
  destruct (pretty <$> ju_id user) as [uid|]; [|apply IH].
  intros s Hs.
  set (s_a := set_userCache (set_uc_toLoad (uc_toLoad (_userCache s) ∖ {[uid]}) (_userCache s)) s).
  assert (Hfresh : queue_fresh s_a) by (by apply (fresh_kept_toLoad_delete uid s)).
  assert (Hout : uid ∉ uc_toLoad (_userCache s_a)) by (simpl; set_solver).
  unfold post, bind, toLoad_delete, modify, user_cached, gets. simpl. fold s_a.
  match goal with |- context [if ?b then _ else _] => destruct b end.
  - match goal with |- context [parseJSON_users options rest ?r s_a] =>
      pose proof (IH r s_a Hfresh) as Hk; unfold post in Hk;
      by destruct (parseJSON_users options rest r s_a) as [[[] ?] ?] end.
  - unfold user_store, modify. simpl.
    match goal with |- context [parseJSON_users options rest ?r ?s_b] =>
      assert (Hb : queue_fresh s_b);
      [|pose proof (IH r s_b Hb) as Hk; unfold post in Hk;
        by destruct (parseJSON_users options rest r s_b) as [[[] ?] ?]] end.
    intros uid'. simpl. intros Hin.
    rewrite lookup_insert_ne; [by apply Hfresh|]. intros <-. by apply Hout.
Qed.

Lemma fresh_kept_loadFromAPI path callback options :
  fresh_kept (loadFromAPI path callback options).
Proof. unfold loadFromAPI, new_AbortController. fresh_kept. Qed.

Lemma fresh_kept_loadUsers_split uids : fresh_kept (loadUsers_split uids).
Proof.
  induction uids as [|uid rest IH]; simpl; [fresh_kept|].
  apply fresh_kept_bind; [fresh_kept|intros s0].
  destruct (uc_user (_userCache s0) !! uid); fresh_kept.
Qed.

Lemma fresh_kept_loadUsers_request chunks callback :
  fresh_kept (loadUsers_request chunks callback).
Proof.
  induction chunks as [|arr rest IH]; simpl; [fresh_kept|].
  apply fresh_kept_bind; [apply fresh_kept_loadFromAPI|intros; apply IH].
Qed.

(** The queue of users to load lists only users that are not cached: when
    that holds before, it holds after the idle callback of [_parseJSON],
    after the idle callback of [_parseXML] (whether it returns, throws on a
    child without an id or does not finish placing a note), after
    [loadUsers] and after [loadUser]. *)
Theorem user_queue_lists_uncached (fuel handle n : nat) (payload : JsonPayload)
    (children : list XmlNode) (options : Options) (uids : list string) (uid : string) (s : Osm) :
  queue_fresh s →
  queue_fresh (post (parseJSON_deferred handle payload (invoke (UserCb n)) options) s) ∧
  queue_fresh (post (parseXML_deferred fuel handle children (invoke (UserCb n)) options) s) ∧
  queue_fresh (post (loadUsers uids (closure (UserCb n))) s) ∧
  queue_fresh (post (loadUser uid (closure (UserCb n))) s).
Proof.
  intros Hs. repeat split.
  - revert s Hs. unfold parseJSON_deferred, deferred_delete.
    apply fresh_kept_bind; [fresh_kept|intros].
    apply fresh_kept_bind; [apply fresh_kept_parseJSON_elements|intros].
    apply fresh_kept_bind; [apply fresh_kept_parseJSON_users|intros].
    simpl. fresh_kept.
  - revert s Hs. unfold parseXML_deferred, deferred_delete.
    apply fresh_kept_bind; [fresh_kept|intros].
    apply fresh_kept_bind; [apply fresh_kept_parseXML_children|intros].
    simpl. fresh_kept.
  - revert s Hs. unfold loadUsers, authenticated.
    apply fresh_kept_bind; [apply fresh_kept_loadUsers_split|intros split].
    apply fresh_kept_bind; [fresh_kept|intros authed].
    destruct (negb (bool_decide (split.2 = [])) || negb authed).
    + apply fresh_kept_bind; [simpl; fresh_kept|intros].
      apply fresh_kept_bind; [fresh_kept|intros authed'].
      destruct (negb authed'); [fresh_kept|apply fresh_kept_loadUsers_request].
    + apply fresh_kept_loadUsers_request.
  - revert s Hs. unfold loadUser.
    apply fresh_kept_bind; [fresh_kept|intros s0].
    destruct (_ || _).
    + apply fresh_kept_bind; [fresh_kept|intros]. simpl. fresh_kept.
    + apply fresh_kept_bind; [apply fresh_kept_loadFromAPI|intros]. fresh_kept.
Qed.
End user_queue.

(** A note whose comment names the user 7, with the cache empty: the user
    is queued, and is not cached. *)
Lemma user_queue_lists_uncached_witness :
  let note := XElement "note" [("lon", "0.0000100"); ("lat", "0.0000200")]
                [XElement "id" [] [XText "3"];
                 XElement "comments" []
                   [XElement "comment" [] [XElement "uid" [] [XText "7"]]]] in
  let s' := post (parseXML_deferred (T := FixedNumberText) 1 0 [note]
                    (invoke (H := plain_host _) (UserCb 1)) {| skipSeen := false |})
              (initial (N := FixedNumber)) in
  queue_fresh s' ∧ "7" ∈ uc_toLoad (_userCache s').
Proof.
  intros note s'. split; [|vm_compute; set_solver].
  destruct (user_queue_lists_uncached (T := FixedNumberText) (H := plain_host _)
              1 0 1 empty_payload [note] {| skipSeen := false |} [] "7" initial)
    as (_ & Hxml & _); [|exact Hxml].
  intros uid Hin. reflexivity.
Defined.

(** ** Answers that come after the connection was switched *)

Section stale_answers.
Context {N : JsNumber} {T : JsNumberText N} {H : Host N}.

(** No answer is taken for a connection it was not asked on.  When the
    connection ID is no longer the one a request was made with, a response
    that arrives, good or bad for [loadFromAPI], good for the three
    changeset methods, [status] and [authenticate], is handed on as the
    error 'Connection Switched' (status -1): nothing is parsed, no tile is
    marked loaded, seen or put into the spatial index, no changeset is
    opened, no rate-limit error is recorded or cleared, nobody is logged
    out.  The changeset request in flight is released.  The open changeset
    ID stays as it was after a stale answer to [createChangeset] or
    [uploadChangeset]; a stale answer to [closeChangeset] clears it, as
    [closedChangeset] does on every answer. *)
Theorem stale_answers_are_refused (fuel cid n : nat) (path : Path) (options : Options)
    (tile : Tile) (changeset : Changeset) (b : Body) (s : Osm) :
  _connectionID s ≠ cid →
  let switched := Some err_connection_switched in
  (∀ r, r = Fulfilled b ∨ (∃ e, r = FetchError e) →
     resume fuel (KLoadFromAPI path (Some (UserCb n)) options cid) r s
       = (Returned tt, s, [Invoke n switched VUndefined]) ∧
     ∃ s' es,
       resume fuel (KLoadFromAPI path (Some (GotTile tile (Some (UserCb n)))) options cid) r s
         = (Returned tt, s', Invoke n switched (VTileResults None tile) :: es) ∧
       (es = [] ∨ es = [Emit "loaded"]) ∧
       tc_loaded (_tileCache s') = tc_loaded (_tileCache s) ∧
       tc_rtree (_tileCache s') = tc_rtree (_tileCache s) ∧
       tc_seen (_tileCache s') = tc_seen (_tileCache s) ∧
       _rateLimitError s' = _rateLimitError s ∧ oauth_token s' = oauth_token s) ∧
  (∃ s',
     resume fuel (KChangeset cid (CreatedChangeset changeset (UserCb n))) (Fulfilled b) s
       = (Returned tt, s', [Invoke n switched (VChangeset changeset)]) ∧
     openChangesetID (_changeset s') = openChangesetID (_changeset s) ∧
     cs_inflight (_changeset s') = None ∧
     _rateLimitError s' = _rateLimitError s ∧ oauth_token s' = oauth_token s) ∧
  (∃ s',
     resume fuel (KChangeset cid (UploadedChangeset changeset (UserCb n))) (Fulfilled b) s
       = (Returned tt, s', [Invoke n switched (VChangeset changeset)]) ∧
     openChangesetID (_changeset s') = openChangesetID (_changeset s) ∧
     cs_inflight (_changeset s') = None ∧
     _rateLimitError s' = _rateLimitError s ∧ oauth_token s' = oauth_token s) ∧
  (∃ s',
     resume fuel (KChangeset cid (ClosedChangeset changeset (UserCb n))) (Fulfilled b) s
       = (Returned tt, s', [Invoke n switched (VChangeset changeset)]) ∧
     openChangesetID (_changeset s') = Null ∧
     cs_inflight (_changeset s') = None ∧
     _rateLimitError s' = _rateLimitError s ∧ oauth_token s' = oauth_token s) ∧
  resume fuel (KStatus cid (StatusGotResult (UserCb n))) (Fulfilled b) s
    = (Returned tt, s, [Invoke n switched VNull]) ∧
  resume fuel (KAuthenticated cid (Some (UserCb n))) (Fulfilled b) s
    = (Returned tt, set_oauth_token true s, [Invoke n switched VUndefined]).
Proof.
  intros Hswitched switched.
  split; [|split; [|split; [|split; [|split]]]].
  - intros r Hr.
    assert (Hdone : ∀ callback err body,
              loadFromAPI_done path callback options cid err body s
              = match callback with
                | Some cb => invoke cb switched VUndefined s
                | None => (Returned tt, s, [])
                end).
    { intros callback err body. unfold loadFromAPI_done. rewrite bind_get.
      destruct (decide (_connectionID s ≠ cid)); [|done]. by destruct callback. }
    assert (Htile : ∃ s' es,
              invoke (GotTile tile (Some (UserCb n))) switched VUndefined s
                = (Returned tt, s', Invoke n switched (VTileResults None tile) :: es) ∧
              (es = [] ∨ es = [Emit "loaded"]) ∧
              tc_loaded (_tileCache s') = tc_loaded (_tileCache s) ∧
              tc_rtree (_tileCache s') = tc_rtree (_tileCache s) ∧
              tc_seen (_tileCache s') = tc_seen (_tileCache s) ∧
              _rateLimitError s' = _rateLimitError s ∧ oauth_token s' = oauth_token s).
    { simpl. unfold gotTile, bind, set_tile_inflight, modify, get, effect, emit, effect. simpl.
      destruct (negb (_hasInflightRequests _)); simpl;
        eexists _, _; (split; [reflexivity|]); (split; [by (left + right)|]); by repeat split. }
    destruct Hr as [->|[e ->]]; simpl; unfold catch; rewrite !Hdone; simpl.
    + split; [done|]. destruct Htile as (s' & es & Hrun & Hrest). simpl in Hrun.
      rewrite Hrun. by exists s', es.
    + split; [done|]. destruct Htile as (s' & es & Hrun & Hrest). simpl in Hrun.
      by exists s', es.
  - simpl. unfold catch, _wrapcb. rewrite bind_get.
    destruct (decide (_connectionID s ≠ cid)); [|done]. simpl.
    unfold createdChangeset, bind, set_inflight, modify, effect. simpl.
    by eexists.
  - simpl. unfold catch, _wrapcb. rewrite bind_get.
    destruct (decide (_connectionID s ≠ cid)); [|done]. simpl.
    unfold uploadedChangeset, bind, set_inflight, modify, effect. simpl.
    by eexists.
  - simpl. unfold catch, _wrapcb. rewrite bind_get.
    destruct (decide (_connectionID s ≠ cid)); [|done]. simpl.
    unfold closedChangeset, bind, set_inflight, set_open, modify, effect. simpl.
    by eexists.
  - simpl. unfold catch, _wrapcb. rewrite bind_get.
    destruct (decide (_connectionID s ≠ cid)); [|done]. reflexivity.
  - simpl. unfold authenticate_done, bind at 1, modify at 1. rewrite bind_get. simpl.
    destruct (decide (_connectionID s ≠ cid)); [|done]. reflexivity.
Qed.
End stale_answers.

(** The answer to a map request made on connection 0 arrives on connection
    1. *)
Lemma stale_answers_are_refused_witness :
  let s := set_connectionID 1 (initial (N := FixedNumber)) in
  let tile := fixed_tile "35241,21480,16" 0 0 1000 1000 in
  resume (T := FixedNumberText) (H := plain_host _) 0
    (KLoadFromAPI (PathMap (wgs84Extent tile)) (Some (UserCb 1)) {| skipSeen := true |} 0)
    (Fulfilled (BJson empty_payload)) s
  = (Returned tt, s, [Invoke 1 (Some err_connection_switched) VUndefined]).
Proof.
  intros s tile.
  destruct (stale_answers_are_refused (T := FixedNumberText) (H := plain_host _) 0 0 1
              (PathMap (wgs84Extent tile)) {| skipSeen := true |} tile
              {| cs_id := Undefined; cs_content := "" |} (BJson empty_payload) s)
    as (Hload & _); [discriminate|].
  destruct (Hload (Fulfilled (BJson empty_payload))) as (Hrun & _); [by left|].
  exact Hrun.
Defined.

(** ** The changeset request in flight *)

Section changeset_released.
Context {N : JsNumber} {T : JsNumberText N} {H : Host N}.

(** The closures the changeset methods hand to [_wrapcb], for a callback of
    the caller. *)
Definition changeset_closure (inner : Callback) (changeset : Changeset) (n : nat) : Prop :=
  inner = CreatedChangeset changeset (UserCb n) ∨
  inner = UploadedChangeset changeset (UserCb n) ∨
  inner = ClosedChangeset changeset (UserCb n).

(** The changeset request in flight is released on every outcome.  However
    the request of [createChangeset], [uploadChangeset] or [closeChangeset]
    ends, no changeset request is in flight afterwards and no request has
    been sent.  A response, good or a [FetchError], is answered to the
    callback exactly once, as the last thing; an aborted request and a
    rejection that is not a [FetchError] are not answered at all.  The next
    [createChangeset] is therefore never refused as 'already inflight'. *)
Theorem changeset_inflight_is_released (fuel cid n n' : nat) (inner : Callback)
    (changeset next : Changeset) (r : Response) (s : Osm) :
  changeset_closure inner changeset n →
  ∃ s' es,
    resume fuel (KChangeset cid inner) r s = (Returned tt, s', es) ∧
    isChangesetInflight s' = false ∧
    (match r with
     | Fulfilled _ | FetchError _ =>
         ∃ pre err v, es = pre ++ [Invoke n err v] ∧
                      Forall (λ e, is_fetch e = false ∧ is_invoke e = false) pre
     | AbortError | OtherError => es = []
     end) ∧
    ∀ s'' es'',
      createChangeset next (closure (UserCb n')) s' = (Returned tt, s'', es'') →
      Invoke n' (Some err_inflight) VUndefined ∉ es''.
Proof.
  intros Hinner.
  assert (Hnext : ∀ s', isChangesetInflight s' = false →
            ∀ s'' es'',
              createChangeset next (closure (UserCb n')) s' = (Returned tt, s'', es'') →
              Invoke n' (Some err_inflight) VUndefined ∉ es'').
  { intros s' Hfree s'' es''. unfold createChangeset. rewrite bind_get, Hfree.
    destruct (negb (oauth_token s')).
    { simpl. intros [= <- <-] [=]%list_elem_of_singleton. }
    destruct (truthy _).
    { unfold createdChangeset, bind, set_inflight, set_open, modify, effect. simpl.
      intros [= <- <-] [=]%list_elem_of_singleton. }
    unfold bind, new_AbortController, bind, get, modify, effect, set_inflight, modify, ret. simpl.
    intros [= <- <-] [=]%list_elem_of_singleton. }
  assert (Herror : ∀ e s0, ∃ s' es,
            (set_inflight None >>> _wrapcb cid (invoke inner) (Some e) VUndefined) s0
              = (Returned tt, s', es) ∧
            isChangesetInflight s' = false ∧
            ∃ pre err v, es = pre ++ [Invoke n err v] ∧
                         Forall (λ e, is_fetch e = false ∧ is_invoke e = false) pre).
  { intros e s0. unfold _wrapcb.
    destruct Hinner as [->|[->| ->]]; destruct (is_auth_failure (Some e)); simpl;
      unfold createdChangeset, uploadedChangeset, closedChangeset, bind, logout, bind,
        set_inflight, set_open, modify, emit, effect, ret; simpl;
      eexists _, _; (split; [reflexivity|]); (split; [reflexivity|]);
      first [ by eexists [], _, _
            | eexists [_; _], _, _; split; [reflexivity|by repeat constructor] ]. }
  destruct r as [b|e| |].
  - simpl. unfold catch, _wrapcb. rewrite bind_get.
    destruct Hinner as [->|[->| ->]]; destruct (decide (_connectionID s ≠ cid)); simpl;
      unfold createdChangeset, uploadedChangeset, closedChangeset, bind,
        set_inflight, set_open, modify, emit, effect, ret; simpl;
      eexists _, _; (split; [reflexivity|]); (split; [reflexivity|]);
      (split; [by eexists [], _, _|]); by apply Hnext.
  - destruct (Herror e s) as (s' & es & Hrun & Hfree & Hes).
    exists s', es. simpl. split; [exact Hrun|]. split; [exact Hfree|].
    split; [exact Hes|by apply Hnext].
  - simpl. unfold set_inflight, modify. eexists _, _. split; [reflexivity|].
    split; [reflexivity|]. split; [reflexivity|]. by apply Hnext.
  - simpl. unfold set_inflight, modify. eexists _, _. split; [reflexivity|].
    split; [reflexivity|]. split; [reflexivity|]. by apply Hnext.
Qed.
End changeset_released.

(** The request that creates a changeset is aborted: nothing is in flight
    afterwards, and nothing is answered. *)
Lemma changeset_inflight_is_released_witness :
  let changeset := {| cs_id := Undefined; cs_content := "comment=survey" |} in
  let s := set_changeset {| cs_inflight := Some 0; openChangesetID := Undefined |}
             (set_oauth_token true (initial (N := FixedNumber))) in
  ∃ s',
    resume (T := FixedNumberText) (H := plain_host _) 0
      (KChangeset 0 (CreatedChangeset changeset (UserCb 1))) AbortError s = (Returned tt, s', []) ∧
    isChangesetInflight s' = false.
Proof.
  intros changeset s.
  destruct (changeset_inflight_is_released (T := FixedNumberText) (H := plain_host _)
              0 0 1 2 (CreatedChangeset changeset (UserCb 1)) changeset changeset AbortError s)
    as (s' & es & Hrun & Hfree & Hes & _); [by left|].
  simpl in Hes. subst es. by exists s'.
Defined.

(** ** One continuation for each response *)

Section one_continuation.
Context {N : JsNumber} {T : JsNumberText N} {H : Host N}.

(** What the service does for itself while it handles a response: events,
    the logout, the call for a reload of the status. *)
Definition bookkeeping (e : Effect) : Prop :=
  match e with
  | Emit _ | OauthLogout | ThrottledReloadApiStatus => True
  | _ => False
  end.

(** [loadFromAPI] goes on in one way at most.  On the connection the
    request was made on, whatever its response, [done] returns after
    bookkeeping effects and at most one of: the callback called with an
    error; the request sent again, unauthenticated, after a logout (for a
    signed-in client and status 400, 401 or 403); one idle callback
    requested for the parse of a good response.  The callback is never
    called twice, and never together with a retry or a deferred parse.
    Nothing at all follows an aborted request, a rejection that is not a
    [FetchError], and a good response whose parse throws. *)
Theorem loadFromAPI_continues_once (fuel n : nat) (path : Path) (options : Options)
    (r : Response) (s : Osm) :
  let cid := _connectionID s in
  let k := KLoadFromAPI path (Some (UserCb n)) options cid in
  ∃ s' pre last,
    resume fuel k r s = (Returned tt, s', pre ++ last) ∧
    Forall bookkeeping pre ∧
    ((last = [] ∧ (r = AbortError ∨ r = OtherError ∨ ∃ b, r = Fulfilled b)) ∨
     (∃ e, last = [Invoke n (Some e) VUndefined] ∧
           (r = FetchError e ∨ ∃ b, r = Fulfilled b)) ∨
     (∃ e, last = [Fetch false (GET path) (Some (next_controller s)) k] ∧
           r = FetchError e ∧ oauth_token s = true ∧ is_auth_failure (Some e) = true ∧
           oauth_token s' = false) ∨
     (∃ handle k' b, last = [RequestIdleCallback handle k'] ∧ r = Fulfilled b)).
Proof.
  intros cid k. unfold k.
  destruct r as [b|e| |]; simpl.
  - unfold catch, loadFromAPI_done. rewrite bind_get.
    destruct (decide (_connectionID s ≠ cid)) as [Hne|_]; [by destruct Hne|].
    replace (oauth_token s && is_auth_failure None) with false
      by (by destruct (oauth_token s)).
    replace (negb (oauth_token s) && negb (bool_decide (is_Some (_rateLimitError s)))
             && is_rate_limit None) with false
      by (by destruct (negb (oauth_token s)), (negb (bool_decide (is_Some (_rateLimitError s))))).
    simpl. unfold bind at 1.
    assert (Hreload : ∃ pre,
              (if negb (bool_decide (_cachedApiStatus s = Id "online"))
               then throttledReloadApiStatus else ret tt) s = (Returned tt, s, pre) ∧
              Forall bookkeeping pre).
    { destruct (negb _); eexists; (split; [reflexivity|]); by repeat constructor. }
    destruct Hreload as (pre & -> & Hpre).
    assert (Hparse : ∃ out s' last,
              (if path_is_json path then _parseJSON b (closure (UserCb n)) options
               else _parseXML b (closure (UserCb n)) options) s = (out, s', last) ∧
              ((out = Threw ∧ last = []) ∨
               (out = Returned tt ∧
                ((∃ e, last = [Invoke n (Some e) VUndefined]) ∨
                 (∃ handle k', last = [RequestIdleCallback handle k']))))).
    { assert (Hjson : ∀ json, ∃ out s' last,
                (if existsb (λ el, bool_decide (el_type el = "error")) (json_elements json) then
                   fn_call (closure (UserCb n)) (Some err_partial_json) VUndefined
                 else
                   requestIdleCallback
                     (λ handle, KParseJSON handle json (fn_name (closure (UserCb n))) options)) s
                = (out, s', last) ∧
                ((out = Threw ∧ last = []) ∨
                 (out = Returned tt ∧
                  ((∃ e, last = [Invoke n (Some e) VUndefined]) ∨
                   (∃ handle k', last = [RequestIdleCallback handle k']))))).
      { intros json. destruct (existsb _ _).
        - eexists _, _, _. split; [reflexivity|]. right. split; [done|]. left. by eexists.
        - eexists _, _, _. split; [reflexivity|]. right. split; [done|]. right. by eexists _, _. }
      destruct (path_is_json path).
      - unfold _parseJSON. destruct b as [|json|doc|text]; try apply Hjson.
        + eexists _, _, _. split; [reflexivity|]. right. split; [done|]. left. by eexists.
        + destruct (bool_decide (text = "")).
          { eexists _, _, _. split; [reflexivity|]. right. split; [done|]. left. by eexists. }
          destruct (JSON_parse text) as [json|]; simpl.
          * destruct (Hjson json) as (out & s' & last & Hrun & Hlast).
            exists out, s', last. split; [|exact Hlast].
            simpl in Hrun. unfold bind, ret. simpl. by rewrite Hrun.
          * eexists _, _, _. split; [reflexivity|]. by left.
      - unfold _parseXML. destruct b as [|json|doc|text];
          try (eexists _, _, _; split; [reflexivity|]; right; split; [done|]; left; by eexists).
        destruct doc as [|root rest]; simpl.
        + eexists _, _, _. split; [reflexivity|]. by left.
        + unfold bind, ret. simpl.
          destruct (existsb _ (xml_childNodes root)).
          * eexists _, _, _. split; [reflexivity|]. right. split; [done|]. left. by eexists.
          * eexists _, _, _. split; [reflexivity|]. right. split; [done|]. right.
            by eexists _, _. }
    destruct Hparse as (out & s' & last & -> & [[-> ->]|[-> Hlast]]).
    + exists s', pre, []. rewrite !app_nil_r. split; [done|]. split; [done|].
      left. split; [done|]. right. right. by exists b.
    + exists s', pre, last. split; [done|]. split; [done|].
      destruct Hlast as [[e ->]|(handle & k' & ->)].
      * right. left. exists e. split; [done|]. right. by exists b.
      * right. right. right. by exists handle, k', b.
  - unfold loadFromAPI_done. rewrite bind_get.
    destruct (decide (_connectionID s ≠ cid)) as [Hne|_]; [by destruct Hne|].
    destruct (oauth_token s && is_auth_failure (Some e)) eqn:Hretry.
    + apply andb_true_iff in Hretry as [Htoken Hfail].
      unfold bind, logout, bind, loadFromAPI, bind, get, new_AbortController, bind, get,
        modify, emit, effect, ret. simpl.
      eexists _, [OauthLogout; Emit "authchange"], _. split; [reflexivity|].
      split; [by repeat constructor|].
      right. right. left. exists e. by repeat split.
    + unfold bind at 1.
      assert (Hbefore : ∃ s1 pre,
                (if negb (oauth_token s) && negb (bool_decide (is_Some (_rateLimitError s)))
                    && is_rate_limit (Some e)
                 then modify (set_rateLimitError (Some e)) >>> emit "authchange" >>>
                      throttledReloadApiStatus
                 else if bool_decide (is_Some (Some e))
                         && bool_decide (_cachedApiStatus s = Id "online")
                         || negb (bool_decide (is_Some (Some e)))
                            && negb (bool_decide (_cachedApiStatus s = Id "online"))
                 then throttledReloadApiStatus else ret tt) s = (Returned tt, s1, pre) ∧
                Forall bookkeeping pre).
      { destruct (_ && _ && _).
        - eexists _, _. split; [reflexivity|]. by repeat constructor.
        - destruct (_ || _); eexists _, _; (split; [reflexivity|]); by repeat constructor. }
      destruct Hbefore as (s1 & pre & -> & Hpre).
      unfold effect. exists s1, pre, [Invoke n (Some e) VUndefined].
      split; [done|]. split; [done|]. right. left. exists e. split; [done|by left].
  - exists s, [], []. split; [done|]. split; [done|]. left. split; [done|by left].
  - exists s, [], []. split; [done|]. split; [done|]. left. split; [done|]. right. by left.
Qed.
End one_continuation.

(** ** The spinner *)

Section spinner.
Context {N : JsNumber} {T : JsNumberText N} {H : Host N}.

Definition is_loading (e : Effect) : bool :=
  match e with Emit event => bool_decide (event = "loading") | _ => false end.

(** What [loadTile] logs: nothing, or a request, announced by 'loading'
    when no request was in flight. *)
Lemma loadTile_effects (tile : Tile) (callback : option Callback) (s : Osm) :
  ∃ s' es,
    loadTile tile callback s = (Returned tt, s', es) ∧
    _off s' = _off s ∧
    ((es = [] ∧ tc_inflight (_tileCache s') = tc_inflight (_tileCache s)) ∨
     (∃ request, is_fetch request = true ∧
        es = (if _hasInflightRequests (tc_inflight (_tileCache s)) then [] else [Emit "loading"])
             ++ [request] ∧
        _hasInflightRequests (tc_inflight (_tileCache s')) = true)).
Proof.
  unfold loadTile. rewrite bind_get.
  destruct (_off s) eqn:Hoff; [eexists _, _; split; [reflexivity|]; split; [done|by left]|].
  destruct (_ || _); [eexists _, _; split; [reflexivity|]; split; [done|by left]|].
  destruct (tileBlocked tile); [eexists _, _; split; [reflexivity|]; split; [done|by left]|].
  unfold bind, loadFromAPI, bind, get, new_AbortController, bind, get, modify, effect, ret,
    set_tile_inflight, modify, emit, effect.
  assert (Hset : ∀ (k : string) (c : nat) l, _hasInflightRequests (al_set k c l) = true).
  { intros k c l. unfold _hasInflightRequests. apply negb_true_iff, bool_decide_eq_false.
    induction l as [|[k' c'] l IH]; simpl; [done|]. by destruct (decide (k = k')). }
  destruct (_hasInflightRequests (tc_inflight (_tileCache s))); simpl;
    eexists _, _; (split; [reflexivity|]); (split; [done|]); right;
    eexists; (split; [|split; [reflexivity|apply Hset]]); reflexivity.
Qed.

Lemma loadTiles_each_loading (tiles : list Tile) (callback : option Callback) (s : Osm) :
  ∃ s' es,
    loadTiles_each tiles callback s = (Returned tt, s', es) ∧
    filter (λ e, is_loading e = true) es
      = (if _hasInflightRequests (tc_inflight (_tileCache s)) then []
         else if existsb is_fetch es then [Emit "loading"] else []) ∧
    (existsb is_fetch es = false → tc_inflight (_tileCache s') = tc_inflight (_tileCache s)) ∧
    (existsb is_fetch es = true → _hasInflightRequests (tc_inflight (_tileCache s')) = true).
Proof.
  revert s. induction tiles as [|tile rest IH]; intros s; simpl.
  - eexists _, _. split; [reflexivity|]. simpl.
    split; [by destruct (_hasInflightRequests _)|]. by split.
  - unfold bind.
    destruct (loadTile_effects tile callback s)
      as (s1 & es1 & -> & _ & [[-> Hsame]|(request & Hfetch & -> & Hhas)]).
    + destruct (IH s1) as (s' & es & -> & Hloading & Hnone & Hsome).
      eexists _, _. split; [reflexivity|]. simpl. rewrite Hloading, Hsame.
      split; [done|]. split; [intros ?; rewrite <- Hsame; by apply Hnone|done].
    + destruct (IH s1) as (s' & es & -> & Hloading & Hnone & Hsome).
      eexists _, _. split; [reflexivity|].
      rewrite Hhas in Hloading.
      assert (Hany : ∀ pre, existsb is_fetch ((pre ++ [request]) ++ es) = true).
      { intros pre. rewrite existsb_app, existsb_app. simpl. rewrite Hfetch.
        by rewrite orb_true_r. }
      rewrite Hany. rewrite !filter_app, Hloading, app_nil_r.
      assert (Hrequest : filter (λ e, is_loading e = true) [request] = []).
      { rewrite filter_cons. destruct request; try done. }
      rewrite Hrequest, app_nil_r.
      split; [by destruct (_hasInflightRequests (tc_inflight (_tileCache s)))|].
      split; [done|]. intros _.
      destruct (existsb is_fetch es) eqn:Hmore; [by apply Hsome|].
      by rewrite (Hnone eq_refl).
Qed.

(** The spinner starts once.  [loadTiles] emits 'loading' at most once: it
    emits it exactly when it sends a request while none of the requests
    that were in flight is kept; with a request kept in flight, or with
    nothing to request, it does not emit it. *)
Theorem loadTiles_starts_spinner_once (tiles : list Tile) (callback : option Callback)
    (s : Osm) :
  _off s = false →
  let kept := filter (λ kv, wanted (tc_toLoad (_tileCache s)) tiles kv.1 = true)
                (tc_inflight (_tileCache s)) in
  ∃ s' es,
    loadTiles tiles callback s = (Returned tt, s', es) ∧
    filter (λ e, is_loading e = true) es
      = (if bool_decide (kept = []) && existsb is_fetch es then [Emit "loading"] else []) ∧
    (existsb is_fetch es = true → _hasInflightRequests (tc_inflight (_tileCache s')) = true) ∧
    (existsb is_fetch es = false → tc_inflight (_tileCache s') = kept).
Proof.
  intros Hon kept. unfold loadTiles. rewrite bind_get, Hon.
  unfold bind at 1, _abortUnwantedRequests. rewrite abortUnwanted_spec. cbv zeta.
  rewrite kept_are_wanted. fold kept.
  unfold bind at 1, set_tile_inflight, modify at 1. simpl.
  set (s0 := set_tileCache (set_tc_inflight kept (_tileCache s)) s).
  destruct (loadTiles_each_loading tiles callback s0) as (s' & es & Hrun & Hloading & Hnone & Hsome).
  simpl in Hloading, Hnone.
  assert (Haborts : ∀ l : list nat,
            filter (λ e, is_loading e = true) (Abort <$> l) = [] ∧
            existsb is_fetch (Abort <$> l) = false).
  { induction l as [|c l [IH1 IH2]]; [done|]. split; [|done].
    rewrite fmap_cons, filter_cons_False by (by simpl). exact IH1. }
  assert (Hkept : _hasInflightRequests kept = negb (bool_decide (kept = []))) by done.
  unfold bind.
  destruct (_hasInflightRequests (tc_inflight (_tileCache s)) && negb (_hasInflightRequests kept));
    simpl; unfold emit, effect; simpl; fold s0; rewrite Hrun;
    eexists _, _; (split; [reflexivity|]);
    rewrite ?app_nil_r, !filter_app, !existsb_app;
    destruct (Haborts (filter (λ kv, wanted (tc_toLoad (_tileCache s)) tiles kv.1 = false)
                         (tc_inflight (_tileCache s))).*2) as [-> ->];
    simpl; rewrite ?filter_cons; simpl; rewrite ?decide_False by done;
    rewrite ?filter_nil; simpl; rewrite Hloading, Hkept;
    (split; [by destruct (bool_decide (kept = [])), (existsb is_fetch es)|]);
    (split; [exact Hsome|exact Hnone]).
Qed.
End spinner.

(** Two new tiles in view and nothing in flight: 'loading' is emitted
    once for the two requests. *)
Lemma loadTiles_starts_spinner_once_witness :
  let view := [fixed_tile "35241,21480,16" 0 0 1000 1000;
               fixed_tile "35242,21480,16" 1000 0 2000 1000] in
  ∃ s' es,
    loadTiles (H := plain_host _) view None (initial (N := FixedNumber)) = (Returned tt, s', es) ∧
    filter (λ e, is_loading e = true) es = [Emit "loading"].
Proof.
  intros view.
  destruct (loadTiles_starts_spinner_once (H := plain_host _) view None initial)
    as (s' & es & Hrun & Hloading & _); [reflexivity|].
  exists s', es. split; [exact Hrun|].
  rewrite Hloading. vm_compute in Hrun. injection Hrun as _ <-. reflexivity.
Defined.
